(** * Particle Cosmos: the particle engine, the mode blender and the sound engine

    A shallow embedding of [src/main.ts] (particle physics, mode blending,
    colour override, click burst) and of [audio.ts] (class [AmbientSound]),
    followed by the properties the specification states about them.

    Numbers.  Positions, velocities, colours and the other magnitudes are
    modelled by the real numbers [R] of the Standard Library, with the exact
    arithmetic: there the rounding of doubles and of [Float32Array] cells only
    moves a value by a unit in its last place; infinities and NaN are outside
    the model.  [Math.sqrt] is [sqrt], [Math.abs] is [Rabs],
    [Math.min]/[Math.max] are [Rmin]/[Rmax].  Rounding is kept where it decides
    a count: the length of a buffer is computed in binary64 as the program
    computes it (see [Math_floor]), and the sum that accumulates the blend
    fraction is rounded (see [Rounding]), since the tick on which a transition
    is committed depends on it.

    Randomness.  [Math.random()] is an oracle [random : nat -> R]; the state
    carries the number of draws made so far, and the k-th call of the program
    returns [random k].

    Exceptions.  Reading a property of [undefined] or [null] raises a
    [TypeError] in JavaScript; functions that can do so return a [Result]. *)

From Stdlib Require Import Floats.
From Stdlib Require Import Reals Lra Lia ZArith String List.
From stdpp Require Import base list.

#[local] Open Scope R_scope.

#[global] Instance R_inhabited : Inhabited R := populate 0.

(** ** Exceptions *)

Inductive Result (A : Type) : Type :=
| Ok (a : A)
| TypeError.
Arguments Ok {A} a.
Arguments TypeError {A}.

Definition bind {A B : Type} (r : Result A) (k : A -> Result B) : Result B :=
  match r with
  | Ok a => k a
  | TypeError => TypeError
  end.

Notation "'let*' x := r 'in' k" := (bind r (fun x => k))
  (at level 10, x name, r at level 200, k at level 200).

(** [o] is a value that may be [undefined]; using it dereferences it. *)
Definition deref {A : Type} (o : option A) : Result A :=
  match o with
  | Some a => Ok a
  | None => TypeError
  end.

(** ** Loops *)

(** [for (let i = 0; i < n; i++) body(i)] on a loop state of type [S]. *)
Fixpoint for_loop {S : Type} (n : nat) (body : nat -> S -> S) (s : S) : S :=
  match n with
  | O => s
  | Datatypes.S k => body k (for_loop k body s)
  end.

(** ** Typed arrays

    A [Float32Array] is a list of reals of fixed length.  A write out of range
    is ignored (as stdpp's insert does); a read out of range gives [undefined]
    in JavaScript and the default [0] here: every read of the program is in
    range as long as the buffers keep their lengths, see [wf_State]. *)

Abbreviation Float32Array := (list R).

Definition new_Float32Array (n : nat) : Float32Array := replicate n 0.

(** [l[i]] for an array [l] and an integer [i]: [undefined] out of range. *)
Definition index {A : Type} (l : list A) (i : Z) : option A :=
  if (i <? 0)%Z then None else l !! Z.to_nat i.

(** Comparisons of numbers, as the conditions of [if] statements. *)
Definition Rltb (x y : R) : bool := if Rlt_dec x y then true else false.
Definition Rgtb (x y : R) : bool := if Rgt_dec x y then true else false.
Definition Rgeb (x y : R) : bool := if Rge_dec x y then true else false.
Definition Reqb (x y : R) : bool := if Req_dec_T x y then true else false.

(** ** Doubles

    Binary64 numbers are the primitive floats of Rocq. *)

(** The double of a non-negative integer, exact below 2^53. *)
Definition double_of_Z (z : Z) : float :=
  PrimFloat.of_uint63 (Uint63.of_Z z).

(** [Math.floor(x)] of a finite double, as an integer. *)
Definition Math_floor (x : float) : Z :=
  match Prim2SF x with
  | S754_finite s m e => Z.shiftl (if s then Z.neg m else Z.pos m) e
  | _ => 0%Z
  end.

(** Rounding to the nearest double, for the sums and products whose
    rounding the model keeps: any function with the properties below, those
    of the rounding of binary64 that the proofs use.  (Overflow is out of
    reach, the numbers rounded staying below 2.) *)
Record Rounding : Type := mkRounding {
  rounded :> R -> R;
  rounded_mono : forall x y, x <= y -> rounded x <= rounded y;
  rounded_idem : forall x, rounded (rounded x) = rounded x;
  rounded_0 : rounded 0 = 0;
  rounded_1 : rounded 1 = 1
}.

(** ** The sound engine ([audio.ts]) *)

Module AmbientSound.

Definition MODE_FREQS : list (list R) :=
  [ [65.4; 98.0; 164.8];    (* nebula *)
    [73.4; 110.0; 185.0];   (* solar *)
    [82.4; 123.5; 207.7];   (* aurora *)
    [92.5; 138.6; 233.1];   (* vortex *)
    [55.0; 82.4; 123.5] ].  (* void *)

(** *** The Web Audio graph, as far as the engine builds it *)

(** The automation events scheduled on an [AudioParam]. *)
Inductive ParamEvent : Type :=
| SetValue (v : R)
| SetValueAtTime (v t : R)
| LinearRampToValueAtTime (v t : R)
| ExponentialRampToValueAtTime (v t : R).

Definition AudioParam : Type := list ParamEvent.

Inductive OscType : Type := sine | triangle.
Inductive FilterType : Type := lowpass | bandpass.

Record BiquadFilter : Type := mkBiquad {
  f_type : FilterType;
  f_frequency : AudioParam;
  f_Q : AudioParam
}.

(** A low-frequency oscillator through a gain into a parameter. *)
Record Lfo : Type := mkLfo {
  lfo_frequency : R;
  lfo_amp : R
}.

Inductive Source : Type :=
| Oscillator (type : OscType) (frequency : AudioParam) (vibrato : option Lfo)
| BufferSource (data : list R) (loop : bool).

(** What a chain is connected to: a node, or for a low-frequency oscillator
    the parameter it modulates, the frequency or the gain of the drone of
    rank [i]. *)
Inductive Bus : Type :=
| to_master | to_sfxGain | to_filter
| to_frequency (i : nat) | to_gain (i : nat).

(** One chain: source, optional filter, gain, output, start and stop. *)
Record Voice : Type := mkVoice {
  v_source : Source;
  v_filter : option BiquadFilter;
  v_gain : AudioParam;
  v_tremolo : option Lfo;
  v_out : Bus;
  v_start : R;
  v_stop : option R
}.

Inductive ContextState : Type := suspended | running.

Record AudioContext : Type := mkContext {
  currentTime : R;
  sampleRate : nat;
  state : ContextState;
  (** every source started on the context, latest first, apart from the
      drones, which the engine keeps in [drones] *)
  started : list Voice
}.

Record t : Type := mkAmbientSound {
  ctx : option AudioContext;
  master : option AudioParam;       (* the gain of the master GainNode *)
  sfxGain : option AudioParam;      (* the gain of the SFX GainNode *)
  filter : option BiquadFilter;
  drones : list Voice;
  currentMode : Z;
  _enabled : bool
}.

(** [new AmbientSound()] *)
Definition new : t :=
  {| ctx := None; master := None; sfxGain := None; filter := None;
     drones := []; currentMode := 4; _enabled := false |}.

Definition enabled (a : t) : bool := _enabled a.

Definition set_ctx (c : AudioContext) (a : t) : t :=
  {| ctx := Some c; master := master a; sfxGain := sfxGain a;
     filter := filter a; drones := drones a;
     currentMode := currentMode a; _enabled := _enabled a |}.

Definition set_currentMode (i : Z) (a : t) : t :=
  {| ctx := ctx a; master := master a; sfxGain := sfxGain a;
     filter := filter a; drones := drones a;
     currentMode := i; _enabled := _enabled a |}.

Definition set_drones (d : list Voice) (a : t) : t :=
  {| ctx := ctx a; master := master a; sfxGain := sfxGain a;
     filter := filter a; drones := d;
     currentMode := currentMode a; _enabled := _enabled a |}.

Definition start (v : Voice) (c : AudioContext) : AudioContext :=
  {| currentTime := currentTime c; sampleRate := sampleRate c;
     state := state c; started := v :: started c |}.

Definition resume (c : AudioContext) : AudioContext :=
  {| currentTime := currentTime c; sampleRate := sampleRate c;
     state := running; started := started c |}.

(** [osc.frequency.linearRampToValueAtTime(v, t)] on a drone. *)
Definition ramp_frequency (v t : R) (d : Voice) : Voice :=
  match v_source d with
  | Oscillator ty f vib =>
      {| v_source := Oscillator ty (f ++ [LinearRampToValueAtTime v t]) vib;
         v_filter := v_filter d; v_gain := v_gain d;
         v_tremolo := v_tremolo d; v_out := v_out d;
         v_start := v_start d; v_stop := v_stop d |}
  | BufferSource _ _ => d
  end.

Section WithRandom.

(** [Math.random()]: the k-th draw of the run. *)
Variable random : nat -> R.

(** [for (i < bufLen) data[i] = Math.random() * 2 - 1], from draw [rng]. *)
Definition noise_data (rng bufLen : nat) : list R :=
  map (fun k => random (rng + k) * 2 - 1) (seq 0 bufLen).

(** One iteration of the drone loop of [init]. *)
Definition make_drone (freqs : list R) (now : R) (i : nat) : Result Voice :=
  let* f := deref (freqs !! i) in
  Ok {| v_source :=
          Oscillator triangle [SetValue f]
            (Some {| lfo_frequency := 0.06 + INR i * 0.04;
                     lfo_amp := f * 0.004 |});
        v_filter := None;
        v_gain := [SetValue (if Nat.eqb i 0 then 0.5 else 0.3)];
        v_tremolo := Some {| lfo_frequency := 0.03 + INR i * 0.02;
                             lfo_amp := 0.1 |};
        v_out := to_filter;
        v_start := now;
        v_stop := None |}.

(** The two low-frequency oscillators an iteration of the drone loop
    starts, [lfo] (vibrato) then [volLfo] (volume swell), latest first.  An
    oscillator is a sine unless its type is set. *)
Definition make_lfos (freqs : list R) (now : R) (i : nat)
  : Result (list Voice) :=
  let* f := deref (freqs !! i) in
  let lfo :=
    {| v_source := Oscillator sine [SetValue (0.06 + INR i * 0.04)] None;
       v_filter := None;
       v_gain := [SetValue (f * 0.004)];
       v_tremolo := None;
       v_out := to_frequency i;
       v_start := now;
       v_stop := None |} in
  let volLfo :=
    {| v_source := Oscillator sine [SetValue (0.03 + INR i * 0.02)] None;
       v_filter := None;
       v_gain := [SetValue 0.1];
       v_tremolo := None;
       v_out := to_gain i;
       v_start := now;
       v_stop := None |} in
  Ok [volLfo; lfo].

(** [init(modeIndex)]; [sr] is the sample rate of the device, the new
    context starts at time 0. *)
Definition init (sr : nat) (modeIndex : Z) (a : t) (rng : nat)
  : Result (t * nat) :=
  let c := {| currentTime := 0; sampleRate := sr; state := running;
              started := [] |} in
  let now := currentTime c in
  let* freqs := deref (index MODE_FREQS modeIndex) in
  let* d0 := make_drone freqs now 0 in
  let* l0 := make_lfos freqs now 0 in
  let* d1 := make_drone freqs now 1 in
  let* l1 := make_lfos freqs now 1 in
  let* d2 := make_drone freqs now 2 in
  let* l2 := make_lfos freqs now 2 in
  let c := {| currentTime := currentTime c; sampleRate := sampleRate c;
              state := state c; started := l2 ++ l1 ++ l0 |} in
  let bufLen := (sr * 4)%nat in
  let noise :=
    {| v_source := BufferSource (noise_data rng bufLen) true;
       v_filter := Some (mkBiquad bandpass [SetValue 300] [SetValue 0.4]);
       v_gain := [SetValue 0.015];
       v_tremolo := None;
       v_out := to_master;
       v_start := now;
       v_stop := None |} in
  Ok ({| ctx := Some (start noise c);
         master := Some [SetValue 0.08];
         sfxGain := Some [SetValue 0.5];
         filter := Some (mkBiquad lowpass [SetValue 500] [SetValue 0.6]);
         drones := drones a ++ [d0; d1; d2];
         currentMode := currentMode a;
         _enabled := true |},
      (rng + bufLen)%nat).

(** [toggle()], with the value it returns. *)
Definition toggle (sr : nat) (a : t) (rng : nat)
  : Result (bool * t * nat) :=
  match ctx a with
  | None =>
      let* r := init sr (currentMode a) a rng in
      Ok (_enabled (fst r), fst r, snd r)
  | Some c =>
      let c := match state c with suspended => resume c | running => c end in
      let e := negb (_enabled a) in
      let tm := currentTime c + 0.5 in
      let* m := deref (master a) in
      let* g := deref (sfxGain a) in
      Ok (e,
          {| ctx := Some c;
             master := Some (m ++ [LinearRampToValueAtTime
                                     (if e then 0.08 else 0) tm]);
             sfxGain := Some (g ++ [LinearRampToValueAtTime
                                      (if e then 0.5 else 0) tm]);
             filter := filter a; drones := drones a;
             currentMode := currentMode a; _enabled := e |},
          rng)
  end.

(** [triggerSweep()]: the descending whoosh of a mode change. *)
Definition triggerSweep (a : t) (rng : nat) : Result (t * nat) :=
  match ctx a with
  | None => Ok (a, rng)
  | Some c =>
      let now := currentTime c in
      let bufLen := sampleRate c in
      let data := noise_data rng bufLen in
      let* sfx := deref (sfxGain a) in
      let v :=
        {| v_source := BufferSource data false;
           v_filter :=
             Some (mkBiquad bandpass
                     [SetValueAtTime 2500 now;
                      ExponentialRampToValueAtTime 150 (now + 0.6)]
                     [SetValue 4]);
           v_gain := [SetValueAtTime 0.04 now;
                      ExponentialRampToValueAtTime 0.0001 (now + 0.6)];
           v_tremolo := None;
           v_out := to_sfxGain;
           v_start := now;
           v_stop := Some (now + 0.7) |} in
      Ok (set_ctx (start v c) a, (rng + bufLen)%nat)
  end.

(** [this.drones.forEach((osc, i) => osc.frequency.linearRamp...(freqs[i], t))] *)
Fixpoint retune (freqs : option (list R)) (tm : R) (i : nat)
  (ds : list Voice) : Result (list Voice) :=
  match ds with
  | [] => Ok []
  | d :: rest =>
      let* fs := deref freqs in
      let* f := deref (fs !! i) in
      let* rest' := retune freqs tm (S i) rest in
      Ok (ramp_frequency f tm d :: rest')
  end.

(** [setMode(index)] *)
Definition setMode (idx : Z) (a : t) (rng : nat) : Result (t * nat) :=
  let a := set_currentMode idx a in
  match ctx a with
  | None => Ok (a, rng)
  | Some c =>
      if negb (_enabled a) then Ok (a, rng)
      else
        let freqs := index MODE_FREQS idx in
        let now := currentTime c in
        let* ds := retune freqs (now + 3) 0 (drones a) in
        triggerSweep (set_drones ds a) rng
  end.

(** [Math.floor(ctx.sampleRate * 0.35)], the product being the one of
    doubles: [0.35] is the double 0x1.6666666666666p-2, a little below 0.35,
    so that at 44100 Hz the product is 15434.999999999998 and the length
    15434. *)
Definition burstBufLen (sampleRate : nat) : nat :=
  Z.to_nat
    (Math_floor
       (PrimFloat.mul (double_of_Z (Z.of_nat sampleRate))
          0x1.6666666666666p-2%float)).

(** [triggerBurst()]: low thump and noise whoosh. *)
Definition triggerBurst (a : t) (rng : nat) : Result (t * nat) :=
  match ctx a with
  | None => Ok (a, rng)
  | Some c =>
      if negb (_enabled a) then Ok (a, rng)
      else
        let now := currentTime c in
        let thump :=
          {| v_source :=
               Oscillator sine
                 [SetValueAtTime (70 + random rng * 30) now;
                  ExponentialRampToValueAtTime 25 (now + 0.18)] None;
             v_filter := None;
             v_gain := [SetValueAtTime 0.12 now;
                        ExponentialRampToValueAtTime 0.0001 (now + 0.22)];
             v_tremolo := None;
             v_out := to_sfxGain;
             v_start := now;
             v_stop := Some (now + 0.25) |} in
        let* sfx := deref (sfxGain a) in
        let c := start thump c in
        let rng := S rng in
        let bufLen := burstBufLen (sampleRate c) in
        let noise :=
          {| v_source := BufferSource (noise_data rng bufLen) false;
             v_filter :=
               Some (mkBiquad lowpass
                       [SetValueAtTime 2500 now;
                        ExponentialRampToValueAtTime 150 (now + 0.25)]
                       []);
             v_gain := [SetValueAtTime 0.12 now;
                        ExponentialRampToValueAtTime 0.0001 (now + 0.3)];
             v_tremolo := None;
             v_out := to_sfxGain;
             v_start := now;
             v_stop := Some (now + 0.35) |} in
        Ok (set_ctx (start noise c) a, (rng + bufLen)%nat)
  end.

(** One note of [triggerColorChange]: [delay] is 0 or 0.06, [i] its rank. *)
Definition note (base now delay : R) (i : nat) : Voice :=
  let freq := base * (1 + INR i * 0.25) in
  {| v_source :=
       Oscillator sine
         [SetValueAtTime (freq * 0.9) (now + delay);
          LinearRampToValueAtTime freq (now + delay + 0.08)] None;
     v_filter := None;
     v_gain := [SetValueAtTime 0.1 (now + delay);
                ExponentialRampToValueAtTime 0.0001 (now + delay + 0.18)];
     v_tremolo := None;
     v_out := to_sfxGain;
     v_start := now + delay;
     v_stop := Some (now + delay + 0.2) |}.

(** [triggerColorChange()]: two quick rising notes. *)
Definition triggerColorChange (a : t) (rng : nat) : Result (t * nat) :=
  match ctx a with
  | None => Ok (a, rng)
  | Some c =>
      if negb (_enabled a) then Ok (a, rng)
      else
        let now := currentTime c in
        let base := 600 + random rng * 200 in
        let* sfx := deref (sfxGain a) in
        let c := start (note base now 0 0) c in
        let c := start (note base now 0.06 1) c in
        Ok (set_ctx c a, S rng)
  end.

End WithRandom.

End AmbientSound.

(** ** Modes ([main.ts]) *)

Definition BOUNDS : R := 40.
Definition DEFAULT_MODE : Z := 4.

Record Mode : Type := mkMode {
  name : string;
  desc : string;
  hueRange : R * R;
  satRange : R * R;
  lightRange : R * R;
  damping : R;
  mouseForce : R;
  drift : R;
  centerPull : R;
  equilibrium : R;
  swirl : R;
  sizeRange : R * R;
  bloom : R;
  depthRange : R
}.

Definition nebula : Mode :=
  {| name := "nebula"; desc := "gentle drift through deep space clouds";
     hueRange := (0.58, 0.82); satRange := (0.5, 1.0);
     lightRange := (0.3, 0.75);
     damping := 0.988; mouseForce := 12; drift := 0.02;
     centerPull := 0.0008; equilibrium := 12; swirl := 0.0;
     sizeRange := (0.4, 2.8); bloom := 1.5; depthRange := 25 |}.

Definition solar : Mode :=
  {| name := "solar"; desc := "the heart of a burning star";
     hueRange := (0.0, 0.1); satRange := (0.7, 1.0);
     lightRange := (0.45, 0.9);
     damping := 0.982; mouseForce := 18; drift := 0.04;
     centerPull := 0.002; equilibrium := 8; swirl := 0.0;
     sizeRange := (0.3, 3.5); bloom := 2.2; depthRange := 18 |}.

Definition aurora : Mode :=
  {| name := "aurora"; desc := "flowing curtains of light";
     hueRange := (0.28, 0.52); satRange := (0.6, 1.0);
     lightRange := (0.3, 0.7);
     damping := 0.993; mouseForce := 6; drift := 0.012;
     centerPull := 0.0004; equilibrium := 15; swirl := 0.002;
     sizeRange := (0.3, 2.2); bloom := 1.2; depthRange := 30 |}.

Definition vortex : Mode :=
  {| name := "vortex"; desc := "spiral into the infinite";
     hueRange := (0.0, 1.0); satRange := (0.8, 1.0);
     lightRange := (0.4, 0.7);
     damping := 0.984; mouseForce := 10; drift := 0.01;
     centerPull := 0.003; equilibrium := 10; swirl := 0.02;
     sizeRange := (0.2, 2.0); bloom := 1.8; depthRange := 12 |}.

Definition void : Mode :=
  {| name := "void"; desc := "silence between the stars";
     hueRange := (0.55, 0.68); satRange := (0.03, 0.15);
     lightRange := (0.5, 0.95);
     damping := 0.996; mouseForce := 4; drift := 0.005;
     centerPull := 0.0002; equilibrium := 18; swirl := 0.0;
     sizeRange := (0.15, 1.2); bloom := 2.8; depthRange := 40 |}.

Definition MODES : list Mode := [nebula; solar; aurora; vortex; void].

(** ** State: the module-level variables of [main.ts] *)

(** The calls [main.ts] makes to the methods of the sound engine.  The trace
    of these calls is kept in the state next to the engine: it is not a
    variable of the program, it records which cues were requested. *)
Inductive AudioCall : Type :=
| call_toggle
| call_setMode (idx : Z)
| call_triggerBurst
| call_triggerColorChange.

Record State : Type := mkState {
  currentMode : Z;
  targetMode : Z;
  modeBlend : R;
  mouseDown : bool;
  mouseActive : bool;
  repelling : bool;
  colorOverride : option R;          (* None = mode default, Some hue *)
  mouseWorld : R * R * R;
  positions : Float32Array;
  velocities : Float32Array;
  colors : Float32Array;
  sizes : Float32Array;
  alphas : Float32Array;
  targetColors : Float32Array;
  targetSizes : Float32Array;
  tmpColor : R * R * R;              (* r, g, b of the scratch colour *)
  bloomStrength : R;                 (* bloomPass.strength *)
  uiActiveMode : Z;                  (* the mode button marked active *)
  uiModeDesc : string;               (* modeDescEl.textContent *)
  soundDesired : bool;
  audio : AmbientSound.t;
  audioCalls : list AudioCall;       (* calls made to [audio], latest first *)
  rng : nat                          (* draws of Math.random() so far *)
}.

Definition set_blend (cur tgt : Z) (b : R) (s : State) : State :=
  {| currentMode := cur; targetMode := tgt; modeBlend := b;
     mouseDown := mouseDown s; mouseActive := mouseActive s;
     repelling := repelling s; colorOverride := colorOverride s;
     mouseWorld := mouseWorld s;
     positions := positions s; velocities := velocities s;
     colors := colors s; sizes := sizes s; alphas := alphas s;
     targetColors := targetColors s; targetSizes := targetSizes s;
     tmpColor := tmpColor s; bloomStrength := bloomStrength s;
     uiActiveMode := uiActiveMode s; uiModeDesc := uiModeDesc s;
     soundDesired := soundDesired s; audio := audio s;
     audioCalls := audioCalls s; rng := rng s |}.

Definition set_pointer (down active rep : bool) (w : R * R * R) (s : State)
  : State :=
  {| currentMode := currentMode s; targetMode := targetMode s;
     modeBlend := modeBlend s;
     mouseDown := down; mouseActive := active; repelling := rep;
     colorOverride := colorOverride s; mouseWorld := w;
     positions := positions s; velocities := velocities s;
     colors := colors s; sizes := sizes s; alphas := alphas s;
     targetColors := targetColors s; targetSizes := targetSizes s;
     tmpColor := tmpColor s; bloomStrength := bloomStrength s;
     uiActiveMode := uiActiveMode s; uiModeDesc := uiModeDesc s;
     soundDesired := soundDesired s; audio := audio s;
     audioCalls := audioCalls s; rng := rng s |}.

Definition set_colorOverride (o : option R) (s : State) : State :=
  {| currentMode := currentMode s; targetMode := targetMode s;
     modeBlend := modeBlend s;
     mouseDown := mouseDown s; mouseActive := mouseActive s;
     repelling := repelling s; colorOverride := o;
     mouseWorld := mouseWorld s;
     positions := positions s; velocities := velocities s;
     colors := colors s; sizes := sizes s; alphas := alphas s;
     targetColors := targetColors s; targetSizes := targetSizes s;
     tmpColor := tmpColor s; bloomStrength := bloomStrength s;
     uiActiveMode := uiActiveMode s; uiModeDesc := uiModeDesc s;
     soundDesired := soundDesired s; audio := audio s;
     audioCalls := audioCalls s; rng := rng s |}.

(** Positions, velocities and the draws their update consumed. *)
Definition set_motion (pos vel : Float32Array) (n : nat) (s : State) : State :=
  {| currentMode := currentMode s; targetMode := targetMode s;
     modeBlend := modeBlend s;
     mouseDown := mouseDown s; mouseActive := mouseActive s;
     repelling := repelling s; colorOverride := colorOverride s;
     mouseWorld := mouseWorld s;
     positions := pos; velocities := vel;
     colors := colors s; sizes := sizes s; alphas := alphas s;
     targetColors := targetColors s; targetSizes := targetSizes s;
     tmpColor := tmpColor s; bloomStrength := bloomStrength s;
     uiActiveMode := uiActiveMode s; uiModeDesc := uiModeDesc s;
     soundDesired := soundDesired s; audio := audio s;
     audioCalls := audioCalls s; rng := n |}.

Definition set_appearance (col siz : Float32Array) (s : State) : State :=
  {| currentMode := currentMode s; targetMode := targetMode s;
     modeBlend := modeBlend s;
     mouseDown := mouseDown s; mouseActive := mouseActive s;
     repelling := repelling s; colorOverride := colorOverride s;
     mouseWorld := mouseWorld s;
     positions := positions s; velocities := velocities s;
     colors := col; sizes := siz; alphas := alphas s;
     targetColors := targetColors s; targetSizes := targetSizes s;
     tmpColor := tmpColor s; bloomStrength := bloomStrength s;
     uiActiveMode := uiActiveMode s; uiModeDesc := uiModeDesc s;
     soundDesired := soundDesired s; audio := audio s;
     audioCalls := audioCalls s; rng := rng s |}.

Definition set_targets (tc ts : Float32Array) (tmp : R * R * R) (n : nat)
  (s : State) : State :=
  {| currentMode := currentMode s; targetMode := targetMode s;
     modeBlend := modeBlend s;
     mouseDown := mouseDown s; mouseActive := mouseActive s;
     repelling := repelling s; colorOverride := colorOverride s;
     mouseWorld := mouseWorld s;
     positions := positions s; velocities := velocities s;
     colors := colors s; sizes := sizes s; alphas := alphas s;
     targetColors := tc; targetSizes := ts;
     tmpColor := tmp; bloomStrength := bloomStrength s;
     uiActiveMode := uiActiveMode s; uiModeDesc := uiModeDesc s;
     soundDesired := soundDesired s; audio := audio s;
     audioCalls := audioCalls s; rng := n |}.

Definition set_bloomStrength (b : R) (s : State) : State :=
  {| currentMode := currentMode s; targetMode := targetMode s;
     modeBlend := modeBlend s;
     mouseDown := mouseDown s; mouseActive := mouseActive s;
     repelling := repelling s; colorOverride := colorOverride s;
     mouseWorld := mouseWorld s;
     positions := positions s; velocities := velocities s;
     colors := colors s; sizes := sizes s; alphas := alphas s;
     targetColors := targetColors s; targetSizes := targetSizes s;
     tmpColor := tmpColor s; bloomStrength := b;
     uiActiveMode := uiActiveMode s; uiModeDesc := uiModeDesc s;
     soundDesired := soundDesired s; audio := audio s;
     audioCalls := audioCalls s; rng := rng s |}.

Definition set_ui (i : Z) (d : string) (s : State) : State :=
  {| currentMode := currentMode s; targetMode := targetMode s;
     modeBlend := modeBlend s;
     mouseDown := mouseDown s; mouseActive := mouseActive s;
     repelling := repelling s; colorOverride := colorOverride s;
     mouseWorld := mouseWorld s;
     positions := positions s; velocities := velocities s;
     colors := colors s; sizes := sizes s; alphas := alphas s;
     targetColors := targetColors s; targetSizes := targetSizes s;
     tmpColor := tmpColor s; bloomStrength := bloomStrength s;
     uiActiveMode := i; uiModeDesc := d;
     soundDesired := soundDesired s; audio := audio s;
     audioCalls := audioCalls s; rng := rng s |}.

(** The sound engine after a call, with the draws the call consumed; the
    call joins the trace. *)
Definition set_audio (call : AudioCall) (an : AmbientSound.t * nat)
  (s : State) : State :=
  {| currentMode := currentMode s; targetMode := targetMode s;
     modeBlend := modeBlend s;
     mouseDown := mouseDown s; mouseActive := mouseActive s;
     repelling := repelling s; colorOverride := colorOverride s;
     mouseWorld := mouseWorld s;
     positions := positions s; velocities := velocities s;
     colors := colors s; sizes := sizes s; alphas := alphas s;
     targetColors := targetColors s; targetSizes := targetSizes s;
     tmpColor := tmpColor s; bloomStrength := bloomStrength s;
     uiActiveMode := uiActiveMode s; uiModeDesc := uiModeDesc s;
     soundDesired := soundDesired s; audio := fst an;
     audioCalls := call :: audioCalls s; rng := snd an |}.

Definition set_soundDesired (b : bool) (s : State) : State :=
  {| currentMode := currentMode s; targetMode := targetMode s;
     modeBlend := modeBlend s;
     mouseDown := mouseDown s; mouseActive := mouseActive s;
     repelling := repelling s; colorOverride := colorOverride s;
     mouseWorld := mouseWorld s;
     positions := positions s; velocities := velocities s;
     colors := colors s; sizes := sizes s; alphas := alphas s;
     targetColors := targetColors s; targetSizes := targetSizes s;
     tmpColor := tmpColor s; bloomStrength := bloomStrength s;
     uiActiveMode := uiActiveMode s; uiModeDesc := uiModeDesc s;
     soundDesired := b; audio := audio s;
     audioCalls := audioCalls s; rng := rng s |}.

(** ** Physics *)

Definition lerp (a b t : R) : R := a + (b - a) * t.

(** [getActiveMode()].  [MODES[currentMode]] or [MODES[targetMode]] may be
    [undefined]; the exception of its first use (in the lerp branch, or in the
    next statement of [updateParticles], the only caller) is raised here. *)
Definition getActiveMode (s : State) : Result Mode :=
  if Rgeb (modeBlend s) 1 then deref (index MODES (currentMode s))
  else
    let* a := deref (index MODES (currentMode s)) in
    let* b := deref (index MODES (targetMode s)) in
    let t := modeBlend s in
    Ok {| name := name b;
          desc := desc b;
          hueRange := hueRange b;
          satRange := satRange b;
          lightRange := lightRange b;
          sizeRange := sizeRange b;
          damping := lerp (damping a) (damping b) t;
          mouseForce := lerp (mouseForce a) (mouseForce b) t;
          drift := lerp (drift a) (drift b) t;
          centerPull := lerp (centerPull a) (centerPull b) t;
          equilibrium := lerp (equilibrium a) (equilibrium b) t;
          swirl := lerp (swirl a) (swirl b) t;
          bloom := lerp (bloom a) (bloom b) t;
          depthRange := lerp (depthRange a) (depthRange b) t |}.

(** The local variables [px py pz vx vy vz] of one iteration of the particle
    loop of [updateParticles]. *)
Record Particle : Type := mkParticle {
  px : R; py : R; pz : R;
  vx : R; vy : R; vz : R
}.

(** Center pull with equilibrium: attracts when far, repels when close. *)
Definition centerPullStep (m : Mode) (p : Particle) : Particle :=
  let eq := equilibrium m in
  let centerDist := sqrt (px p * px p + py p * py p + pz p * pz p) + 0.1 in
  let pullForce := centerPull m * (centerDist - eq) in
  {| px := px p; py := py p; pz := pz p;
     vx := vx p - (px p / centerDist) * pullForce;
     vy := vy p - (py p / centerDist) * pullForce;
     vz := vz p - (pz p / centerDist) * pullForce * 0.3 |}.

(** Mouse gravity, [mf] being the signed strength of the pointer. *)
Definition mouseStep (mf : R) (mw : R * R * R) (dt : R) (p : Particle)
  : Particle :=
  let '(mx, my, mz) := mw in
  if Reqb mf 0 then p
  else
    let dx := mx - px p in
    let dy := my - py p in
    let dz := mz - pz p in
    let distSq := dx * dx + dy * dy + dz * dz + 4 in
    let f := (mf * dt) / distSq in
    {| px := px p; py := py p; pz := pz p;
       vx := vx p + dx * f;
       vy := vy p + dy * f;
       vz := vz p + dz * f * 0.2 |}.

Definition swirlStep (m : Mode) (p : Particle) : Particle :=
  if Rgtb (swirl m) 0 then
    let dist := sqrt (px p * px p + pz p * pz p) + 0.5 in
    {| px := px p; py := py p; pz := pz p;
       vx := vx p + (- pz p / dist) * swirl m;
       vy := vy p;
       vz := vz p + (px p / dist) * swirl m |}
  else p.

(** Random drift; [r1 r2 r3] are the three draws of the iteration. *)
Definition driftStep (m : Mode) (r1 r2 r3 : R) (p : Particle) : Particle :=
  {| px := px p; py := py p; pz := pz p;
     vx := vx p + (r1 - 0.5) * drift m;
     vy := vy p + (r2 - 0.5) * drift m;
     vz := vz p + (r3 - 0.5) * drift m * 0.3 |}.

Definition dampStep (m : Mode) (p : Particle) : Particle :=
  {| px := px p; py := py p; pz := pz p;
     vx := vx p * damping m;
     vy := vy p * damping m;
     vz := vz p * damping m |}.

Definition integrateStep (dt : R) (p : Particle) : Particle :=
  {| px := px p + vx p * dt * 60;
     py := py p + vy p * dt * 60;
     pz := pz p + vz p * dt * 60;
     vx := vx p; vy := vy p; vz := vz p |}.

(** The two tests of the soft boundary on one axis, upper bound first:
    [if (x > lim) { x = lim; v *= -0.3 } if (x < -lim) { x = -lim; v *= -0.3 }] *)
Definition bounce (lim : R) (xv : R * R) : R * R :=
  let xv := if Rgtb (fst xv) lim then (lim, snd xv * -0.3) else xv in
  if Rltb (fst xv) (- lim) then (- lim, snd xv * -0.3) else xv.

Definition boundaryStep (m : Mode) (p : Particle) : Particle :=
  let x := bounce BOUNDS (px p, vx p) in
  let y := bounce BOUNDS (py p, vy p) in
  let z := bounce (depthRange m) (pz p, vz p) in
  {| px := fst x; py := fst y; pz := fst z;
     vx := snd x; vy := snd y; vz := snd z |}.

(** The body of the particle loop, from the values read to the values
    written back. *)
Definition particleStep (m : Mode) (mf : R) (mw : R * R * R) (dt : R)
  (r1 r2 r3 : R) (p : Particle) : Particle :=
  boundaryStep m
    (integrateStep dt
       (dampStep m
          (driftStep m r1 r2 r3
             (swirlStep m
                (mouseStep mf mw dt
                   (centerPullStep m p)))))).

(** [mf] of [updateParticles]. *)
Definition mouseStrength (m : Mode) (down active rep : bool) : R :=
  let forceDir := if rep then -2.0 else 1.0 in
  if down then mouseForce m * forceDir
  else if active then mouseForce m * 0.25
  else 0.

Definition readParticle (pos vel : Float32Array) (i : nat) : Particle :=
  let i3 := (i * 3)%nat in
  {| px := pos !!! i3; py := pos !!! (i3 + 1)%nat; pz := pos !!! (i3 + 2)%nat;
     vx := vel !!! i3; vy := vel !!! (i3 + 1)%nat; vz := vel !!! (i3 + 2)%nat |}.

(** [a[i3] = x; a[i3 + 1] = y; a[i3 + 2] = z] *)
Definition write3 (a : Float32Array) (i : nat) (x y z : R) : Float32Array :=
  let i3 := (i * 3)%nat in
  <[(i3 + 2)%nat := z]> (<[(i3 + 1)%nat := y]> (<[i3 := x]> a)).

(** The burst of one particle at lateral offset [dx, dy] from the click:
    whether it is hit, and the amounts added to its velocity for the draw [r]. *)
Definition burstHit (dx dy : R) : bool :=
  let radius := 12 in
  let radiusSq := radius * radius in
  Rltb (dx * dx + dy * dy) radiusSq.

Definition burstStrength (push : bool) (dx dy : R) : R :=
  let force := if push then -3 else 3 in
  let radius := 12 in
  let radiusSq := radius * radius in
  let distSq := dx * dx + dy * dy in
  (1 - distSq / radiusSq) * force.

Definition burstDelta (push : bool) (dx dy r : R) : R * R * R :=
  let distSq := dx * dx + dy * dy in
  let strength := burstStrength push dx dy in
  let dist := sqrt distSq + 0.5 in
  ((dx / dist) * strength,
   (dy / dist) * strength,
   (r - 0.5) * Rabs strength * 0.3).

(** [colorOverride === null ? m.hueRange : [h - 0.06, h + 0.06]] *)
Definition getHueRange (override : option R) (m : Mode) : R * R :=
  match override with
  | None => hueRange m
  | Some h => (h - 0.06, h + 0.06)
  end.

(** Saturation is boosted under an override, so that custom colours are
    visible even on desaturated modes like void. *)
Definition getSatRange (override : option R) (m : Mode) : R * R :=
  match override with
  | None => satRange m
  | Some _ => (Rmax (fst (satRange m)) 0.5, Rmax (snd (satRange m)) 0.9)
  end.

(** [lo + Math.random() * (hi - lo)] for the draw [r]. *)
Definition sample (range : R * R) (r : R) : R :=
  fst range + r * (snd range - fst range).

(** The hue, saturation and lightness [precomputeTargets] and
    [randomizeParticle] pass to [setHSL], for the draws [r1 r2 r3]. *)
Definition sampleHSL (override : option R) (m : Mode) (r1 r2 r3 : R)
  : R * R * R :=
  let hr := getHueRange override m in
  let sr := getSatRange override m in
  (sample hr r1, sample sr r2, sample (lightRange m) r3).

(** [Math.pow(x, y)] for [0 <= x]: [Rpower] is the power on positive bases. *)
Definition Math_pow (x y : R) : R :=
  if Reqb x 0 then 0 else Rpower x y.

Section Cosmos.

(** [Math.random()]: the k-th draw of the run. *)
Variable random : nat -> R.

(** The number of particles (30 000 or 75 000, by the device). *)
Variable COUNT : nat.

(** [THREE.Color.setHSL(h, s, l)] followed by the reading of [r, g, b]. *)
Variable setHSL : R -> R -> R -> R * R * R.

(** The sample rate of the audio device. *)
Variable deviceSampleRate : nat.

(** The rounding of doubles, where the model keeps it: the sum that
    accumulates the blend fraction. *)
Variable binary64 : Rounding.

(** *** Initialisation *)

(** [randomizeParticle(i, m, scatter)] *)
Definition randomizeParticle (i : nat) (m : Mode) (scatter : R) (s : State)
  : State :=
  let n := rng s in
  let theta := random n * PI * 2 in
  let phi := acos (2 * random (n + 1) - 1) in
  let r := Math_pow (random (n + 2)) 0.6 * BOUNDS * scatter in
  let pos :=
    write3 (positions s) i
      (r * sin phi * cos theta)
      (r * sin phi * sin theta)
      ((random (n + 3) - 0.5) * depthRange m * 2) in
  let vel :=
    write3 (velocities s) i
      ((random (n + 4) - 0.5) * 0.3)
      ((random (n + 5) - 0.5) * 0.3)
      ((random (n + 6) - 0.5) * 0.1) in
  let '(hue, sat, light) :=
    sampleHSL (colorOverride s) m
      (random (n + 7)) (random (n + 8)) (random (n + 9)) in
  let tmp := setHSL hue sat light in
  {| currentMode := currentMode s; targetMode := targetMode s;
     modeBlend := modeBlend s;
     mouseDown := mouseDown s; mouseActive := mouseActive s;
     repelling := repelling s; colorOverride := colorOverride s;
     mouseWorld := mouseWorld s;
     positions := pos; velocities := vel;
     colors := write3 (colors s) i (fst (fst tmp)) (snd (fst tmp)) (snd tmp);
     sizes := <[i := sample (sizeRange m) (random (n + 10))]> (sizes s);
     alphas := <[i := 0.25 + random (n + 11) * 0.75]> (alphas s);
     targetColors := targetColors s; targetSizes := targetSizes s;
     tmpColor := tmp; bloomStrength := bloomStrength s;
     uiActiveMode := uiActiveMode s; uiModeDesc := uiModeDesc s;
     soundDesired := soundDesired s; audio := audio s;
     audioCalls := audioCalls s;
     rng := (n + 12)%nat |}.

(** The variables as their declarations leave them. *)
Definition declared : State :=
  {| currentMode := DEFAULT_MODE; targetMode := DEFAULT_MODE;
     modeBlend := 1.0;
     mouseDown := false; mouseActive := false; repelling := false;
     colorOverride := None;
     mouseWorld := (0, 0, 0);
     positions := new_Float32Array (COUNT * 3);
     velocities := new_Float32Array (COUNT * 3);
     colors := new_Float32Array (COUNT * 3);
     sizes := new_Float32Array COUNT;
     alphas := new_Float32Array COUNT;
     targetColors := new_Float32Array (COUNT * 3);
     targetSizes := new_Float32Array COUNT;
     tmpColor := (1, 1, 1);
     bloomStrength := bloom void;
     uiActiveMode := DEFAULT_MODE; uiModeDesc := desc void;
     soundDesired := true;
     audio := AmbientSound.new;
     audioCalls := [];
     rng := 0 |}.

(** [for (i < COUNT) randomizeParticle(i, MODES[DEFAULT_MODE])] *)
Definition initial : State :=
  for_loop COUNT (fun i s => randomizeParticle i void 1.0 s) declared.

(** *** Transition targets *)

(** One iteration of the loop of [precomputeTargets], on the target
    buffers, the scratch colour and the number of draws. *)
Definition targetBody (override : option R) (m : Mode) (i : nat)
  (st : Float32Array * Float32Array * (R * R * R) * nat)
  : Float32Array * Float32Array * (R * R * R) * nat :=
  let '(tc, ts, _, n) := st in
  let '(hue, sat, light) :=
    sampleHSL override m (random n) (random (n + 1)) (random (n + 2)) in
  let tmp := setHSL hue sat light in
  (write3 tc i (fst (fst tmp)) (snd (fst tmp)) (snd tmp),
   <[i := sample (sizeRange m) (random (n + 3))]> ts,
   tmp,
   (n + 4)%nat).

Definition precomputeTargets (m : Mode) (s : State) : State :=
  let '(tc, ts, tmp, n) :=
    for_loop COUNT (targetBody (colorOverride s) m)
      (targetColors s, targetSizes s, tmpColor s, rng s) in
  set_targets tc ts tmp n s.

(** *** UI wiring *)

Definition updateModeUI (idx : Z) (s : State) : Result State :=
  let* m := deref (index MODES idx) in
  Ok (set_ui idx (desc m) s).

Definition setMode (idx : Z) (s : State) : Result State :=
  if ((idx <? 0) || (idx >=? Z.of_nat (length MODES)))%Z then Ok s
  else if (idx =? currentMode s)%Z && Rgeb (modeBlend s) 1 then Ok s
  else
    let s := set_blend (currentMode s) idx 0 s in
    let* m := deref (index MODES idx) in
    let s := precomputeTargets m s in
    let* s := updateModeUI idx s in
    let* an := AmbientSound.setMode random idx (audio s) (rng s) in
    Ok (set_audio (call_setMode idx) an s).

(** *** Colour picker *)

Definition triggerColorTransition (s : State) : Result State :=
  let* m := deref (index MODES (if Rgeb (modeBlend s) 1
                                then currentMode s else targetMode s)) in
  let s := precomputeTargets m s in
  let s := if Rgeb (modeBlend s) 1
           then set_blend (currentMode s) (currentMode s) 0.5 s
           else s in
  let* an := AmbientSound.triggerColorChange random (audio s) (rng s) in
  Ok (set_audio call_triggerColorChange an s).

(** A swatch click or a custom colour: the override is stored, then the
    targets are recomputed. *)
Definition pickColor (o : option R) (s : State) : Result State :=
  triggerColorTransition (set_colorOverride o s).

(** *** Sound toggle *)

Definition ensureAudio (s : State) : Result State :=
  if negb (AmbientSound.enabled (audio s)) && soundDesired s then
    let* r := AmbientSound.toggle random deviceSampleRate (audio s) (rng s) in
    Ok (set_audio call_toggle (snd (fst r), snd r) s)
  else Ok s.

Definition soundToggleClick (s : State) : Result State :=
  if negb (AmbientSound.enabled (audio s)) && soundDesired s then
    Ok (set_soundDesired false s)
  else if negb (AmbientSound.enabled (audio s)) && negb (soundDesired s) then
    let* r := AmbientSound.toggle random deviceSampleRate (audio s) (rng s) in
    Ok (set_soundDesired true (set_audio call_toggle (snd (fst r), snd r) s))
  else
    let* r := AmbientSound.toggle random deviceSampleRate (audio s) (rng s) in
    Ok (set_soundDesired (fst (fst r)) (set_audio call_toggle (snd (fst r), snd r) s)).

(** *** The particle update *)

(** One iteration of the particle loop, on the two buffers and the number
    of draws. *)
Definition particleBody (m : Mode) (mf : R) (mw : R * R * R) (dt : R)
  (i : nat) (st : Float32Array * Float32Array * nat)
  : Float32Array * Float32Array * nat :=
  let '(pos, vel, n) := st in
  let p := particleStep m mf mw dt
             (random n) (random (n + 1)) (random (n + 2))
             (readParticle pos vel i) in
  (write3 pos i (px p) (py p) (pz p),
   write3 vel i (vx p) (vy p) (vz p),
   (n + 3)%nat).

(** [for (i < n) a[i] += (target[i] - a[i]) * rate] *)
Definition converge (n : nat) (rate : R) (target a : Float32Array)
  : Float32Array :=
  for_loop n (fun i a => <[i := a !!! i + (target !!! i - a !!! i) * rate]> a) a.

(** [Math.min(modeBlend + dt * 0.5, 1)], the product and the sum rounded:
    the fraction is accumulated tick after tick, and the tick on which it
    reaches 1 depends on the rounding. *)
Definition nextBlend (dt blend : R) : R :=
  Rmin (binary64 (blend + binary64 (dt * 0.5))) 1.

(** Smooth colour and size transition, the second half of
    [updateParticles]. *)
Definition blendStep (dt : R) (s : State) : State :=
  if Rltb (modeBlend s) 1 then
    let blend := nextBlend dt (modeBlend s) in
    let cur := if Rgeb blend 1 then targetMode s else currentMode s in
    let rate := dt * 2.5 in
    set_appearance
      (converge (COUNT * 3) rate (targetColors s) (colors s))
      (converge COUNT rate (targetSizes s) (sizes s))
      (set_blend cur (targetMode s) blend s)
  else s.

Definition updateParticles (dt : R) (s : State) : Result State :=
  let* m := getActiveMode s in
  let s := set_bloomStrength (bloom m) s in
  let mf := mouseStrength m (mouseDown s) (mouseActive s) (repelling s) in
  let '(pos, vel, n) :=
    for_loop COUNT (particleBody m mf (mouseWorld s) dt)
      (positions s, velocities s, rng s) in
  Ok (blendStep dt (set_motion pos vel n s)).

(** [animate()], [elapsed] milliseconds after the previous frame. *)
Definition animate (elapsed : R) (s : State) : Result State :=
  let dt := Rmin (elapsed / 1000) 0.05 in
  updateParticles dt s.

(** *** Click burst *)

Definition burstBody (pos : Float32Array) (wx wy : R) (push : bool)
  (i : nat) (st : Float32Array * nat) : Float32Array * nat :=
  let '(vel, n) := st in
  let i3 := (i * 3)%nat in
  let dx := pos !!! i3 - wx in
  let dy := pos !!! (i3 + 1)%nat - wy in
  if burstHit dx dy then
    let '(ax, ay, az) := burstDelta push dx dy (random n) in
    (write3 vel i
       (vel !!! i3 + ax) (vel !!! (i3 + 1)%nat + ay)
       (vel !!! (i3 + 2)%nat + az),
     S n)
  else (vel, n).

Definition burstAt (wx wy : R) (push : bool) (s : State) : Result State :=
  let '(vel, n) :=
    for_loop COUNT (burstBody (positions s) wx wy push)
      (velocities s, rng s) in
  let s := set_motion (positions s) vel n s in
  let* an := AmbientSound.triggerBurst random (audio s) (rng s) in
  Ok (set_audio call_triggerBurst an s).

(** *** Event listeners *)

Inductive Key : Type :=
| key_Shift
| key_digit (n : Z)      (* a key [parseInt] reads as the integer [n] *)
| key_other.

(** What the host delivers: frames, clicks, pointer and key events.  World
    positions are those the raycaster computed for the pointer. *)
Inductive Event : Type :=
| ev_frame (elapsed : R)
| ev_modeButton (idx : Z)
| ev_swatch (o : option R)
| ev_soundToggle
| ev_mousemove (w : R * R * R)
| ev_mouseenter
| ev_mouseleave
| ev_mousedown (repel : bool)    (* right button or shift key held *)
| ev_mouseup
| ev_touchstart (w : R * R * R)
| ev_touchmove (w : R * R * R)
| ev_touchend
| ev_keydown (k : Key)
| ev_keyup (k : Key).

Definition handle (e : Event) (s : State) : Result State :=
  match e with
  | ev_frame elapsed => animate elapsed s
  | ev_modeButton idx => setMode idx s
  | ev_swatch o => pickColor o s
  | ev_soundToggle => soundToggleClick s
  | ev_mousemove w =>
      Ok (set_pointer (mouseDown s) true (repelling s) w s)
  | ev_mouseenter =>
      Ok (set_pointer (mouseDown s) true (repelling s) (mouseWorld s) s)
  | ev_mouseleave =>
      Ok (set_pointer (mouseDown s) false (repelling s) (mouseWorld s) s)
  | ev_mousedown repel =>
      let* s := ensureAudio s in
      let s := set_pointer true (mouseActive s)
                 (if repel then true else repelling s) (mouseWorld s) s in
      if mouseActive s then
        burstAt (fst (fst (mouseWorld s))) (snd (fst (mouseWorld s)))
          (repelling s) s
      else Ok s
  | ev_mouseup =>
      Ok (set_pointer false (mouseActive s) false (mouseWorld s) s)
  | ev_touchstart w =>
      let* s := ensureAudio s in
      let s := set_pointer true true (repelling s) w s in
      burstAt (fst (fst w)) (snd (fst w)) false s
  | ev_touchmove w =>
      Ok (set_pointer (mouseDown s) (mouseActive s) (repelling s) w s)
  | ev_touchend =>
      Ok (set_pointer false false (repelling s) (mouseWorld s) s)
  | ev_keydown k =>
      let s := match k with
               | key_Shift =>
                   set_pointer (mouseDown s) (mouseActive s) true
                     (mouseWorld s) s
               | _ => s
               end in
      match k with
      | key_digit n =>
          if ((n >=? 1) && (n <=? Z.of_nat (length MODES)))%Z
          then setMode (n - 1) s else Ok s
      | _ => Ok s
      end
  | ev_keyup k =>
      match k with
      | key_Shift =>
          Ok (set_pointer (mouseDown s) (mouseActive s) false
                (mouseWorld s) s)
      | _ => Ok s
      end
  end.

(** The events of a run, in order, from the state [s]. *)
Fixpoint run (es : list Event) (s : State) : Result State :=
  match es with
  | [] => Ok s
  | e :: es' => let* s' := handle e s in run es' s'
  end.

(** *** Well-formed states *)

(** The sound engine: once the graph is built its buses exist and it has
    its three drones. *)
Definition valid_mode (i : Z) : Prop := (0 <= i < Z.of_nat (length MODES))%Z.

Definition wf_audio (a : AmbientSound.t) : Prop :=
  valid_mode (AmbientSound.currentMode a) /\
  match AmbientSound.ctx a with
  | None => AmbientSound.drones a = [] /\ AmbientSound._enabled a = false
  | Some _ =>
      is_Some (AmbientSound.master a) /\
      is_Some (AmbientSound.sfxGain a) /\
      length (AmbientSound.drones a) = 3%nat
  end.

(** The buffers keep their lengths, the mode indices are those of modes, the
    blend fraction is in [0, 1]. *)
Record wf_State (s : State) : Prop := mk_wf {
  wf_positions : length (positions s) = (COUNT * 3)%nat;
  wf_velocities : length (velocities s) = (COUNT * 3)%nat;
  wf_colors : length (colors s) = (COUNT * 3)%nat;
  wf_sizes : length (sizes s) = COUNT;
  wf_alphas : length (alphas s) = COUNT;
  wf_targetColors : length (targetColors s) = (COUNT * 3)%nat;
  wf_targetSizes : length (targetSizes s) = COUNT;
  wf_currentMode : valid_mode (currentMode s);
  wf_targetMode : valid_mode (targetMode s);
  wf_modeBlend : 0 <= modeBlend s <= 1;
  wf_engine : wf_audio (audio s)
}.

(** Frames never run backwards: the elapsed time of a frame is not negative. *)
Definition timely (e : Event) : Prop :=
  match e with
  | ev_frame elapsed => 0 <= elapsed
  | _ => True
  end.

(** The particle [i] of a state. *)
Definition particle (s : State) (i : nat) : Particle :=
  readParticle (positions s) (velocities s) i.

(** Position within the lateral bounds and the depth bound [d]. *)
Definition inBounds (d : R) (p : Particle) : Prop :=
  - BOUNDS <= px p <= BOUNDS /\
  - BOUNDS <= py p <= BOUNDS /\
  - d <= pz p <= d.

(** [Math.sqrt(vx*vx + vy*vy + vz*vz)], the magnitude of the velocity. *)
Definition speed (p : Particle) : R :=
  sqrt (vx p * vx p + vy p * vy p + vz p * vz p).

(** The three cells of the particle [i] in a buffer of triples. *)
Definition read3 (a : Float32Array) (i : nat) : R * R * R :=
  (a !!! (i * 3)%nat, a !!! (i * 3 + 1)%nat, a !!! (i * 3 + 2)%nat).

(** The hue, saturation and lightness sampled for the particle [i] by a
    run of [precomputeTargets] that starts at the draw [c]. *)
Definition sampledHSL (override : option R) (m : Mode) (c i : nat)
  : R * R * R :=
  sampleHSL override m
    (random (c + 4 * i)) (random (c + 4 * i + 1)) (random (c + 4 * i + 2)).

(** The size sampled for the particle [i] by the same run. *)
Definition sampledSize (m : Mode) (c i : nat) : R :=
  sample (sizeRange m) (random (c + 4 * i + 3)).

(** The colour [setHSL] makes of a hue, a saturation and a lightness. *)
Definition colorOfHSL (hsl : R * R * R) : R * R * R :=
  let '(hue, sat, light) := hsl in setHSL hue sat light.

(** The test of [burstAt] on the particle [i], and the number of particles
    below [n] that pass it (each of them takes one draw). *)
Definition burstHitAt (pos : Float32Array) (wx wy : R) (i : nat) : bool :=
  burstHit (pos !!! (i * 3)%nat - wx) (pos !!! (i * 3 + 1)%nat - wy).

Fixpoint hitsBefore (pos : Float32Array) (wx wy : R) (n : nat) : nat :=
  match n with
  | O => O
  | S k => (hitsBefore pos wx wy k
            + if burstHitAt pos wx wy k then 1 else 0)%nat
  end.

(** Sum of two triples. *)
Definition add3 (a b : R * R * R) : R * R * R :=
  (fst (fst a) + fst (fst b), snd (fst a) + snd (fst b), snd a + snd b).

(** [Math.sqrt(px*px + py*py + pz*pz)], the distance from the origin. *)
Definition distanceFromOrigin (p : Particle) : R :=
  sqrt (px p * px p + py p * py p + pz p * pz p).

(** The centre-pull scenario: one particle at (30, 0, 0), at rest, stepped
    once in mode void with dt = 1/60, the pointer neither pressed nor over
    the canvas, and the three draws equal to 0.5 so that the drift is 0. *)
Definition scenarioParticle : Particle :=
  {| px := 30; py := 0; pz := 0; vx := 0; vy := 0; vz := 0 |}.

Definition scenarioStep (mw : R * R * R) : Particle :=
  particleStep void (mouseStrength void false false false) mw (1 / 60)
    0.5 0.5 0.5 scenarioParticle.

(** The scenario as the specification words it: the x velocity is negative,
    of magnitude about 0.00008 (here: at least within 0.00008 of it, which
    is generous), and the distance from the origin is below 30. *)
Definition scenarioAsStated (p : Particle) : Prop :=
  vx p < 0 /\
  Rabs (Rabs (vx p) - 0.0002 * (30 - 18) / 30) <= 0.00008 /\
  distanceFromOrigin p < 30.

(** [n] calls of [updateParticles] with the same [dt], nothing in between. *)
Fixpoint ticks (n : nat) (dt : R) (s : State) : Result State :=
  match n with
  | O => Ok s
  | S k => let* s' := ticks k dt s in updateParticles dt s'
  end.


(** *** The blend fraction in binary64

    The lines of [updateParticles] that advance the blend, evaluated on
    doubles as the program evaluates them. *)

(** [Math.min(x, y)] on doubles: NaN when either is NaN, and -0 below +0. *)
Definition Math_min (x y : float) : float :=
  if (PrimFloat.is_nan x || PrimFloat.is_nan y)%bool then PrimFloat.nan
  else if PrimFloat.ltb x y then x
  else if PrimFloat.ltb y x then y
  else match PrimFloat.classify x with NZero => x | _ => y end.

(** One tick on [modeBlend], [currentMode] and [targetMode]:
    [if (modeBlend < 1) { modeBlend = Math.min(modeBlend + dt * 0.5, 1);
    if (modeBlend >= 1) currentMode = targetMode; }] *)
Definition blendTick64 (dt : float) (st : float * Z * Z) : float * Z * Z :=
  let '(modeBlend, currentMode, targetMode) := st in
  if PrimFloat.ltb modeBlend 1 then
    let modeBlend :=
      Math_min (PrimFloat.add modeBlend (PrimFloat.mul dt 0.5)) 1 in
    (modeBlend,
     if PrimFloat.leb 1 modeBlend then targetMode else currentMode,
     targetMode)
  else st.

Definition blendTicks64 (n : nat) (dt : float) (st : float * Z * Z)
  : float * Z * Z :=
  for_loop n (fun _ => blendTick64 dt) st.

(** What one tick hands to the step of a particle besides the mode: the
    pointer flags and position, [dt] and the three draws. *)
Record StepInput : Type := mkStepInput {
  in_down : bool; in_active : bool; in_rep : bool;
  in_mouse : R * R * R;
  in_dt : R;
  in_r1 : R; in_r2 : R; in_r3 : R
}.

Definition stepWith (m : Mode) (x : StepInput) (p : Particle) : Particle :=
  particleStep m (mouseStrength m (in_down x) (in_active x) (in_rep x))
    (in_mouse x) (in_dt x) (in_r1 x) (in_r2 x) (in_r3 x) p.

(** The particle after [n] ticks in the mode [m], the tick [k] having the
    inputs [xs k]. *)
Fixpoint stepsWith (m : Mode) (xs : nat -> StepInput) (n : nat)
  (p : Particle) : Particle :=
  match n with
  | O => p
  | S k => stepWith m (xs k) (stepsWith m xs k p)
  end.

(** A mode without forces: no pointer force, drift, swirl or centre pull,
    and a damping factor below 1. *)
Definition forceless (m : Mode) : Prop :=
  mouseForce m = 0 /\ drift m = 0 /\ swirl m = 0 /\ centerPull m = 0 /\
  0 <= damping m < 1.

(** What the soft boundary makes, on one axis, of the position [x1] and the
    velocity [v1] that reach it: beyond a limit the position is put on the
    limit and the velocity reversed and cut to 0.3 of it; within the limits
    both are kept. *)
Definition softBoundary (lim x1 v1 x' v' : R) : Prop :=
  (x1 > lim -> x' = lim /\ v' = v1 * -0.3) /\
  (x1 < - lim -> x' = - lim /\ v' = v1 * -0.3) /\
  (- lim <= x1 <= lim -> x' = x1 /\ v' = v1).

(** A colour made by [setHSL] of a hue within 0.06 of [h] and a saturation
    of at least 0.5.  ([setHSL] takes the hue modulo 1.) *)
Definition overrideTarget (h : R) (rgb : R * R * R) : Prop :=
  exists hue sat light,
    rgb = setHSL hue sat light /\
    h - 0.06 <= hue <= h + 0.06 /\
    sat >= 0.5.

(** *** The camera ([main.ts]: wheel, double click and the orbit of [animate]) *)

Definition CAMERA_Z : R := 60.

(** [camera.position] and [cameraAngle]. *)
Record Camera : Type := mkCamera {
  cam_x : R; cam_y : R; cam_z : R;
  cameraAngle : R
}.

(** [camera.position.set(0, 0, CAMERA_Z)] and [let cameraAngle = 0]. *)
Definition cameraStart : Camera :=
  {| cam_x := 0; cam_y := 0; cam_z := CAMERA_Z; cameraAngle := 0 |}.

(** Scroll zoom: [z = Math.max(20, Math.min(120, z + e.deltaY * 0.05))]. *)
Definition wheel (deltaY : R) (c : Camera) : Camera :=
  {| cam_x := cam_x c; cam_y := cam_y c;
     cam_z := Rmax 20 (Rmin 120 (cam_z c + deltaY * 0.05));
     cameraAngle := cameraAngle c |}.

(** Double-click reset. *)
Definition dblclick (c : Camera) : Camera :=
  {| cam_x := cam_x c; cam_y := cam_y c; cam_z := CAMERA_Z;
     cameraAngle := cameraAngle c |}.

(** The camera lines of [animate()], [elapsed] milliseconds after the
    previous frame. *)
Definition orbit (elapsed : R) (c : Camera) : Camera :=
  let dt := Rmin (elapsed / 1000) 0.05 in
  let angle := cameraAngle c + dt * 0.04 in
  {| cam_x := sin angle * 3;
     cam_y := cos (angle * 0.7) * 2;
     cam_z := cam_z c;
     cameraAngle := angle |}.

Inductive CameraEvent : Type :=
| cam_wheel (deltaY : R)
| cam_dblclick
| cam_frame (elapsed : R).

Definition moveCamera (e : CameraEvent) (c : Camera) : Camera :=
  match e with
  | cam_wheel deltaY => wheel deltaY c
  | cam_dblclick => dblclick c
  | cam_frame elapsed => orbit elapsed c
  end.

(** The camera after the events [es], in order. *)
Definition runCamera (es : list CameraEvent) (c : Camera) : Camera :=
  fold_left (fun c e => moveCamera e c) es c.

(** *** Notions used by the further properties *)

(** An event that is not a frame. *)
Definition isFrame (e : Event) : bool :=
  match e with ev_frame _ => true | _ => false end.

(** An event that presses the pointer (the only events that call [burstAt]). *)
Definition isPress (e : Event) : bool :=
  match e with ev_mousedown _ | ev_touchstart _ => true | _ => false end.

(** The most one step can add to the magnitude of a velocity component
    before damping: centre pull, pointer gravity, swirl and drift. *)
Definition kick (m : Mode) (mf dt : R) (p : Particle) : R :=
  centerPull m * Rabs (distanceFromOrigin p + 0.1 - equilibrium m)
  + Rabs mf * dt / 4
  + Rmax (swirl m) 0
  + drift m / 2.

(** A voice of a cue started at the time [now]: it goes to the SFX bus,
    starts at [now] or later and stops within 0.7 s of [now]. *)
Definition oneShot (now : R) (v : AmbientSound.Voice) : Prop :=
  AmbientSound.v_out v = AmbientSound.to_sfxGain /\
  now <= AmbientSound.v_start v /\
  exists t, AmbientSound.v_stop v = Some t /\
            AmbientSound.v_start v < t <= now + 0.7.

(** The frequency automation of a voice, empty for a buffer source. *)
Definition voiceFrequency (v : AmbientSound.Voice)
  : AmbientSound.AudioParam :=
  match AmbientSound.v_source v with
  | AmbientSound.Oscillator _ f _ => f
  | AmbientSound.BufferSource _ _ => []
  end.

(** Two states with the same particle buffers, velocities apart. *)
Definition sameScene (s s' : State) : Prop :=
  positions s' = positions s /\ colors s' = colors s /\
  sizes s' = sizes s /\ alphas s' = alphas s.

(** A number within a range [lo, hi]. *)
Definition within (range : R * R) (x : R) : Prop :=
  fst range <= x <= snd range.

(** The click on the sound toggle. *)
Definition isSoundToggle (e : Event) : bool :=
  match e with ev_soundToggle => true | _ => false end.

(** The camera within its zoom limits and the box of its orbit. *)
Definition cameraInRange (c : Camera) : Prop :=
  20 <= cam_z c <= 120 /\ -3 <= cam_x c <= 3 /\ -2 <= cam_y c <= 2.

(** The sound button shows what the engine does: once the audio graph is
    built the sound is wanted exactly when the engine is enabled, and an
    engine without a graph is not enabled. *)
Definition soundAgrees (s : State) : Prop :=
  match AmbientSound.ctx (audio s) with
  | None => AmbientSound._enabled (audio s) = false
  | Some _ => soundDesired s = AmbientSound._enabled (audio s)
  end.

(** Two engines with the same switch: both built or both not, both enabled
    or both not. *)
Definition sameSwitch (a a' : AmbientSound.t) : Prop :=
  AmbientSound._enabled a' = AmbientSound._enabled a /\
  (AmbientSound.ctx a' = None <-> AmbientSound.ctx a = None).

(** *** Sample data, for the instances at the end *)

(** Draws that are all 0.5, and a stand-in for [setHSL] that keeps the three
    numbers it is given. *)
Definition evenDraws : nat -> R := fun _ => 0.5.

Definition plainHSL (h s l : R) : R * R * R := (h, s, l).

(** The rounding that rounds nothing: the exact arithmetic. *)
Definition exactRounding : Rounding :=
  {| rounded := fun x => x;
     rounded_mono := fun x y H => H;
     rounded_idem := fun x => eq_refl;
     rounded_0 := eq_refl;
     rounded_1 := eq_refl |}.

(** A mode without forces, and a particle moving along x. *)
Definition still : Mode :=
  {| name := "still"; desc := "no force at all";
     hueRange := (0.55, 0.68); satRange := (0.03, 0.15);
     lightRange := (0.5, 0.95);
     damping := 0.99; mouseForce := 0; drift := 0;
     centerPull := 0; equilibrium := 18; swirl := 0;
     sizeRange := (0.15, 1.2); bloom := 2.8; depthRange := 40 |}.

Definition moving : Particle :=
  {| px := 0; py := 0; pz := 0; vx := 1; vy := 0; vz := 0 |}.

Definition idle : StepInput :=
  {| in_down := false; in_active := false; in_rep := false;
     in_mouse := (0, 0, 0); in_dt := 1 / 60;
     in_r1 := 0.5; in_r2 := 0.5; in_r3 := 0.5 |}.

(** A state with one particle, at (3, 4, 30) and at rest, settled on void,
    with a transition to vortex just requested and the hue 0.5 chosen; the
    sound engine has not been started. *)
Definition sampleState : State :=
  {| currentMode := 4; targetMode := 3; modeBlend := 0;
     mouseDown := false; mouseActive := false; repelling := false;
     colorOverride := Some 0.5;
     mouseWorld := (0, 0, 0);
     positions := [3; 4; 30]; velocities := [0; 0; 0];
     colors := [1; 1; 1]; sizes := [1]; alphas := [1];
     targetColors := [1; 1; 1]; targetSizes := [1];
     tmpColor := (1, 1, 1); bloomStrength := 2.8;
     uiActiveMode := 3; uiModeDesc := desc vortex;
     soundDesired := true;
     audio := AmbientSound.new; audioCalls := [];
     rng := 0 |}.

(** The state above with its particle at the far wall of void, (0, 0, 40),
    at rest: settled on void (depth range 40), a transition to vortex (depth
    range 12) just requested. *)
Definition shrinkingState : State :=
  set_motion [0; 0; 40] [0; 0; 0] 0 sampleState.

(** Two particles, the second at (-5, 2, 1) and moving, in the state
    above. *)
Definition pairState : State :=
  set_motion [3; 4; 30; -5; 2; 1] [0; 0; 0; 0.1; 0; 0] 0
    {| currentMode := 4; targetMode := 3; modeBlend := 0;
       mouseDown := false; mouseActive := false; repelling := false;
       colorOverride := None;
       mouseWorld := (0, 0, 0);
       positions := []; velocities := [];
       colors := [1; 1; 1; 0; 0; 0]; sizes := [1; 2]; alphas := [1; 0.5];
       targetColors := [1; 1; 1; 0; 0; 0]; targetSizes := [1; 2];
       tmpColor := (1, 1, 1); bloomStrength := 2.8;
       uiActiveMode := 3; uiModeDesc := desc vortex;
       soundDesired := true;
       audio := AmbientSound.new; audioCalls := [];
       rng := 0 |}.

(** A sound engine that plays: its context two seconds old, at 180 samples a
    second, the drones of void. *)
Definition sampleContext : AmbientSound.AudioContext :=
  {| AmbientSound.currentTime := 2; AmbientSound.sampleRate := 180;
     AmbientSound.state := AmbientSound.running;
     AmbientSound.started := [] |}.

Definition sampleDrone (f : R) : AmbientSound.Voice :=
  {| AmbientSound.v_source :=
       AmbientSound.Oscillator AmbientSound.triangle
         [AmbientSound.SetValue f] None;
     AmbientSound.v_filter := None;
     AmbientSound.v_gain := [AmbientSound.SetValue 0.3];
     AmbientSound.v_tremolo := None;
     AmbientSound.v_out := AmbientSound.to_filter;
     AmbientSound.v_start := 0;
     AmbientSound.v_stop := None |}.

Definition playing : AmbientSound.t :=
  {| AmbientSound.ctx := Some sampleContext;
     AmbientSound.master := Some [AmbientSound.SetValue 0.08];
     AmbientSound.sfxGain := Some [AmbientSound.SetValue 0.5];
     AmbientSound.filter := None;
     AmbientSound.drones := [sampleDrone 55; sampleDrone 82.4;
                             sampleDrone 123.5];
     AmbientSound.currentMode := 4;
     AmbientSound._enabled := true |}.

(** ** Properties *)

(** *** Comparisons, loops and buffers *)

Lemma Rltb_true (x y : R) : Rltb x y = true <-> x < y.
Proof. unfold Rltb; destruct (Rlt_dec x y); split; intros; try easy. Qed.

Lemma Rgtb_true (x y : R) : Rgtb x y = true <-> x > y.
Proof. unfold Rgtb; destruct (Rgt_dec x y); split; intros; try easy. Qed.

Lemma Rgeb_true (x y : R) : Rgeb x y = true <-> x >= y.
Proof. unfold Rgeb; destruct (Rge_dec x y); split; intros; try easy. Qed.

Lemma Reqb_true (x y : R) : Reqb x y = true <-> x = y.
Proof. unfold Reqb; destruct (Req_dec_T x y); split; intros; try easy. Qed.

Lemma Rltb_false (x y : R) : Rltb x y = false <-> y <= x.
Proof.
  unfold Rltb; destruct (Rlt_dec x y); split; intros; try easy; lra.
Qed.

Lemma Rgeb_false (x y : R) : Rgeb x y = false <-> x < y.
Proof.
  unfold Rgeb; destruct (Rge_dec x y); split; intros; try easy; lra.
Qed.

Lemma write3_length (a : Float32Array) (i : nat) (x y z : R) :
  length (write3 a i x y z) = length a.
Proof. unfold write3. cbv zeta. now rewrite !length_insert. Qed.

Lemma write3_other (a : Float32Array) (i j k : nat) (x y z : R) :
  i <> j -> (k < 3)%nat ->
  write3 a i x y z !!! (j * 3 + k)%nat = a !!! (j * 3 + k)%nat.
Proof.
  intros Hij Hk. unfold write3. cbv zeta.
  rewrite !list_lookup_total_insert_ne by lia. reflexivity.
Qed.

Lemma write3_same (a : Float32Array) (i : nat) (x y z : R) :
  (i * 3 + 2 < length a)%nat ->
  write3 a i x y z !!! (i * 3)%nat = x /\
  write3 a i x y z !!! (i * 3 + 1)%nat = y /\
  write3 a i x y z !!! (i * 3 + 2)%nat = z.
Proof.
  intros Hi. unfold write3. cbv zeta. repeat split.
  - rewrite !list_lookup_total_insert_ne by lia.
    apply list_lookup_total_insert_eq. lia.
  - rewrite list_lookup_total_insert_ne by lia.
    apply list_lookup_total_insert_eq. rewrite length_insert. lia.
  - apply list_lookup_total_insert_eq. rewrite !length_insert. lia.
Qed.

Lemma readParticle_write3_other (pos vel : Float32Array) (i j : nat)
  (p : Particle) :
  i <> j ->
  readParticle (write3 pos i (px p) (py p) (pz p))
               (write3 vel i (vx p) (vy p) (vz p)) j
  = readParticle pos vel j.
Proof.
  intros Hij. unfold readParticle.
  pose proof (write3_other pos i j 0 (px p) (py p) (pz p) Hij) as P0.
  pose proof (write3_other vel i j 0 (vx p) (vy p) (vz p) Hij) as V0.
  rewrite Nat.add_0_r in P0, V0.
  rewrite P0, V0, !write3_other by lia. reflexivity.
Qed.

Lemma readParticle_write3_same (pos vel : Float32Array) (i : nat)
  (p : Particle) :
  (i * 3 + 2 < length pos)%nat -> (i * 3 + 2 < length vel)%nat ->
  readParticle (write3 pos i (px p) (py p) (pz p))
               (write3 vel i (vx p) (vy p) (vz p)) i
  = p.
Proof.
  intros Hp Hv. unfold readParticle.
  destruct (write3_same pos i (px p) (py p) (pz p) Hp) as (-> & -> & ->).
  destruct (write3_same vel i (vx p) (vy p) (vz p) Hv) as (-> & -> & ->).
  now destruct p.
Qed.

(** The particle loop, after [n] iterations from the draw [c]: the first
    [n] particles have made their step, the others are untouched. *)
Lemma particleLoop_spec (m : Mode) (mf : R) (mw : R * R * R) (dt : R)
  (pos vel : Float32Array) (c n : nat) :
  length pos = (COUNT * 3)%nat -> length vel = (COUNT * 3)%nat ->
  (n <= COUNT)%nat ->
  exists pos' vel',
    for_loop n (particleBody m mf mw dt) (pos, vel, c)
    = (pos', vel', (c + 3 * n)%nat) /\
    length pos' = (COUNT * 3)%nat /\ length vel' = (COUNT * 3)%nat /\
    forall i,
      readParticle pos' vel' i =
      if decide (i < n)%nat
      then particleStep m mf mw dt
             (random (c + 3 * i)) (random (c + 3 * i + 1))
             (random (c + 3 * i + 2)) (readParticle pos vel i)
      else readParticle pos vel i.
Proof.
  intros Hp Hv. induction n as [|n IH]; intros Hn.
  - exists pos, vel. rewrite Nat.mul_0_r, Nat.add_0_r.
    split; [reflexivity|]. split; [assumption|]. split; [assumption|].
    intros i. destruct (decide (i < 0)%nat); [lia|reflexivity].
  - destruct IH as (pos' & vel' & Hloop & Hp' & Hv' & Hread); [lia|].
    simpl for_loop. rewrite Hloop. unfold particleBody at 1.
    eexists _, _. split; [f_equal; lia|].
    rewrite !write3_length.
    split; [assumption|]. split; [assumption|].
    intros i. destruct (decide (i = n)) as [->|Hne].
    + rewrite readParticle_write3_same by lia.
      rewrite Hread. destruct (decide (n < n)%nat); [lia|].
      destruct (decide (n < S n)%nat); [|lia]. reflexivity.
    + rewrite readParticle_write3_other by auto.
      rewrite Hread.
      destruct (decide (i < n)%nat), (decide (i < S n)%nat);
        try lia; reflexivity.
Qed.

(** *** Bounds *)

Lemma bounce_fst (lim x v : R) :
  0 <= lim -> - lim <= fst (bounce lim (x, v)) <= lim.
Proof.
  intros Hlim. unfold bounce, Rgtb, Rltb. simpl.
  destruct (Rgt_dec x lim); simpl; destruct (Rlt_dec _ _); simpl; lra.
Qed.

Lemma boundaryStep_inBounds (m : Mode) (p : Particle) :
  0 <= depthRange m -> inBounds (depthRange m) (boundaryStep m p).
Proof.
  intros Hd. unfold inBounds, boundaryStep. simpl.
  repeat split; apply bounce_fst; auto; unfold BOUNDS; lra.
Qed.

Lemma particleStep_inBounds (m : Mode) (mf : R) (mw : R * R * R)
  (dt r1 r2 r3 : R) (p : Particle) :
  0 <= depthRange m ->
  inBounds (depthRange m) (particleStep m mf mw dt r1 r2 r3 p).
Proof. intros Hd. unfold particleStep. now apply boundaryStep_inBounds. Qed.

(** *** The mode table *)

Lemma index_MODES_inv (i : Z) (m : Mode) :
  index MODES i = Some m ->
  valid_mode i /\
  (m = nebula \/ m = solar \/ m = aurora \/ m = vortex \/ m = void).
Proof.
  unfold index, valid_mode. destruct (i <? 0)%Z eqn:Hneg; [discriminate|].
  apply Z.ltb_ge in Hneg. intros H.
  assert (Z.to_nat i < 5)%nat as Hlt.
  { apply lookup_lt_Some in H. exact H. }
  split; [simpl; lia|].
  destruct (Z.to_nat i) as [|[|[|[|[|k]]]]]; simpl in H;
    try (injection H as <-; auto 10). lia.
Qed.

Lemma index_MODES_valid (i : Z) :
  valid_mode i -> exists m, index MODES i = Some m.
Proof.
  unfold valid_mode, index. simpl. intros Hi.
  destruct (i <? 0)%Z eqn:Hneg; [apply Z.ltb_lt in Hneg; lia|].
  apply lookup_lt_is_Some_2. simpl. lia.
Qed.

(** Every mode of the table has a depth range between 12 and 40. *)
Lemma depthRange_MODES (i : Z) (m : Mode) :
  index MODES i = Some m -> 12 <= depthRange m <= 40.
Proof.
  intros H. apply index_MODES_inv in H as [_ H].
  destruct H as [->|[->|[->|[->| ->]]]]; simpl; lra.
Qed.

Lemma lerp_between (lo hi a b t : R) :
  lo <= a <= hi -> lo <= b <= hi -> 0 <= t <= 1 ->
  lo <= lerp a b t <= hi.
Proof. unfold lerp. intros Ha Hb Ht. split; nra. Qed.

(** On a well-formed state [getActiveMode] returns a mode, whose depth
    range is between those of the table. *)
Lemma getActiveMode_ok (s : State) :
  wf_State s ->
  exists m, getActiveMode s = Ok m /\ 12 <= depthRange m <= 40.
Proof.
  intros W. unfold getActiveMode.
  destruct (index_MODES_valid _ (wf_currentMode s W)) as [a Ha].
  destruct (index_MODES_valid _ (wf_targetMode s W)) as [b Hb].
  rewrite Ha, Hb. cbn [deref bind].
  pose proof (depthRange_MODES _ _ Ha) as Hda.
  pose proof (depthRange_MODES _ _ Hb) as Hdb.
  destruct (Rgeb (modeBlend s) 1).
  - exists a. split; [reflexivity|exact Hda].
  - eexists. split; [reflexivity|]. cbn [depthRange].
    apply (lerp_between 12 40 _ _ _ Hda Hdb (wf_modeBlend s W)).
Qed.

(** *** The update of the particles *)

Lemma for_loop_length_insert (n : nat) (f : nat -> Float32Array -> R)
  (a : Float32Array) :
  length (for_loop n (fun i a => <[i := f i a]> a) a) = length a.
Proof.
  induction n as [|n IH]; simpl; [reflexivity|].
  now rewrite length_insert.
Qed.

Lemma converge_length (n : nat) (rate : R) (target a : Float32Array) :
  length (converge n rate target a) = length a.
Proof.
  unfold converge.
  apply (for_loop_length_insert n
           (fun i a => a !!! i + (target !!! i - a !!! i) * rate)).
Qed.

Lemma blendStep_motion (dt : R) (s : State) :
  positions (blendStep dt s) = positions s /\
  velocities (blendStep dt s) = velocities s /\
  rng (blendStep dt s) = rng s /\
  audio (blendStep dt s) = audio s /\
  audioCalls (blendStep dt s) = audioCalls s.
Proof. unfold blendStep. destruct (Rltb (modeBlend s) 1); simpl; auto. Qed.

(** One call of [updateParticles] on a well-formed state: it returns, every
    particle has made one [particleStep] in the active mode with its three
    draws, and three draws per particle were consumed. *)
Lemma updateParticles_spec (dt : R) (s : State) (m : Mode) :
  wf_State s -> getActiveMode s = Ok m ->
  exists s',
    updateParticles dt s = Ok s' /\
    s' = blendStep dt
           (set_motion (positions s') (velocities s') (rng s')
              (set_bloomStrength (bloom m) s)) /\
    rng s' = (rng s + 3 * COUNT)%nat /\
    length (positions s') = (COUNT * 3)%nat /\
    length (velocities s') = (COUNT * 3)%nat /\
    forall i, (i < COUNT)%nat ->
      particle s' i =
      particleStep m
        (mouseStrength m (mouseDown s) (mouseActive s) (repelling s))
        (mouseWorld s) dt
        (random (rng s + 3 * i)) (random (rng s + 3 * i + 1))
        (random (rng s + 3 * i + 2)) (particle s i).
Proof.
  intros W Hm. unfold updateParticles. rewrite Hm. simpl bind.
  destruct (particleLoop_spec m
              (mouseStrength m (mouseDown s) (mouseActive s) (repelling s))
              (mouseWorld s) dt (positions s) (velocities s) (rng s) COUNT
              (wf_positions s W) (wf_velocities s W) (le_n _))
    as (pos' & vel' & Hloop & Hp' & Hv' & Hread).
  remember (rng s + 3 * COUNT)%nat as c' eqn:Ec'.
  simpl. rewrite Hloop.
  eexists. split; [reflexivity|].
  destruct (blendStep_motion dt
              (set_motion pos' vel' c' (set_bloomStrength (bloom m) s)))
    as (Ep & Ev & Er & _).
  simpl in Ep, Ev, Er. rewrite Ep, Ev, Er.
  split; [reflexivity|]. split; [reflexivity|].
  split; [assumption|]. split; [assumption|].
  intros i Hi. unfold particle. rewrite Ep, Ev, Hread.
  destruct (decide (i < COUNT)%nat); [reflexivity|lia].
Qed.

(** *** The sound engine keeps its invariant and raises no exception *)

Lemma index_MODE_FREQS_valid (i : Z) :
  valid_mode i ->
  exists fs, index AmbientSound.MODE_FREQS i = Some fs /\ length fs = 3%nat.
Proof.
  unfold valid_mode, index. simpl. intros Hi.
  destruct (i <? 0)%Z eqn:Hneg; [apply Z.ltb_lt in Hneg; lia|].
  assert (Z.to_nat i < 5)%nat as Hlt by lia.
  destruct (Z.to_nat i) as [|[|[|[|[|k]]]]]; simpl;
    try (eexists; split; reflexivity). lia.
Qed.

Lemma retune_ok (fs : list R) (tm : R) (ds : list AmbientSound.Voice)
  (i : nat) :
  (i + length ds <= length fs)%nat ->
  exists ds', AmbientSound.retune (Some fs) tm i ds = Ok ds' /\
              length ds' = length ds.
Proof.
  revert i. induction ds as [|d ds IH]; intros i Hlen; simpl in *.
  - now exists [].
  - destruct (lookup_lt_is_Some_2 fs i) as [f Hf]; [lia|].
    rewrite Hf. simpl.
    destruct (IH (S i)) as (ds' & -> & Hds'); [lia|].
    simpl. eexists. split; [reflexivity|]. simpl. now rewrite Hds'.
Qed.

Lemma triggerSweep_ok (a : AmbientSound.t) (n : nat) :
  wf_audio a ->
  exists a' n', AmbientSound.triggerSweep random a n = Ok (a', n') /\
                wf_audio a'.
Proof.
  intros W. unfold AmbientSound.triggerSweep.
  destruct (AmbientSound.ctx a) as [c|] eqn:Hc.
  - pose proof W as (Hm & Hw). rewrite Hc in Hw.
    destruct Hw as (Hmas & [g Hg] & Hd).
    rewrite Hg. simpl. eexists _, _. split; [reflexivity|].
    split; [exact Hm|]. simpl. rewrite Hg. repeat split; eauto.
  - eexists _, _. split; [reflexivity|]. exact W.
Qed.

Lemma audio_setMode_ok (idx : Z) (a : AmbientSound.t) (n : nat) :
  valid_mode idx -> wf_audio a ->
  exists a' n', AmbientSound.setMode random idx a n = Ok (a', n') /\
                wf_audio a'.
Proof.
  intros Hi (Hm & Hw). unfold AmbientSound.setMode. simpl.
  destruct (AmbientSound.ctx a) as [c|] eqn:Hc.
  - destruct Hw as (Hmas & Hg & Hd).
    destruct (AmbientSound._enabled a) eqn:He; simpl.
    + destruct (index_MODE_FREQS_valid idx Hi) as (fs & -> & Hfs).
      destruct (retune_ok fs (AmbientSound.currentTime c + 3)
                  (AmbientSound.drones a) 0) as (ds & -> & Hds); [lia|].
      simpl. apply triggerSweep_ok. split; [exact Hi|]. simpl.
      rewrite Hc. repeat split; auto. congruence.
    + eexists _, _. split; [reflexivity|]. split; [exact Hi|]. simpl.
      rewrite Hc. auto.
  - eexists _, _. split; [reflexivity|]. split; [exact Hi|]. simpl.
    rewrite Hc. auto.
Qed.

Lemma triggerBurst_ok (a : AmbientSound.t) (n : nat) :
  wf_audio a ->
  exists a' n', AmbientSound.triggerBurst random a n = Ok (a', n') /\
                wf_audio a'.
Proof.
  intros W. unfold AmbientSound.triggerBurst.
  destruct (AmbientSound.ctx a) as [c|] eqn:Hc.
  - destruct (AmbientSound._enabled a); simpl.
    + pose proof W as (Hm & Hw). rewrite Hc in Hw.
      destruct Hw as (Hmas & [g Hg] & Hd).
      rewrite Hg. simpl. eexists _, _. split; [reflexivity|].
      split; [exact Hm|]. simpl. rewrite Hg. repeat split; eauto.
    + eexists _, _. split; [reflexivity|]. exact W.
  - eexists _, _. split; [reflexivity|]. exact W.
Qed.

Lemma triggerColorChange_ok (a : AmbientSound.t) (n : nat) :
  wf_audio a ->
  exists a' n', AmbientSound.triggerColorChange random a n = Ok (a', n') /\
                wf_audio a'.
Proof.
  intros W. unfold AmbientSound.triggerColorChange.
  destruct (AmbientSound.ctx a) as [c|] eqn:Hc.
  - destruct (AmbientSound._enabled a); simpl.
    + pose proof W as (Hm & Hw). rewrite Hc in Hw.
      destruct Hw as (Hmas & [g Hg] & Hd).
      rewrite Hg. simpl. eexists _, _. split; [reflexivity|].
      split; [exact Hm|]. simpl. rewrite Hg. repeat split; eauto.
    + eexists _, _. split; [reflexivity|]. exact W.
  - eexists _, _. split; [reflexivity|]. exact W.
Qed.

Lemma toggle_ok (sr : nat) (a : AmbientSound.t) (n : nat) :
  wf_audio a ->
  exists b a' n', AmbientSound.toggle random sr a n = Ok (b, a', n') /\
                  wf_audio a'.
Proof.
  intros (Hm & Hw). unfold AmbientSound.toggle.
  destruct (AmbientSound.ctx a) as [c|] eqn:Hc.
  - destruct Hw as ([m ->] & [g ->] & Hd). simpl.
    eexists _, _, _. split; [reflexivity|].
    split; [exact Hm|]. simpl. repeat split; eauto.
  - destruct Hw as (Hd & He). unfold AmbientSound.init.
    destruct (index_MODE_FREQS_valid _ Hm) as (fs & -> & Hfs).
    destruct fs as [|f0 [|f1 [|f2 fs]]]; simpl in Hfs; try lia.
    simpl. eexists _, _, _. split; [reflexivity|].
    split; [exact Hm|]. simpl. rewrite Hd. repeat split; eauto.
Qed.

(** *** Transition targets *)

(** The loop of [precomputeTargets], after [n] iterations from the draw
    [c]: the first [n] particles have fresh targets, the others keep
    theirs. *)
Lemma targetLoop_spec (override : option R) (m : Mode)
  (tc ts : Float32Array) (tmp : R * R * R) (c n : nat) :
  length tc = (COUNT * 3)%nat -> length ts = COUNT -> (n <= COUNT)%nat ->
  exists tc' ts' tmp',
    for_loop n (targetBody override m) (tc, ts, tmp, c)
    = (tc', ts', tmp', (c + 4 * n)%nat) /\
    length tc' = (COUNT * 3)%nat /\ length ts' = COUNT /\
    forall i,
      (read3 tc' i, ts' !!! i) =
      if decide (i < n)%nat
      then (colorOfHSL (sampledHSL override m c i), sampledSize m c i)
      else (read3 tc i, ts !!! i).
Proof.
  intros Hc Hs. induction n as [|n IH]; intros Hn.
  - exists tc, ts, tmp. rewrite Nat.mul_0_r, Nat.add_0_r.
    split; [reflexivity|]. split; [assumption|]. split; [assumption|].
    intros i. destruct (decide (i < 0)%nat); [lia|reflexivity].
  - destruct IH as (tc' & ts' & tmp' & Hloop & Hc' & Hs' & Hread); [lia|].
    simpl for_loop. rewrite Hloop. unfold targetBody at 1.
    pose proof (Hread n) as Hn'.
    unfold sampledHSL, sampledSize, colorOfHSL in *.
    destruct (sampleHSL override m (random (c + 4 * n))
                (random (c + 4 * n + 1)) (random (c + 4 * n + 2)))
      as [[hue sat] light] eqn:Ehsl.
    eexists _, _, _. split; [f_equal; lia|].
    rewrite write3_length, length_insert.
    split; [assumption|]. split; [assumption|].
    intros i. destruct (decide (i = n)) as [->|Hne].
    + destruct (decide (n < S n)%nat); [|lia].
      rewrite Ehsl. unfold read3.
      destruct (write3_same tc' n (fst (fst (setHSL hue sat light)))
                  (snd (fst (setHSL hue sat light)))
                  (snd (setHSL hue sat light))) as (-> & -> & ->); [lia|].
      rewrite list_lookup_total_insert_eq by lia.
      now destruct (setHSL hue sat light) as [[r g] b].
    + specialize (Hread i). unfold read3 in *.
      pose proof (write3_other tc' n i 0
                    (fst (fst (setHSL hue sat light)))
                    (snd (fst (setHSL hue sat light)))
                    (snd (setHSL hue sat light))) as E0.
      rewrite Nat.add_0_r in E0.
      rewrite E0, !write3_other by (auto; lia).
      rewrite list_lookup_total_insert_ne by auto.
      rewrite Hread.
      destruct (decide (i < n)%nat), (decide (i < S n)%nat);
        try lia; reflexivity.
Qed.

(** [precomputeTargets] on buffers of the right lengths: every particle has
    a fresh target colour and a fresh target size, made of four draws of
    its own; nothing else changes but the scratch colour. *)
Lemma precomputeTargets_spec (m : Mode) (s : State) :
  length (targetColors s) = (COUNT * 3)%nat ->
  length (targetSizes s) = COUNT ->
  let s' := precomputeTargets m s in
  s' = set_targets (targetColors s') (targetSizes s') (tmpColor s')
         (rng s') s /\
  rng s' = (rng s + 4 * COUNT)%nat /\
  length (targetColors s') = (COUNT * 3)%nat /\
  length (targetSizes s') = COUNT /\
  forall i, (i < COUNT)%nat ->
    read3 (targetColors s') i
    = colorOfHSL (sampledHSL (colorOverride s) m (rng s) i) /\
    targetSizes s' !!! i = sampledSize m (rng s) i.
Proof.
  intros Hc Hs. unfold precomputeTargets.
  destruct (targetLoop_spec (colorOverride s) m (targetColors s)
              (targetSizes s) (tmpColor s) (rng s) COUNT Hc Hs (le_n _))
    as (tc' & ts' & tmp' & -> & Hc' & Hs' & Hread).
  cbv zeta. cbn [targetColors targetSizes tmpColor rng set_targets].
  split; [reflexivity|]. split; [reflexivity|].
  split; [assumption|]. split; [assumption|].
  intros i Hi. specialize (Hread i).
  destruct (decide (i < COUNT)%nat); [|lia].
  now injection Hread as -> ->.
Qed.

(** *** Click burst *)

(** The loop of [burstAt], after [n] iterations from the draw [c]: each of
    the first [n] particles that passes the test has received its delta,
    made with a draw of its own; the other velocities are untouched. *)
Lemma burstLoop_spec (pos : Float32Array) (wx wy : R) (push : bool)
  (vel : Float32Array) (c n : nat) :
  length vel = (COUNT * 3)%nat -> (n <= COUNT)%nat ->
  exists vel',
    for_loop n (burstBody pos wx wy push) (vel, c)
    = (vel', (c + hitsBefore pos wx wy n)%nat) /\
    length vel' = (COUNT * 3)%nat /\
    forall i,
      read3 vel' i =
      if decide (i < n)%nat then
        if burstHitAt pos wx wy i then
          add3 (read3 vel i)
            (burstDelta push (pos !!! (i * 3)%nat - wx)
               (pos !!! (i * 3 + 1)%nat - wy)
               (random (c + hitsBefore pos wx wy i)))
        else read3 vel i
      else read3 vel i.
Proof.
  intros Hv. induction n as [|n IH]; intros Hn.
  - exists vel. simpl. rewrite Nat.add_0_r.
    split; [reflexivity|]. split; [assumption|].
    intros i. destruct (decide (i < 0)%nat); [lia|reflexivity].
  - destruct IH as (vel' & Hloop & Hv' & Hread); [lia|].
    simpl for_loop. rewrite Hloop. unfold burstBody at 1.
    simpl hitsBefore. unfold burstHitAt at 2. unfold burstHitAt in Hread.
    unfold burstHitAt.
    destruct (burstHit (pos !!! (n * 3)%nat - wx)
                (pos !!! (n * 3 + 1)%nat - wy)) eqn:Hhit.
    + destruct (burstDelta push (pos !!! (n * 3)%nat - wx)
                  (pos !!! (n * 3 + 1)%nat - wy)
                  (random (c + hitsBefore pos wx wy n)))
        as [[ax ay] az] eqn:Hdelta.
      eexists. split; [f_equal; lia|].
      rewrite write3_length. split; [assumption|].
      intros i. destruct (decide (i = n)) as [->|Hne].
      * destruct (decide (n < S n)%nat); [|lia].
        rewrite Hhit, Hdelta. unfold read3 at 1.
        destruct (write3_same vel' n (vel' !!! (n * 3)%nat + ax)
                    (vel' !!! (n * 3 + 1)%nat + ay)
                    (vel' !!! (n * 3 + 2)%nat + az)) as (-> & -> & ->);
          [lia|].
        specialize (Hread n). destruct (decide (n < n)%nat); [lia|].
        unfold read3 in Hread. injection Hread as -> -> ->.
        reflexivity.
      * unfold read3 at 1.
        pose proof (write3_other vel' n i 0
                      (vel' !!! (n * 3)%nat + ax)
                      (vel' !!! (n * 3 + 1)%nat + ay)
                      (vel' !!! (n * 3 + 2)%nat + az)) as E0.
        rewrite Nat.add_0_r in E0.
        rewrite E0, !write3_other by (auto; lia).
        fold (read3 vel' i). rewrite Hread.
        destruct (decide (i < n)%nat), (decide (i < S n)%nat);
          try lia; reflexivity.
    + exists vel'. split; [f_equal; lia|]. split; [assumption|].
      intros i. rewrite Hread.
      destruct (decide (i = n)) as [->|Hne].
      * destruct (decide (n < n)%nat); [lia|].
        destruct (decide (n < S n)%nat); [|lia]. now rewrite Hhit.
      * destruct (decide (i < n)%nat), (decide (i < S n)%nat);
          try lia; reflexivity.
Qed.

(** *** Every handler keeps the state well formed and returns *)

Lemma wf_set_pointer (down active rep : bool) (w : R * R * R) (s : State) :
  wf_State s -> wf_State (set_pointer down active rep w s).
Proof. intros []; constructor; assumption. Qed.

Lemma wf_set_colorOverride (o : option R) (s : State) :
  wf_State s -> wf_State (set_colorOverride o s).
Proof. intros []; constructor; assumption. Qed.

Lemma wf_set_bloomStrength (b : R) (s : State) :
  wf_State s -> wf_State (set_bloomStrength b s).
Proof. intros []; constructor; assumption. Qed.

Lemma wf_set_ui (i : Z) (d : string) (s : State) :
  wf_State s -> wf_State (set_ui i d s).
Proof. intros []; constructor; assumption. Qed.

Lemma wf_set_soundDesired (b : bool) (s : State) :
  wf_State s -> wf_State (set_soundDesired b s).
Proof. intros []; constructor; assumption. Qed.

Lemma wf_set_audio (call : AudioCall) (an : AmbientSound.t * nat)
  (s : State) :
  wf_State s -> wf_audio (fst an) -> wf_State (set_audio call an s).
Proof. intros [] Ha; constructor; assumption. Qed.

Lemma wf_set_motion (pos vel : Float32Array) (n : nat) (s : State) :
  wf_State s -> length pos = (COUNT * 3)%nat ->
  length vel = (COUNT * 3)%nat -> wf_State (set_motion pos vel n s).
Proof. intros [] Hp Hv; constructor; assumption. Qed.

Lemma wf_set_blend (cur tgt : Z) (b : R) (s : State) :
  wf_State s -> valid_mode cur -> valid_mode tgt -> 0 <= b <= 1 ->
  wf_State (set_blend cur tgt b s).
Proof. intros [] Hc Ht Hb; constructor; assumption. Qed.

Lemma wf_set_targets (tc ts : Float32Array) (tmp : R * R * R) (n : nat)
  (s : State) :
  wf_State s -> length tc = (COUNT * 3)%nat -> length ts = COUNT ->
  wf_State (set_targets tc ts tmp n s).
Proof. intros [] Hc Hs; constructor; assumption. Qed.

Lemma wf_precomputeTargets (m : Mode) (s : State) :
  wf_State s -> wf_State (precomputeTargets m s).
Proof.
  intros W.
  destruct (precomputeTargets_spec m s (wf_targetColors s W)
              (wf_targetSizes s W)) as (E & _ & Hc & Hs & _).
  rewrite E. now apply wf_set_targets.
Qed.

Lemma precomputeTargets_audio (m : Mode) (s : State) :
  audio (precomputeTargets m s) = audio s /\
  audioCalls (precomputeTargets m s) = audioCalls s /\
  currentMode (precomputeTargets m s) = currentMode s /\
  targetMode (precomputeTargets m s) = targetMode s /\
  modeBlend (precomputeTargets m s) = modeBlend s.
Proof.
  unfold precomputeTargets.
  destruct (for_loop COUNT _ _) as [[[tc ts] tmp] n]. simpl. auto.
Qed.

Lemma setMode_ok (idx : Z) (s : State) :
  wf_State s -> exists s', setMode idx s = Ok s' /\ wf_State s'.
Proof.
  intros W. unfold setMode.
  destruct ((idx <? 0) || (idx >=? Z.of_nat (length MODES)))%Z eqn:Hrange;
    [now exists s|].
  destruct ((idx =? currentMode s)%Z && Rgeb (modeBlend s) 1);
    [now exists s|].
  assert (valid_mode idx) as Hi.
  { apply orb_false_iff in Hrange as [H1 H2]. unfold valid_mode. lia. }
  destruct (index_MODES_valid idx Hi) as [m Hm]. rewrite Hm. simpl bind.
  unfold updateModeUI. rewrite Hm. simpl bind.
  set (s1 := precomputeTargets m (set_blend (currentMode s) idx 0 s)).
  assert (wf_State s1) as W1.
  { apply wf_precomputeTargets, wf_set_blend; auto.
    - apply (wf_currentMode s W).
    - lra. }
  cbn [audio rng set_ui].
  destruct (audio_setMode_ok idx (audio s1) (rng s1) Hi (wf_engine s1 W1))
    as (a' & n' & -> & Ha').
  simpl bind. eexists. split; [reflexivity|].
  apply wf_set_audio; [now apply wf_set_ui|exact Ha'].
Qed.

Lemma triggerColorTransition_ok (s : State) :
  wf_State s ->
  exists s', triggerColorTransition s = Ok s' /\ wf_State s'.
Proof.
  intros W. unfold triggerColorTransition.
  assert (valid_mode (if Rgeb (modeBlend s) 1
                      then currentMode s else targetMode s)) as Hi.
  { destruct (Rgeb (modeBlend s) 1);
      [apply (wf_currentMode s W)|apply (wf_targetMode s W)]. }
  destruct (index_MODES_valid _ Hi) as [m ->]. simpl bind.
  set (s1 := precomputeTargets m s).
  assert (wf_State s1) as W1 by now apply wf_precomputeTargets.
  set (s2 := if Rgeb (modeBlend s1) 1
             then set_blend (currentMode s1) (currentMode s1) 0.5 s1
             else s1).
  assert (wf_State s2) as W2.
  { unfold s2. destruct (Rgeb (modeBlend s1) 1); [|exact W1].
    apply wf_set_blend; auto; try apply (wf_currentMode s1 W1). lra. }
  destruct (triggerColorChange_ok (audio s2) (rng s2) (wf_engine s2 W2))
    as (a' & n' & -> & Ha').
  simpl bind. eexists. split; [reflexivity|].
  now apply wf_set_audio.
Qed.

Lemma ensureAudio_ok (s : State) :
  wf_State s -> exists s', ensureAudio s = Ok s' /\ wf_State s'.
Proof.
  intros W. unfold ensureAudio.
  destruct (negb (AmbientSound.enabled (audio s)) && soundDesired s);
    [|now exists s].
  destruct (toggle_ok deviceSampleRate (audio s) (rng s) (wf_engine s W))
    as (b & a' & n' & -> & Ha').
  simpl. eexists. split; [reflexivity|]. now apply wf_set_audio.
Qed.

Lemma soundToggleClick_ok (s : State) :
  wf_State s -> exists s', soundToggleClick s = Ok s' /\ wf_State s'.
Proof.
  intros W. unfold soundToggleClick.
  destruct (toggle_ok deviceSampleRate (audio s) (rng s) (wf_engine s W))
    as (b & a' & n' & Ht & Ha').
  destruct (negb (AmbientSound.enabled (audio s)) && soundDesired s).
  - eexists. split; [reflexivity|]. now apply wf_set_soundDesired.
  - destruct (negb (AmbientSound.enabled (audio s))
              && negb (soundDesired s));
      rewrite Ht; simpl; eexists; (split; [reflexivity|]);
      apply wf_set_soundDesired; now apply wf_set_audio.
Qed.

Lemma burstAt_ok (wx wy : R) (push : bool) (s : State) :
  wf_State s -> exists s', burstAt wx wy push s = Ok s' /\ wf_State s'.
Proof.
  intros W. unfold burstAt.
  destruct (burstLoop_spec (positions s) wx wy push (velocities s) (rng s)
              COUNT (wf_velocities s W) (le_n _)) as (vel' & -> & Hv' & _).
  cbv zeta.
  set (s1 := set_motion (positions s) vel' _ s).
  assert (wf_State s1) as W1.
  { apply wf_set_motion; auto. apply (wf_positions s W). }
  destruct (triggerBurst_ok (audio s1) (rng s1) (wf_engine s1 W1))
    as (a' & n' & -> & Ha').
  simpl bind. eexists. split; [reflexivity|]. now apply wf_set_audio.
Qed.

Lemma wf_blendStep (dt : R) (s : State) :
  0 <= dt -> wf_State s -> wf_State (blendStep dt s).
Proof.
  intros Hdt W. unfold blendStep.
  destruct (Rltb (modeBlend s) 1) eqn:Hlt; [|exact W].
  pose proof (wf_modeBlend s W) as Hb.
  assert (0 <= nextBlend dt (modeBlend s) <= 1) as Hb'.
  { unfold nextBlend. split; [apply Rmin_glb; [|lra]|apply Rmin_r].
    rewrite <- (rounded_0 binary64) at 1. apply rounded_mono.
    assert (0 <= binary64 (dt * 0.5)); [|lra].
    rewrite <- (rounded_0 binary64) at 1. apply rounded_mono. lra. }
  destruct W. constructor; simpl; auto.
  - now rewrite converge_length.
  - now rewrite converge_length.
  - destruct (Rgeb _ 1); assumption.
Qed.

Lemma updateParticles_ok (dt : R) (s : State) :
  0 <= dt -> wf_State s ->
  exists s', updateParticles dt s = Ok s' /\ wf_State s'.
Proof.
  intros Hdt W.
  destruct (getActiveMode_ok s W) as (m & Hm & _).
  destruct (updateParticles_spec dt s m W Hm)
    as (s' & Hs' & E & _ & Hp & Hv & _).
  exists s'. split; [exact Hs'|]. rewrite E.
  apply wf_blendStep; [exact Hdt|].
  apply wf_set_motion; auto. now apply wf_set_bloomStrength.
Qed.

Lemma handle_ok (e : Event) (s : State) :
  timely e -> wf_State s ->
  exists s', handle e s = Ok s' /\ wf_State s'.
Proof.
  intros Ht W. destruct e; simpl handle.
  - apply updateParticles_ok; [|exact W]. simpl in Ht.
    apply Rmin_glb; lra.
  - now apply setMode_ok.
  - apply triggerColorTransition_ok. now apply wf_set_colorOverride.
  - now apply soundToggleClick_ok.
  - eexists; split; [reflexivity|]; now apply wf_set_pointer.
  - eexists; split; [reflexivity|]; now apply wf_set_pointer.
  - eexists; split; [reflexivity|]; now apply wf_set_pointer.
  - destruct (ensureAudio_ok s W) as (s1 & -> & W1). simpl bind.
    cbv zeta.
    set (s2 := set_pointer true _ _ _ s1).
    assert (wf_State s2) as W2 by now apply wf_set_pointer.
    cbn [mouseActive mouseWorld repelling set_pointer].
    destruct (mouseActive s1); [now apply burstAt_ok|now exists s2].
  - eexists; split; [reflexivity|]; now apply wf_set_pointer.
  - destruct (ensureAudio_ok s W) as (s1 & -> & W1). simpl bind.
    apply burstAt_ok. now apply wf_set_pointer.
  - eexists; split; [reflexivity|]; now apply wf_set_pointer.
  - eexists; split; [reflexivity|]; now apply wf_set_pointer.
  - destruct k.
    + eexists; split; [reflexivity|]; now apply wf_set_pointer.
    + destruct ((n >=? 1) && (n <=? _))%Z;
        [now apply setMode_ok|now exists s].
    + now exists s.
  - destruct k; try now exists s.
    eexists; split; [reflexivity|]; now apply wf_set_pointer.
Qed.

Lemma run_ok (es : list Event) (s : State) :
  Forall timely es -> wf_State s ->
  exists s', run es s = Ok s' /\ wf_State s'.
Proof.
  intros Hes. revert s. induction Hes as [|e es He Hes IH]; intros s W.
  - now exists s.
  - destruct (handle_ok e s He W) as (s1 & H1 & W1).
    simpl. rewrite H1. simpl. now apply IH.
Qed.

(** *** The initial state *)

Lemma wf_randomizeParticle (i : nat) (m : Mode) (scatter : R) (s : State) :
  wf_State s -> wf_State (randomizeParticle i m scatter s).
Proof.
  intros []. unfold randomizeParticle.
  destruct (sampleHSL _ _ _ _ _) as [[hue sat] light].
  constructor; simpl; rewrite ?write3_length, ?length_insert; assumption.
Qed.

Lemma wf_declared : wf_State declared.
Proof.
  constructor; simpl; unfold new_Float32Array;
    rewrite ?length_replicate; try reflexivity;
    try (unfold valid_mode, DEFAULT_MODE; simpl; lia).
  - lra.
  - split; [|split; reflexivity]. unfold valid_mode. simpl. lia.
Qed.

Lemma wf_initial : wf_State initial.
Proof.
  unfold initial. induction COUNT as [|n IH] at 1; simpl.
  - exact wf_declared.
  - now apply wf_randomizeParticle.
Qed.

(** ** The claims of the specification *)

(** C1, amended (bounds).  Whatever events the host has delivered since
    initialisation (frames with a non-negative elapsed time, clicks, pointer
    and key events, in any order and number), the next frame returns, and at
    its end every particle has its x and y within [-BOUNDS, BOUNDS]
    (BOUNDS = 40) and its z within [-d, d], where d is the depth range of
    the blend-interpolated mode the frame started with: the one
    [getActiveMode] hands to the step, before the frame advances the
    blend. *)
Theorem bounds_after_every_step (es : list Event) (elapsed : R) (i : nat) :
  Forall timely es -> 0 <= elapsed -> (i < COUNT)%nat ->
  exists s m s',
    run es initial = Ok s /\
    getActiveMode s = Ok m /\
    handle (ev_frame elapsed) s = Ok s' /\
    BOUNDS = 40 /\
    inBounds (depthRange m) (particle s' i).
Proof.
  intros Hes Hel Hi.
  destruct (run_ok es initial Hes wf_initial) as (s & Hrun & W).
  destruct (getActiveMode_ok s W) as (m & Hm & Hd).
  destruct (updateParticles_spec (Rmin (elapsed / 1000) 0.05) s m W Hm)
    as (s' & Hs' & _ & _ & _ & _ & Hstep).
  exists s, m, s'. repeat split; try assumption; try reflexivity;
    rewrite (Hstep i Hi);
    apply particleStep_inBounds; lra.
Qed.

(** The velocity and the position the scenario step computes. *)
Lemma scenarioStep_value (mw : R * R * R) :
  scenarioStep mw =
  {| px := 30 - 0.996 * (30 / 30.1 * (0.0002 * (30.1 - 18)));
     py := 0; pz := 0;
     vx := - (0.996 * (30 / 30.1 * (0.0002 * (30.1 - 18))));
     vy := 0; vz := 0 |}.
Proof.
  unfold scenarioStep, particleStep.
  assert (centerPullStep void scenarioParticle =
          {| px := 30; py := 0; pz := 0;
             vx := - (30 / 30.1 * (0.0002 * (30.1 - 18)));
             vy := 0; vz := 0 |}) as ->.
  { unfold centerPullStep, scenarioParticle.
    cbn [px py pz vx vy vz centerPull equilibrium void].
    replace (30 * 30 + 0 * 0 + 0 * 0) with (30 * 30) by lra.
    rewrite sqrt_square by lra. f_equal; lra. }
  assert (mouseStrength void false false false = 0) as -> by reflexivity.
  unfold mouseStep. destruct mw as [[mx my] mz].
  assert (Reqb 0 0 = true) as -> by now apply Reqb_true.
  unfold swirlStep.
  assert (Rgtb (swirl void) 0 = false) as ->.
  { unfold Rgtb, void, swirl. destruct (Rgt_dec 0.0 0); [lra|reflexivity]. }
  unfold driftStep, dampStep, integrateStep, boundaryStep.
  cbn [px py pz vx vy vz drift damping depthRange void].
  unfold bounce, BOUNDS. cbn [fst snd].
  repeat match goal with
  | |- context [Rgtb ?a ?b] =>
      let H := fresh in
      assert (Rgtb a b = false) as H
        by (unfold Rgtb; destruct (Rgt_dec a b); [lra|reflexivity]);
      rewrite H; clear H; cbn [fst snd]
  | |- context [Rltb ?a ?b] =>
      let H := fresh in
      assert (Rltb a b = false) as H
        by (unfold Rltb; destruct (Rlt_dec a b); [lra|reflexivity]);
      rewrite H; clear H; cbn [fst snd]
  end.
  f_equal; lra.
Qed.

(** C2, amended (centre pull).  In the scenario the particle gains the x
    velocity -0.996 * 0.0002 * (30.1 - 18) * 30 / 30.1, about -0.0024 (the
    force [centerPull * (distance + 0.1 - equilibrium)] along the radial
    direction, then damping), no velocity on the other axes, and its
    distance from the origin after integration is strictly less than 30. *)
Theorem center_pull_scenario (mw : R * R * R) :
  vx (scenarioStep mw)
  = - (0.996 * (0.0002 * (30.1 - 18)) * (30 / 30.1)) /\
  -0.00241 < vx (scenarioStep mw) < -0.0024 /\
  vy (scenarioStep mw) = 0 /\
  vz (scenarioStep mw) = 0 /\
  distanceFromOrigin (scenarioStep mw) < 30.
Proof.
  rewrite scenarioStep_value. unfold distanceFromOrigin.
  cbn [px py pz vx vy vz].
  split; [lra|]. split; [lra|]. split; [reflexivity|].
  split; [reflexivity|].
  set (x := 30 - 0.996 * (30 / 30.1 * (0.0002 * (30.1 - 18)))).
  replace (x * x + 0 * 0 + 0 * 0) with (x * x) by lra.
  rewrite sqrt_square; unfold x; lra.
Qed.

(** C2 as stated fails: the magnitude of the velocity gained is above
    0.0024, thirty times the 0.00008 of the claim. *)
Lemma center_pull_scenario_not_as_stated :
  ~ scenarioAsStated (scenarioStep (0, 0, 0)).
Proof.
  unfold scenarioAsStated. rewrite scenarioStep_value.
  cbn [px py pz vx vy vz]. intros (_ & H & _).
  unfold Rabs in H.
  repeat match type of H with
         | context [Rcase_abs ?x] => destruct (Rcase_abs x)
         end; lra.
Qed.

(** *** The blend fraction *)

Lemma blendStep_blend (dt : R) (s : State) :
  modeBlend (blendStep dt s) =
    (if Rltb (modeBlend s) 1 then nextBlend dt (modeBlend s)
     else modeBlend s) /\
  targetMode (blendStep dt s) = targetMode s /\
  currentMode (blendStep dt s) =
    (if Rltb (modeBlend s) 1 && Rgeb (nextBlend dt (modeBlend s)) 1
     then targetMode s else currentMode s).
Proof.
  unfold blendStep. destruct (Rltb (modeBlend s) 1); simpl; auto.
Qed.

(** What one call of [updateParticles] does to the blend state. *)
Lemma updateParticles_blend (dt : R) (s : State) :
  0 <= dt -> wf_State s ->
  exists s',
    updateParticles dt s = Ok s' /\ wf_State s' /\
    modeBlend s' =
      (if Rltb (modeBlend s) 1 then nextBlend dt (modeBlend s)
       else modeBlend s) /\
    targetMode s' = targetMode s /\
    currentMode s' =
      (if Rltb (modeBlend s) 1 && Rgeb (nextBlend dt (modeBlend s)) 1
       then targetMode s else currentMode s).
Proof.
  intros Hdt W.
  destruct (updateParticles_ok dt s Hdt W) as (s' & Hs' & W').
  destruct (getActiveMode_ok s W) as (m & Hm & _).
  destruct (updateParticles_spec dt s m W Hm) as (s'' & Hs'' & E & _).
  rewrite Hs' in Hs''. injection Hs'' as <-.
  exists s'. split; [exact Hs'|]. split; [exact W'|].
  pose proof (blendStep_blend dt
                (set_motion (positions s') (velocities s') (rng s')
                   (set_bloomStrength (bloom m) s))) as H.
  rewrite <- E in H. exact H.
Qed.







(** At dt = 1/64 no sum is rounded in binary64, and the fraction reaches 1
    on the tick ceil(2/dt) = 128, not before. *)
Lemma blend_in_128_ticks_at_one_64th :
  Zceil (2 / (1 / 64)) = 128%Z /\
  blendTicks64 127 0x1p-6 (0%float, 4%Z, 3%Z)
  = (0x1.fcp-1%float, 4%Z, 3%Z) /\
  blendTicks64 128 0x1p-6 (0%float, 4%Z, 3%Z) = (1%float, 3%Z, 3%Z).
Proof.
  split.
  { apply Zceil_eq. simpl. lra. }
  split; vm_compute; reflexivity.
Qed.

(** *** Transition requests *)

Lemma valid_mode_range (idx : Z) :
  valid_mode idx <->
  ((idx <? 0) || (idx >=? Z.of_nat (length MODES)))%Z = false.
Proof.
  unfold valid_mode. rewrite orb_false_iff, Z.ltb_ge, Z.geb_leb, Z.leb_gt.
  lia.
Qed.

Lemma at_rest_on (idx : Z) (s : State) :
  ((idx =? currentMode s)%Z && Rgeb (modeBlend s) 1) = true <->
  idx = currentMode s /\ modeBlend s >= 1.
Proof. now rewrite andb_true_iff, Z.eqb_eq, Rgeb_true. Qed.

Lemma triggerSweep_draws (a a' : AmbientSound.t) (n n' : nat) :
  AmbientSound.triggerSweep random a n = Ok (a', n') -> (n <= n')%nat.
Proof.
  unfold AmbientSound.triggerSweep.
  destruct (AmbientSound.ctx a); [|intros [= _ <-]; lia].
  destruct (AmbientSound.sfxGain a); simpl; [|discriminate].
  intros [= _ <-]. lia.
Qed.

Lemma audio_setMode_draws (idx : Z) (a a' : AmbientSound.t) (n n' : nat) :
  AmbientSound.setMode random idx a n = Ok (a', n') -> (n <= n')%nat.
Proof.
  unfold AmbientSound.setMode.
  destruct (AmbientSound.ctx _); [|intros [= _ <-]; lia].
  destruct (negb _); [intros [= _ <-]; lia|].
  destruct (AmbientSound.retune _ _ _ _); simpl; [|discriminate].
  apply triggerSweep_draws.
Qed.

(** A transition request that is not ignored, in full. *)
Lemma setMode_fires (idx : Z) (m : Mode) (s : State) :
  wf_State s -> index MODES idx = Some m ->
  ~ (idx = currentMode s /\ modeBlend s >= 1) ->
  exists s',
    setMode idx s = Ok s' /\
    modeBlend s' = 0 /\ targetMode s' = idx /\
    currentMode s' = currentMode s /\
    audioCalls s' = call_setMode idx :: audioCalls s /\
    (forall i, (i < COUNT)%nat ->
       read3 (targetColors s') i
       = colorOfHSL (sampledHSL (colorOverride s) m (rng s) i) /\
       targetSizes s' !!! i = sampledSize m (rng s) i) /\
    (rng s + 4 * COUNT <= rng s')%nat /\
    positions s' = positions s /\ velocities s' = velocities s /\
    colors s' = colors s /\ sizes s' = sizes s /\ alphas s' = alphas s.
Proof.
  intros W Hm Hnot. unfold setMode.
  destruct (index_MODES_inv idx m Hm) as [Hi _].
  apply valid_mode_range in Hi as Hr. rewrite Hr.
  destruct ((idx =? currentMode s)%Z && Rgeb (modeBlend s) 1) eqn:Hrest;
    [now apply at_rest_on in Hrest|].
  rewrite Hm. simpl bind. unfold updateModeUI. rewrite Hm. simpl bind.
  set (s0 := set_blend (currentMode s) idx 0 s).
  assert (wf_State s0) as W0.
  { apply wf_set_blend; auto; [apply (wf_currentMode s W)|lra]. }
  destruct (precomputeTargets_spec m s0 (wf_targetColors s0 W0)
              (wf_targetSizes s0 W0)) as (E & Hrng & _ & _ & Htargets).
  set (s1 := precomputeTargets m s0) in *.
  assert (wf_State s1) as W1 by now apply wf_precomputeTargets.
  cbn [audio rng set_ui].
  destruct (audio_setMode_ok idx (audio s1) (rng s1) Hi (wf_engine s1 W1))
    as (a' & n' & Hcall & _).
  rewrite Hcall. simpl bind. eexists. split; [reflexivity|].
  pose proof (audio_setMode_draws idx (audio s1) a' (rng s1) n' Hcall)
    as Hdraws.
  rewrite E. cbn. repeat split; try reflexivity.
  - apply Htargets. assumption.
  - apply Htargets. assumption.
  - cbn in Hrng. lia.
Qed.

(** C4 (last writer wins).  A transition request with a valid mode index
    changes nothing exactly when the index is the settled one and the blend
    is at rest; in every other case, whatever the previous target and
    fraction, it sets the fraction to 0 and the target to the index, leaves
    the settled index, and gives every particle a fresh target colour and a
    fresh target size: the particle [i] takes the four draws that follow
    the [4 * i] draws of the particles before it, none of which an earlier
    call consumed, its colour is [setHSL] of a hue, a saturation and a
    lightness that lie, each by the fraction its draw gives, between the ends
    of the hue, saturation and lightness ranges of the requested mode (the
    ranges of the colour override for hue and saturation when one is
    active), and its size lies in the same way in the size range of the
    mode; the request is passed on to the sound engine. *)
Theorem transition_request (idx : Z) (s : State) :
  valid_mode idx -> wf_State s ->
  (setMode idx s = Ok s <-> idx = currentMode s /\ modeBlend s >= 1) /\
  (~ (idx = currentMode s /\ modeBlend s >= 1) ->
   exists m s',
     index MODES idx = Some m /\
     setMode idx s = Ok s' /\
     modeBlend s' = 0 /\ targetMode s' = idx /\
     currentMode s' = currentMode s /\
     audioCalls s' = call_setMode idx :: audioCalls s /\
     (rng s + 4 * COUNT <= rng s')%nat /\
     forall i, (i < COUNT)%nat ->
       let k := (rng s + 4 * i)%nat in
       let hr := match colorOverride s with
                 | None => hueRange m
                 | Some h => (h - 0.06, h + 0.06)
                 end in
       let sr := match colorOverride s with
                 | None => satRange m
                 | Some _ => (Rmax (fst (satRange m)) 0.5,
                              Rmax (snd (satRange m)) 0.9)
                 end in
       read3 (targetColors s') i
       = setHSL
           (fst hr + random k * (snd hr - fst hr))
           (fst sr + random (k + 1) * (snd sr - fst sr))
           (fst (lightRange m)
            + random (k + 2) * (snd (lightRange m) - fst (lightRange m))) /\
       targetSizes s' !!! i
       = fst (sizeRange m)
         + random (k + 3) * (snd (sizeRange m) - fst (sizeRange m))).
Proof.
  intros Hi W. destruct (index_MODES_valid idx Hi) as [m Hm]. split.
  - split.
    + intros Hnoop.
      assert ((idx = currentMode s /\ modeBlend s >= 1) \/
              ~ (idx = currentMode s /\ modeBlend s >= 1)) as [Hrest|Hnot].
      { destruct (Z.eq_dec idx (currentMode s)),
          (Rge_dec (modeBlend s) 1); tauto. }
      { exact Hrest. }
      exfalso.
      destruct (setMode_fires idx m s W Hm Hnot)
        as (s' & Hs' & _ & _ & _ & Hc & _).
      rewrite Hnoop in Hs'. injection Hs' as <-.
      apply (f_equal (@length _)) in Hc. simpl in Hc. lia.
    + intros Hrest. unfold setMode.
      apply valid_mode_range in Hi. rewrite Hi.
      apply at_rest_on in Hrest. now rewrite Hrest.
  - intros Hnot.
    destruct (setMode_fires idx m s W Hm Hnot)
      as (s' & Hs' & Hb & Ht & Hc & Hcalls & Htargets & Hrng & _).
    exists m, s'. split; [exact Hm|]. split; [exact Hs'|].
    split; [exact Hb|]. split; [exact Ht|]. split; [exact Hc|].
    split; [exact Hcalls|]. split; [exact Hrng|].
    intros i Hlt. destruct (Htargets i Hlt) as [Hcol Hsize]. cbv zeta.
    rewrite Hcol, Hsize.
    unfold colorOfHSL, sampledHSL, sampledSize, sampleHSL, sample,
      getHueRange, getSatRange.
    split; reflexivity.
Qed.

(** *** Decay to rest *)

Lemma bounce_snd (lim x v : R) :
  0 <= lim ->
  snd (bounce lim (x, v)) = v \/ snd (bounce lim (x, v)) = v * -0.3.
Proof.
  intros Hlim. unfold bounce, Rgtb, Rltb. simpl.
  destruct (Rgt_dec x lim); simpl; destruct (Rlt_dec _ _); simpl;
    auto; lra.
Qed.

Lemma bounce_snd_abs (lim x v : R) :
  Rabs (snd (bounce lim (x, v))) <= Rabs v.
Proof.
  unfold bounce, Rgtb, Rltb. simpl.
  destruct (Rgt_dec x lim); simpl; destruct (Rlt_dec _ _); simpl;
    unfold Rabs; repeat destruct (Rcase_abs _); lra.
Qed.

Lemma forceless_still (m : Mode) (down active rep : bool) :
  forceless m -> mouseStrength m down active rep = 0.
Proof.
  intros (Hmf & _). unfold mouseStrength. rewrite Hmf.
  destruct down, active, rep; lra.
Qed.

Lemma bounce_spec (lim x v : R) :
  0 <= lim ->
  softBoundary lim x v (fst (bounce lim (x, v))) (snd (bounce lim (x, v))).
Proof.
  intros Hlim. unfold softBoundary, bounce, Rgtb, Rltb. simpl.
  destruct (Rgt_dec x lim); simpl; destruct (Rlt_dec _ _); simpl;
    repeat split; intros; try reflexivity; lra.
Qed.

(** In a mode without forces the velocity that reaches the boundary test is
    the old velocity times the damping factor, and the position the old one
    moved by that velocity. *)
Lemma forceless_step (m : Mode) (x : StepInput) (p : Particle) :
  forceless m ->
  exists q,
    stepWith m x p = boundaryStep m q /\
    vx q = vx p * damping m /\
    vy q = vy p * damping m /\
    vz q = vz p * damping m /\
    px q = px p + vx p * damping m * in_dt x * 60 /\
    py q = py p + vy p * damping m * in_dt x * 60 /\
    pz q = pz p + vz p * damping m * in_dt x * 60.
Proof.
  intros F. pose proof F as (Hmf & Hdr & Hsw & Hcp & Hd).
  unfold stepWith, particleStep. rewrite (forceless_still m _ _ _ F).
  eexists. split; [reflexivity|].
  unfold mouseStep. destruct (in_mouse x) as [[mx my] mz].
  assert (Reqb 0 0 = true) as -> by now apply Reqb_true.
  unfold swirlStep.
  assert (Rgtb (swirl m) 0 = false) as ->.
  { unfold Rgtb. destruct (Rgt_dec (swirl m) 0); [lra|reflexivity]. }
  unfold integrateStep, dampStep, driftStep, centerPullStep.
  cbn [px py pz vx vy vz]. rewrite Hdr, Hcp.
  repeat split; unfold Rdiv; ring.
Qed.

Lemma sum_squares_le (d a b c a' b' c' : R) :
  0 <= d -> Rabs a' <= d * Rabs a -> Rabs b' <= d * Rabs b ->
  Rabs c' <= d * Rabs c ->
  a' * a' + b' * b' + c' * c' <= (d * d) * (a * a + b * b + c * c).
Proof.
  intros Hd Ha Hb Hc.
  assert (forall u v, Rabs u <= d * Rabs v -> u * u <= d * d * (v * v)) as H.
  { intros u v Huv.
    replace (u * u) with (Rabs u * Rabs u)
      by (unfold Rabs; destruct (Rcase_abs u); ring).
    replace (v * v) with (Rabs v * Rabs v)
      by (unfold Rabs; destruct (Rcase_abs v); ring).
    pose proof (Rabs_pos u). pose proof (Rabs_pos v). nra. }
  pose proof (H _ _ Ha). pose proof (H _ _ Hb). pose proof (H _ _ Hc). lra.
Qed.

Lemma speed_nonneg (p : Particle) : 0 <= speed p.
Proof. apply sqrt_pos. Qed.

(** One step in a mode without forces scales the speed by the damping
    factor at most. *)
Lemma forceless_speed (m : Mode) (x : StepInput) (p : Particle) :
  forceless m -> speed (stepWith m x p) <= damping m * speed p.
Proof.
  intros F. pose proof F as (_ & _ & _ & _ & Hd).
  destruct (forceless_step m x p F) as (q & -> & Hx & Hy & Hz & _).
  unfold speed, boundaryStep. cbn [vx vy vz].
  rewrite <- (sqrt_square (damping m)) at 1 by lra.
  rewrite <- sqrt_mult_alt by nra.
  apply sqrt_le_1_alt. apply sum_squares_le; [lra| | |].
  - eapply Rle_trans; [apply bounce_snd_abs|].
    rewrite Hx, Rabs_mult, (Rabs_right (damping m)) by lra. lra.
  - eapply Rle_trans; [apply bounce_snd_abs|].
    rewrite Hy, Rabs_mult, (Rabs_right (damping m)) by lra. lra.
  - eapply Rle_trans; [apply bounce_snd_abs|].
    rewrite Hz, Rabs_mult, (Rabs_right (damping m)) by lra. lra.
Qed.

Lemma forceless_speed_pow (m : Mode) (xs : nat -> StepInput) (n : nat)
  (p : Particle) :
  forceless m -> speed (stepsWith m xs n p) <= damping m ^ n * speed p.
Proof.
  intros F. pose proof F as (_ & _ & _ & _ & Hd).
  induction n as [|n IH]; simpl.
  - lra.
  - eapply Rle_trans; [now apply forceless_speed|].
    rewrite Rmult_assoc. apply Rmult_le_compat_l; [lra|exact IH].
Qed.

(** C5 (decay to rest).  In a mode whose mouse force, drift, swirl and
    centre pull are zero and whose damping is below 1, one step of a
    particle with a non-zero velocity multiplies each velocity component by
    the damping factor and moves the position by it; on an axis where the
    position so moved is beyond the boundary, and only there, the position
    is put on the boundary and the component multiplied by -0.3 besides.
    So the speed strictly decreases; over [n] steps the speed is at most
    damping^n times the first one, and it tends to zero as the number of
    ticks grows. *)
Theorem decay_to_rest (m : Mode) (xs : nat -> StepInput) (p : Particle) :
  forceless m -> speed p <> 0 ->
  (forall x,
     speed (stepWith m x p) < speed p /\
     (vx (stepWith m x p) = vx p * damping m \/
      vx (stepWith m x p) = vx p * damping m * -0.3) /\
     (vy (stepWith m x p) = vy p * damping m \/
      vy (stepWith m x p) = vy p * damping m * -0.3) /\
     (0 <= depthRange m ->
      vz (stepWith m x p) = vz p * damping m \/
      vz (stepWith m x p) = vz p * damping m * -0.3) /\
     softBoundary BOUNDS
       (px p + vx p * damping m * in_dt x * 60) (vx p * damping m)
       (px (stepWith m x p)) (vx (stepWith m x p)) /\
     softBoundary BOUNDS
       (py p + vy p * damping m * in_dt x * 60) (vy p * damping m)
       (py (stepWith m x p)) (vy (stepWith m x p)) /\
     (0 <= depthRange m ->
      softBoundary (depthRange m)
        (pz p + vz p * damping m * in_dt x * 60) (vz p * damping m)
        (pz (stepWith m x p)) (vz (stepWith m x p)))) /\
  (forall n, speed (stepsWith m xs n p) <= damping m ^ n * speed p) /\
  (forall eps, 0 < eps ->
     exists N, forall n, (N <= n)%nat -> speed (stepsWith m xs n p) < eps).
Proof.
  intros F Hv. pose proof F as (_ & _ & _ & _ & Hd).
  assert (0 < speed p) as Hpos.
  { pose proof (speed_nonneg p). lra. }
  split; [|split].
  - intros x. split.
    + eapply Rle_lt_trans; [now apply forceless_speed|]. nra.
    + destruct (forceless_step m x p F)
        as (q & -> & Hx & Hy & Hz & Hpx & Hpy & Hpz).
      unfold boundaryStep. cbn [px py pz vx vy vz].
      rewrite <- Hx, <- Hy, <- Hz.
      replace (px p + vx q * in_dt x * 60) with (px q) by (rewrite Hpx, Hx; ring).
      replace (py p + vy q * in_dt x * 60) with (py q) by (rewrite Hpy, Hy; ring).
      replace (pz p + vz q * in_dt x * 60) with (pz q) by (rewrite Hpz, Hz; ring).
      split; [apply bounce_snd; unfold BOUNDS; lra|].
      split; [apply bounce_snd; unfold BOUNDS; lra|].
      split; [intros Hdepth; now apply bounce_snd|].
      split; [apply bounce_spec; unfold BOUNDS; lra|].
      split; [apply bounce_spec; unfold BOUNDS; lra|].
      intros Hdepth. now apply bounce_spec.
  - intros n. now apply forceless_speed_pow.
  - intros eps Heps.
    destruct (pow_lt_1_zero (damping m)) with (y := eps / speed p)
      as [N HN].
    + rewrite Rabs_right; lra.
    + now apply Rdiv_lt_0_compat.
    + exists N. intros n Hn.
      eapply Rle_lt_trans; [now apply forceless_speed_pow|].
      specialize (HN n Hn).
      rewrite Rabs_right in HN by (apply Rle_ge, pow_le; lra).
      apply (Rmult_lt_compat_r (speed p)) in HN; [|exact Hpos].
      unfold Rdiv in HN.
      rewrite Rmult_assoc, Rinv_l, Rmult_1_r in HN; lra.
Qed.

(** *** Colour override *)

Lemma sampleHSL_override (h : R) (m : Mode) (r1 r2 r3 : R) :
  0 <= r1 <= 1 -> 0 <= r2 <= 1 ->
  overrideTarget h (colorOfHSL (sampleHSL (Some h) m r1 r2 r3)).
Proof.
  intros H1 H2. unfold overrideTarget, colorOfHSL, sampleHSL.
  eexists _, _, _. split; [reflexivity|].
  unfold sample, getHueRange, getSatRange. cbn [fst snd]. split; [lra|].
  pose proof (Rmax_r (fst (satRange m)) 0.5).
  pose proof (Rmax_r (snd (satRange m)) 0.9).
  nra.
Qed.

Lemma precomputeTargets_override (m : Mode) (s : State) :
  colorOverride (precomputeTargets m s) = colorOverride s.
Proof.
  unfold precomputeTargets.
  now destruct (for_loop COUNT _ _) as [[[tc ts] tmp] n].
Qed.

(** A recolour request, in full. *)
Lemma triggerColorTransition_spec (s : State) :
  wf_State s ->
  exists m s',
    index MODES (if Rgeb (modeBlend s) 1
                 then currentMode s else targetMode s) = Some m /\
    triggerColorTransition s = Ok s' /\
    modeBlend s' = (if Rgeb (modeBlend s) 1 then 0.5 else modeBlend s) /\
    targetMode s' = (if Rgeb (modeBlend s) 1
                     then currentMode s else targetMode s) /\
    currentMode s' = currentMode s /\
    audioCalls s' = call_triggerColorChange :: audioCalls s /\
    colorOverride s' = colorOverride s /\
    forall i, (i < COUNT)%nat ->
      read3 (targetColors s') i
      = colorOfHSL (sampledHSL (colorOverride s) m (rng s) i) /\
      targetSizes s' !!! i = sampledSize m (rng s) i.
Proof.
  intros W. unfold triggerColorTransition.
  assert (valid_mode (if Rgeb (modeBlend s) 1
                      then currentMode s else targetMode s)) as Hi.
  { destruct (Rgeb (modeBlend s) 1);
      [apply (wf_currentMode s W)|apply (wf_targetMode s W)]. }
  destruct (index_MODES_valid _ Hi) as [m Hm]. rewrite Hm. simpl bind.
  exists m.
  destruct (precomputeTargets_spec m s (wf_targetColors s W)
              (wf_targetSizes s W)) as (E & _ & _ & _ & Htargets).
  destruct (precomputeTargets_audio m s) as (_ & Hcalls & Hc & Ht & Hb).
  pose proof (precomputeTargets_override m s) as Ho.
  set (s1 := precomputeTargets m s) in *.
  assert (wf_State s1) as W1 by now apply wf_precomputeTargets.
  set (s2 := if Rgeb (modeBlend s1) 1
             then set_blend (currentMode s1) (currentMode s1) 0.5 s1
             else s1).
  assert (wf_State s2) as W2.
  { unfold s2. destruct (Rgeb (modeBlend s1) 1); [|exact W1].
    apply wf_set_blend; auto; try apply (wf_currentMode s1 W1). lra. }
  destruct (triggerColorChange_ok (audio s2) (rng s2) (wf_engine s2 W2))
    as (a' & n' & -> & _).
  simpl bind. eexists. split; [reflexivity|]. split; [reflexivity|].
  cbn [modeBlend targetMode currentMode audioCalls targetColors
       targetSizes colorOverride set_audio].
  unfold s2. rewrite Hb.
  destruct (Rgeb (modeBlend s) 1);
    cbn [modeBlend targetMode currentMode audioCalls targetColors
         targetSizes colorOverride set_blend];
    rewrite ?Hc, ?Ht, ?Hb, ?Hcalls, ?Ho; repeat split; try reflexivity;
    now apply Htargets.
Qed.

Section UnitDraws.

(** [Math.random()] returns a number in [0, 1). *)
Hypothesis random_unit : forall k, 0 <= random k < 1.

Lemma sampled_override (h : R) (m : Mode) (c i : nat) :
  overrideTarget h (colorOfHSL (sampledHSL (Some h) m c i)).
Proof.
  unfold sampledHSL. apply sampleHSL_override.
  - pose proof (random_unit (c + 4 * i)). lra.
  - pose proof (random_unit (c + 4 * i + 1)). lra.
Qed.

(** C6 (colour override containment).  While the override hue [h] is
    active, every target colour sampled by a transition request that is
    not ignored, by a recolour request, or by the choice of the colour
    [h] itself, is made by [setHSL] of a hue in [h - 0.06, h + 0.06]
    (which [setHSL] takes modulo 1) and a saturation of at least 0.5. *)
Theorem override_containment (h : R) (s : State) :
  wf_State s ->
  (colorOverride s = Some h ->
   forall idx,
     valid_mode idx -> ~ (idx = currentMode s /\ modeBlend s >= 1) ->
     exists s', setMode idx s = Ok s' /\
       forall i, (i < COUNT)%nat ->
         overrideTarget h (read3 (targetColors s') i)) /\
  (colorOverride s = Some h ->
   exists s', triggerColorTransition s = Ok s' /\
     forall i, (i < COUNT)%nat ->
       overrideTarget h (read3 (targetColors s') i)) /\
  (exists s', pickColor (Some h) s = Ok s' /\
     colorOverride s' = Some h /\
     forall i, (i < COUNT)%nat ->
       overrideTarget h (read3 (targetColors s') i)).
Proof.
  intros W. split; [|split].
  - intros Ho idx Hi Hnot.
    destruct (index_MODES_valid idx Hi) as [m Hm].
    destruct (setMode_fires idx m s W Hm Hnot)
      as (s' & Hs' & _ & _ & _ & _ & Htargets & _).
    exists s'. split; [exact Hs'|]. intros i Hlt.
    destruct (Htargets i Hlt) as [-> _]. rewrite Ho.
    apply sampled_override.
  - intros Ho.
    destruct (triggerColorTransition_spec s W)
      as (m & s' & _ & Hs' & _ & _ & _ & _ & _ & Htargets).
    exists s'. split; [exact Hs'|]. intros i Hlt.
    destruct (Htargets i Hlt) as [-> _]. rewrite Ho.
    apply sampled_override.
  - unfold pickColor.
    destruct (triggerColorTransition_spec (set_colorOverride (Some h) s)
                (wf_set_colorOverride (Some h) s W))
      as (m & s' & _ & Hs' & _ & _ & _ & _ & Ho & Htargets).
    exists s'. split; [exact Hs'|]. split; [exact Ho|].
    intros i Hlt. destruct (Htargets i Hlt) as [-> _].
      apply sampled_override.
Qed.

End UnitDraws.

(** *** The burst, in full *)

Lemma burstHit_true (dx dy : R) :
  burstHit dx dy = true <-> dx * dx + dy * dy < 12 * 12.
Proof. unfold burstHit. apply Rltb_true. Qed.

Lemma hitsBefore_le (pos : Float32Array) (wx wy : R) (n : nat) :
  (hitsBefore pos wx wy n <= n)%nat.
Proof.
  induction n as [|n IH]; simpl; [lia|].
  destruct (burstHitAt pos wx wy n); lia.
Qed.

(** One call of [burstAt] on a well-formed state: it returns; positions are
    not written; a particle that passes the test receives [burstDelta] for
    a draw of its own, the others keep their velocity; the sound engine
    receives one call of [triggerBurst]. *)
Lemma burstAt_spec (wx wy : R) (push : bool) (s : State) :
  wf_State s ->
  exists s',
    burstAt wx wy push s = Ok s' /\
    positions s' = positions s /\
    audioCalls s' = call_triggerBurst :: audioCalls s /\
    AmbientSound.triggerBurst random (audio s)
      (rng s + hitsBefore (positions s) wx wy COUNT)
    = Ok (audio s', rng s') /\
    forall i, (i < COUNT)%nat ->
      read3 (velocities s') i =
      if burstHitAt (positions s) wx wy i then
        add3 (read3 (velocities s) i)
          (burstDelta push (positions s !!! (i * 3)%nat - wx)
             (positions s !!! (i * 3 + 1)%nat - wy)
             (random (rng s + hitsBefore (positions s) wx wy i)))
      else read3 (velocities s) i.
Proof.
  intros W. unfold burstAt.
  destruct (burstLoop_spec (positions s) wx wy push (velocities s) (rng s)
              COUNT (wf_velocities s W) (le_n _))
    as (vel' & -> & Hv' & Hread).
  cbv zeta.
  set (s1 := set_motion (positions s) vel' _ s).
  assert (wf_State s1) as W1.
  { apply wf_set_motion; auto. apply (wf_positions s W). }
  destruct (triggerBurst_ok (audio s1) (rng s1) (wf_engine s1 W1))
    as (a' & n' & Hcall & _).
  rewrite Hcall. simpl bind. eexists. split; [reflexivity|].
  cbn [positions velocities audioCalls audio rng set_audio set_motion s1
       fst snd].
  split; [reflexivity|]. split; [reflexivity|]. split; [exact Hcall|].
  intros i Hi. rewrite Hread.
  destruct (decide (i < COUNT)%nat); [reflexivity|lia].
Qed.

(** The loop of [burstAt] reads the x and y of the positions only. *)
Lemma burstLoop_depth_blind (pos1 pos2 : Float32Array) (wx wy : R)
  (push : bool) (st : Float32Array * nat) (n : nat) :
  (forall i, (i < n)%nat ->
     pos1 !!! (i * 3)%nat = pos2 !!! (i * 3)%nat /\
     pos1 !!! (i * 3 + 1)%nat = pos2 !!! (i * 3 + 1)%nat) ->
  for_loop n (burstBody pos1 wx wy push) st
  = for_loop n (burstBody pos2 wx wy push) st.
Proof.
  induction n as [|n IH]; intros Hxy; simpl; [reflexivity|].
  rewrite IH by (intros i Hi; apply Hxy; lia).
  destruct (Hxy n) as [Hx Hy]; [lia|].
  unfold burstBody. destruct (for_loop n _ st) as [vel c].
  cbv zeta. now rewrite Hx, Hy.
Qed.

(** C7 (burst).  Every call of the burst returns and makes exactly one call
    to the impact cue of the sound engine, whatever the particles; and every
    particle whose squared lateral distance from the burst point is below
    radius^2 = 12^2 receives the velocity delta of strength
    (1 - distSq/radius^2) * (pushing ? -3 : 3) along the vector (dx, dy)
    from the burst point to the particle divided by (sqrt distSq + 0.5),
    and on the depth axis (r - 0.5) * |strength| * 0.3 for a fresh draw r.
    At distance 6 the strength is 2.25 when not pushing (the delta is a
    positive multiple of (dx, dy): away from the burst point) and -2.25
    when pushing. *)
Theorem burst_impulse (wx wy : R) (push : bool) (s : State) :
  wf_State s ->
  exists s',
    burstAt wx wy push s = Ok s' /\
    audioCalls s' = call_triggerBurst :: audioCalls s /\
    (exists n, AmbientSound.triggerBurst random (audio s) n
               = Ok (audio s', rng s')) /\
    forall i, (i < COUNT)%nat ->
      let dx := positions s !!! (i * 3)%nat - wx in
      let dy := positions s !!! (i * 3 + 1)%nat - wy in
      let distSq := dx * dx + dy * dy in
      let strength := (1 - distSq / (12 * 12)) * (if push then -3 else 3) in
      distSq < 12 * 12 ->
      (exists k, (rng s <= k < rng s + COUNT)%nat /\
         read3 (velocities s') i =
         add3 (read3 (velocities s) i)
           (dx / (sqrt distSq + 0.5) * strength,
            dy / (sqrt distSq + 0.5) * strength,
            (random k - 0.5) * Rabs strength * 0.3)) /\
      (distSq = 6 * 6 ->
       strength = (if push then -2.25 else 2.25) /\
       dx / (sqrt distSq + 0.5) * strength
       = (if push then -2.25 else 2.25) / 6.5 * dx /\
       dy / (sqrt distSq + 0.5) * strength
       = (if push then -2.25 else 2.25) / 6.5 * dy).
Proof.
  intros W.
  destruct (burstAt_spec wx wy push s W)
    as (s' & Hs' & _ & Hcalls & Hcue & Hvel).
  exists s'. split; [exact Hs'|]. split; [exact Hcalls|].
  split; [eexists; exact Hcue|].
  intros i Hi dx dy distSq strength Hnear. split.
  - exists (rng s + hitsBefore (positions s) wx wy i)%nat. split.
    + pose proof (hitsBefore_le (positions s) wx wy i). lia.
    + rewrite (Hvel i Hi). unfold burstHitAt.
      assert (burstHit dx dy = true) as Hhit by now apply burstHit_true.
      fold dx dy. rewrite Hhit. reflexivity.
  - intros H6. unfold strength. rewrite H6.
    rewrite sqrt_square by lra.
    destruct push; repeat split; lra.
Qed.

(** C10 (the burst is lateral).  A particle is affected by the burst
    exactly when the squared distance of its x and y from the burst point
    is below radius^2: if so its x and y velocities receive the delta, which
    is made of dx and dy only, and its z velocity receives
    (r - 0.5) * |strength| * 0.3, a multiple of the centred draw r - 0.5 by
    a factor made of dx and dy only; if not, its velocity is unchanged.
    Positions that differ in depth only give the same velocities, the same
    number of draws and the same state of the sound engine. *)
Theorem burst_lateral (wx wy : R) (push : bool) (s : State) :
  wf_State s ->
  exists s',
    burstAt wx wy push s = Ok s' /\
    (forall i, (i < COUNT)%nat ->
       let dx := positions s !!! (i * 3)%nat - wx in
       let dy := positions s !!! (i * 3 + 1)%nat - wy in
       let distSq := dx * dx + dy * dy in
       let strength := (1 - distSq / (12 * 12)) * (if push then -3 else 3) in
       (burstHitAt (positions s) wx wy i = true <-> distSq < 12 * 12) /\
       (distSq < 12 * 12 ->
        exists k, (rng s <= k < rng s + COUNT)%nat /\
          read3 (velocities s') i =
          add3 (read3 (velocities s) i)
            (dx / (sqrt distSq + 0.5) * strength,
             dy / (sqrt distSq + 0.5) * strength,
             (random k - 0.5) * Rabs strength * 0.3)) /\
       (~ distSq < 12 * 12 ->
        read3 (velocities s') i = read3 (velocities s) i)) /\
    (forall pos2 : Float32Array,
       length pos2 = (COUNT * 3)%nat ->
       (forall i, (i < COUNT)%nat ->
          pos2 !!! (i * 3)%nat = positions s !!! (i * 3)%nat /\
          pos2 !!! (i * 3 + 1)%nat = positions s !!! (i * 3 + 1)%nat) ->
       exists s2',
         burstAt wx wy push (set_motion pos2 (velocities s) (rng s) s)
         = Ok s2' /\
         velocities s2' = velocities s' /\ rng s2' = rng s' /\
         audio s2' = audio s').
Proof.
  intros W.
  destruct (burstAt_spec wx wy push s W)
    as (s' & Hs' & _ & Hcalls & Hcue & Hvel).
  exists s'. split; [exact Hs'|]. split.
  - intros i Hi dx dy distSq strength.
    split; [apply burstHit_true|]. split.
    + intros Hnear.
      exists (rng s + hitsBefore (positions s) wx wy i)%nat. split.
      * pose proof (hitsBefore_le (positions s) wx wy i). lia.
      * rewrite (Hvel i Hi). unfold burstHitAt.
        assert (burstHit dx dy = true) as Hhit by now apply burstHit_true.
        fold dx dy. rewrite Hhit. reflexivity.
    + intros Hfar. rewrite (Hvel i Hi). unfold burstHitAt. fold dx dy.
      destruct (burstHit dx dy) eqn:Hhit; [|reflexivity].
      apply burstHit_true in Hhit. contradiction.
  - intros pos2 Hlen Hxy.
    revert Hs'. unfold burstAt.
    cbn [positions velocities rng audio set_motion].
    rewrite (burstLoop_depth_blind pos2 (positions s) wx wy push
               (velocities s, rng s) COUNT Hxy).
    destruct (for_loop COUNT _ _) as [vel' n']. cbv zeta.
    cbn [positions velocities rng audio set_motion].
    destruct (AmbientSound.triggerBurst random (audio s) n') as [an|];
      simpl bind; [|discriminate].
    intros [= <-]. eexists. split; [reflexivity|]. auto.
Qed.

(** *** Requests that are ignored *)

(** C8 (invalid mode index).  A transition request with an integer index
    outside [0, number of modes) returns the state as it was: settled and
    target index, blend fraction, every buffer, the sound engine and the
    trace of the calls made to it (no cue is requested). *)
Theorem invalid_mode_ignored (idx : Z) (s : State) :
  (idx < 0 \/ idx >= Z.of_nat (length MODES))%Z ->
  setMode idx s = Ok s.
Proof.
  intros Hidx. unfold setMode.
  assert (((idx <? 0) || (idx >=? Z.of_nat (length MODES)))%Z = true) as ->.
  { apply orb_true_iff. rewrite Z.ltb_lt, Z.geb_leb, Z.leb_le. lia. }
  reflexivity.
Qed.

(** C9 (sound engine not ready).  When the audio graph has not been built
    or the engine is not enabled, the burst cue and the recolour cue return
    the engine as it was, and the mode change returns it with the new mode
    index stored and nothing else changed: no voice is started, no drone is
    retuned, no draw is made and no exception is raised. *)
Theorem cues_are_noops_when_silent (a : AmbientSound.t) (n : nat) :
  AmbientSound.ctx a = None \/ AmbientSound._enabled a = false ->
  AmbientSound.triggerBurst random a n = Ok (a, n) /\
  AmbientSound.triggerColorChange random a n = Ok (a, n) /\
  forall idx,
    AmbientSound.setMode random idx a n
    = Ok (AmbientSound.set_currentMode idx a, n) /\
    AmbientSound.ctx (AmbientSound.set_currentMode idx a)
    = AmbientSound.ctx a /\
    AmbientSound.drones (AmbientSound.set_currentMode idx a)
    = AmbientSound.drones a.
Proof.
  intros Hsilent.
  unfold AmbientSound.triggerBurst, AmbientSound.triggerColorChange,
    AmbientSound.setMode.
  cbn [AmbientSound.ctx AmbientSound._enabled AmbientSound.drones
       AmbientSound.set_currentMode].
  destruct (AmbientSound.ctx a) as [c|].
  - destruct Hsilent as [Hc| ->]; [discriminate|]. simpl. auto.
  - auto.
Qed.

(** *** The positions of every reachable state *)

Lemma Math_pow_unit (x y : R) :
  0 <= x < 1 -> 0 < y -> 0 <= Math_pow x y <= 1.
Proof.
  intros Hx Hy. unfold Math_pow, Reqb.
  destruct (Req_dec_T x 0) as [_|Hne]; [lra|].
  unfold Rpower. pose proof (exp_pos (y * ln x)) as Hpos.
  assert (ln x < 0) as Hln.
  { rewrite <- ln_1. apply ln_increasing; lra. }
  assert (exp (y * ln x) < exp 0) as Hlt by (apply exp_increasing; nra).
  rewrite exp_0 in Hlt. lra.
Qed.

Lemma product_within (r s c : R) :
  0 <= r -> -1 <= s <= 1 -> -1 <= c <= 1 -> - r <= r * s * c <= r.
Proof.
  intros Hr Hs Hc.
  assert (-1 <= s * c <= 1) as Hsc by (split; nra).
  rewrite Rmult_assoc. split; nra.
Qed.

Section UnitDrawsAtStart.

(** [Math.random()] returns a number in [0, 1). *)
Hypothesis random_unit : forall k, 0 <= random k < 1.

(** A particle just randomized with scatter 1 is within the lateral bounds
    and the depth range of its mode. *)
Lemma randomizeParticle_inBounds (i : nat) (m : Mode) (s : State) :
  wf_State s -> (i < COUNT)%nat -> 0 <= depthRange m ->
  inBounds (depthRange m) (particle (randomizeParticle i m 1.0 s) i).
Proof.
  intros W Hi Hd. unfold randomizeParticle.
  destruct (sampleHSL _ _ _ _ _) as [[hue sat] light].
  unfold particle. cbn [positions velocities].
  set (r := Math_pow (random (rng s + 2)) 0.6 * BOUNDS * 1.0).
  set (phi := acos (2 * random (rng s + 1) - 1)).
  set (theta := random (rng s) * PI * 2).
  assert (i * 3 + 2 < length (positions s))%nat as Hp
    by (rewrite (wf_positions s W); lia).
  assert (i * 3 + 2 < length (velocities s))%nat as Hv
    by (rewrite (wf_velocities s W); lia).
  pose proof (readParticle_write3_same (positions s) (velocities s) i
                {| px := r * sin phi * cos theta;
                   py := r * sin phi * sin theta;
                   pz := (random (rng s + 3) - 0.5) * depthRange m * 2;
                   vx := (random (rng s + 4) - 0.5) * 0.3;
                   vy := (random (rng s + 5) - 0.5) * 0.3;
                   vz := (random (rng s + 6) - 0.5) * 0.1 |} Hp Hv) as E.
  cbn [px py pz vx vy vz] in E. rewrite E. clear E.
  unfold inBounds. cbn [px py pz].
  assert (0 <= r <= BOUNDS) as Hr.
  { unfold r, BOUNDS.
    assert (0 < 0.6) as H06 by lra.
    pose proof (Math_pow_unit (random (rng s + 2)) 0.6
                  (random_unit _) H06) as Hpow.
    split; nra. }
  pose proof (SIN_bound phi). pose proof (COS_bound theta).
  pose proof (SIN_bound theta).
  pose proof (product_within r (sin phi) (cos theta)).
  pose proof (product_within r (sin phi) (sin theta)).
  pose proof (random_unit (rng s + 3)).
  repeat split; try nra; lra.
Qed.

Lemma randomizeParticle_other (i j : nat) (m : Mode) (sc : R) (s : State) :
  i <> j ->
  particle (randomizeParticle i m sc s) j = particle s j.
Proof.
  intros Hij. unfold randomizeParticle.
  destruct (sampleHSL _ _ _ _ _) as [[hue sat] light].
  unfold particle. cbn [positions velocities].
  apply (readParticle_write3_other (positions s) (velocities s) i j
           {| px := _; py := _; pz := _; vx := _; vy := _; vz := _ |} Hij).
Qed.

(** Every particle of the initial state is within the bounds of void. *)
Lemma initial_inBounds (i : nat) :
  (i < COUNT)%nat -> inBounds (depthRange void) (particle initial i).
Proof.
  unfold initial.
  assert (forall n, (n <= COUNT)%nat ->
            wf_State
              (for_loop n (fun i s => randomizeParticle i void 1.0 s)
                 declared) /\
            ((i < n)%nat ->
             inBounds (depthRange void)
               (particle
                  (for_loop n (fun i s => randomizeParticle i void 1.0 s)
                     declared) i))) as H.
  { induction n as [|n IH]; intros Hn; simpl.
    - split; [exact wf_declared|lia].
    - destruct IH as [W IH]; [lia|].
      split; [now apply wf_randomizeParticle|]. intros Hi.
      destruct (decide (i = n)) as [->|Hne].
      + apply randomizeParticle_inBounds; [exact W|lia|simpl; lra].
      + rewrite randomizeParticle_other by auto. apply IH. lia. }
  intros Hi. now apply (H COUNT (le_n _)).
Qed.

(** Events other than frames do not write positions. *)
Lemma precomputeTargets_positions (m : Mode) (s : State) :
  positions (precomputeTargets m s) = positions s.
Proof.
  unfold precomputeTargets.
  now destruct (for_loop COUNT _ _) as [[[tc ts] tmp] n].
Qed.

Lemma setMode_positions (idx : Z) (s s' : State) :
  setMode idx s = Ok s' -> positions s' = positions s.
Proof.
  unfold setMode, updateModeUI.
  destruct (_ || _)%bool; [now intros [= <-]|].
  destruct (_ && _)%bool; [now intros [= <-]|].
  destruct (index MODES idx) as [m|]; simpl; [|discriminate].
  destruct (AmbientSound.setMode _ _ _ _) as [an|]; simpl; [|discriminate].
  intros [= <-]. cbn [positions set_audio set_ui].
  now rewrite precomputeTargets_positions.
Qed.

Lemma triggerColorTransition_positions (s s' : State) :
  triggerColorTransition s = Ok s' -> positions s' = positions s.
Proof.
  unfold triggerColorTransition.
  destruct (index MODES _) as [m|]; simpl; [|discriminate].
  destruct (AmbientSound.triggerColorChange _ _ _) as [an|]; simpl;
    [|discriminate].
  intros [= <-]. cbn [positions set_audio].
  destruct (Rgeb _ 1); cbn [positions set_blend];
    now rewrite precomputeTargets_positions.
Qed.

Lemma ensureAudio_positions (s s' : State) :
  ensureAudio s = Ok s' ->
  positions s' = positions s /\ mouseWorld s' = mouseWorld s.
Proof.
  unfold ensureAudio. destruct (_ && _)%bool; [|now intros [= <-]].
  destruct (AmbientSound.toggle _ _ _ _) as [r|]; simpl; [|discriminate].
  now intros [= <-].
Qed.

Lemma soundToggleClick_positions (s s' : State) :
  soundToggleClick s = Ok s' -> positions s' = positions s.
Proof.
  unfold soundToggleClick. destruct (_ && _)%bool; [now intros [= <-]|].
  destruct (_ && _)%bool;
    (destruct (AmbientSound.toggle _ _ _ _) as [r|]; simpl; [|discriminate]);
    now intros [= <-].
Qed.

Lemma burstAt_positions (wx wy : R) (push : bool) (s s' : State) :
  burstAt wx wy push s = Ok s' -> positions s' = positions s.
Proof.
  unfold burstAt. destruct (for_loop COUNT _ _) as [vel n]. cbv zeta.
  destruct (AmbientSound.triggerBurst _ _ _) as [an|]; simpl; [|discriminate].
  now intros [= <-].
Qed.

Lemma handle_positions (e : Event) (s s' : State) :
  (forall elapsed, e <> ev_frame elapsed) ->
  handle e s = Ok s' -> positions s' = positions s.
Proof.
  intros Hframe. destruct e; simpl handle;
    try (now intros [= <-]).
  - now destruct (Hframe elapsed).
  - apply setMode_positions.
  - intros H. now apply triggerColorTransition_positions in H.
  - apply soundToggleClick_positions.
  - destruct (ensureAudio s) as [s1|] eqn:H1; simpl; [|discriminate].
    apply ensureAudio_positions in H1 as [H1 _].
    destruct (mouseActive _); [|now intros [= <-]].
    intros H. apply burstAt_positions in H. now rewrite H.
  - destruct (ensureAudio s) as [s1|] eqn:H1; simpl; [|discriminate].
    apply ensureAudio_positions in H1 as [H1 _].
    intros H. apply burstAt_positions in H. now rewrite H.
  - destruct k; try (now intros [= <-]).
    destruct (_ && _)%bool; [apply setMode_positions|now intros [= <-]].
  - destruct k; now intros [= <-].
Qed.

(** The reachable states: every particle is within [-40, 40] on each axis,
    40 being both [BOUNDS] and the largest depth range of the table. *)
Lemma reachable_inBounds (es : list Event) (s : State) (i : nat) :
  Forall timely es -> run es initial = Ok s -> (i < COUNT)%nat ->
  inBounds 40 (particle s i).
Proof.
  intros Hes Hrun Hi.
  assert (forall s0,
            wf_State s0 -> inBounds 40 (particle s0 i) ->
            run es s0 = Ok s -> inBounds 40 (particle s i)) as H.
  { clear Hrun. induction Hes as [|e es He Hes IH]; intros s0 W0 B0.
    - now intros [= <-].
    - simpl. destruct (handle_ok e s0 He W0) as (s1 & H1 & W1).
      rewrite H1. simpl. apply IH; [exact W1|].
      destruct e; try (apply handle_positions in H1; [|discriminate];
                       unfold inBounds, particle, readParticle in *;
                       cbn [px py pz] in *; now rewrite H1).
      destruct (getActiveMode_ok s0 W0) as (m & Hm & Hd).
      destruct (updateParticles_spec (Rmin (elapsed / 1000) 0.05) s0 m W0 Hm)
        as (s1' & Hs1' & _ & _ & _ & _ & Hstep).
      simpl in H1. unfold animate in H1. rewrite Hs1' in H1.
      injection H1 as <-. rewrite (Hstep i Hi).
      pose proof (particleStep_inBounds m
                    (mouseStrength m (mouseDown s0) (mouseActive s0)
                       (repelling s0))
                    (mouseWorld s0) (Rmin (elapsed / 1000) 0.05)
                    (random (rng s0 + 3 * i)) (random (rng s0 + 3 * i + 1))
                    (random (rng s0 + 3 * i + 2)) (particle s0 i)) as B.
      unfold inBounds in *. lra. }
  apply (H initial wf_initial); [|exact Hrun].
  apply (initial_inBounds i Hi).
Qed.

End UnitDrawsAtStart.

(** ** Further properties of the code *)

(** *** What the events never write *)

Ltac crack_handler :=
  unfold setMode, updateModeUI, pickColor, triggerColorTransition,
    ensureAudio, soundToggleClick, burstAt, animate, updateParticles,
    precomputeTargets, blendStep, bind, deref;
  repeat match goal with
         | |- context [match ?x with _ => _ end] => destruct x
         end;
  try discriminate;
  try (intros [= <-]; cbn; auto).

Lemma ensureAudio_scene (s s' : State) :
  ensureAudio s = Ok s' ->
  sameScene s s' /\ velocities s' = velocities s /\
  mouseActive s' = mouseActive s /\ mouseWorld s' = mouseWorld s /\
  repelling s' = repelling s.
Proof. unfold sameScene. crack_handler; repeat split. Qed.

Lemma soundToggleClick_scene (s s' : State) :
  soundToggleClick s = Ok s' ->
  sameScene s s' /\ velocities s' = velocities s.
Proof. unfold sameScene. crack_handler; repeat split. Qed.

Lemma setMode_scene (idx : Z) (s s' : State) :
  setMode idx s = Ok s' ->
  sameScene s s' /\ velocities s' = velocities s.
Proof. unfold sameScene. crack_handler; repeat split. Qed.

Lemma triggerColorTransition_scene (s s' : State) :
  triggerColorTransition s = Ok s' ->
  sameScene s s' /\ velocities s' = velocities s.
Proof. unfold sameScene. crack_handler; repeat split. Qed.

Lemma burstAt_scene (wx wy : R) (push : bool) (s s' : State) :
  burstAt wx wy push s = Ok s' -> sameScene s s'.
Proof. unfold sameScene. crack_handler; repeat split. Qed.

Lemma updateParticles_alphas (dt : R) (s s' : State) :
  updateParticles dt s = Ok s' -> alphas s' = alphas s.
Proof. crack_handler. Qed.

Lemma handle_scene (e : Event) (s s' : State) :
  handle e s = Ok s' -> isFrame e = false ->
  sameScene s s' /\ (isPress e = false -> velocities s' = velocities s).
Proof.
  destruct e; simpl handle; simpl isFrame; simpl isPress;
    try discriminate; intros H _;
    try (injection H as <-; unfold sameScene; cbn; now auto).
  - apply setMode_scene in H as [H1 H2]. auto.
  - apply triggerColorTransition_scene in H as [H1 H2]. auto.
  - apply soundToggleClick_scene in H as [H1 H2]. auto.
  - split; [|discriminate].
    destruct (ensureAudio s) as [s1|] eqn:E; simpl in H; [|discriminate].
    apply ensureAudio_scene in E as ((Ep & Ec & Es & Ea) & _).
    destruct (mouseActive s1).
    + apply burstAt_scene in H as (Hp & Hc & Hs & Ha). cbn in *.
      unfold sameScene. repeat split; congruence.
    + injection H as <-. unfold sameScene. cbn. auto.
  - split; [|discriminate].
    destruct (ensureAudio s) as [s1|] eqn:E; simpl in H; [|discriminate].
    apply ensureAudio_scene in E as ((Ep & Ec & Es & Ea) & _).
    apply burstAt_scene in H as (Hp & Hc & Hs & Ha). cbn in *.
    unfold sameScene. repeat split; congruence.
  - destruct k; try (injection H as <-; unfold sameScene; cbn; now auto).
    destruct (_ && _)%bool.
    + apply setMode_scene in H as [H1 H2]. auto.
    + injection H as <-. unfold sameScene. auto.
  - destruct k; injection H as <-; unfold sameScene; cbn; auto.
Qed.

Lemma handle_alphas (e : Event) (s s' : State) :
  handle e s = Ok s' -> alphas s' = alphas s.
Proof.
  destruct (isFrame e) eqn:F.
  - destruct e; try discriminate. apply updateParticles_alphas.
  - intros H. now apply (handle_scene e s s' H F).
Qed.

(** X1 (alpha is static).  Whatever the events of a run (frames, transition
    and recolour requests, bursts, pointer and key events), the alpha of
    every particle is the one it was given at initialisation: no handler
    writes the alpha buffer. *)
Theorem alphas_are_static (es : list Event) (s s' : State) :
  run es s = Ok s' -> alphas s' = alphas s.
Proof.
  revert s. induction es as [|e es IH]; intros s; simpl.
  - now intros [= <-].
  - destruct (handle e s) as [s1|] eqn:H; simpl; [|discriminate].
    intros Hrun. rewrite (IH s1 Hrun). now apply (handle_alphas e s).
Qed.

(** X2 (who moves the particles).  An event that is not a frame leaves the
    positions, the colours and the sizes of all particles as they were (so a
    transition or recolour request changes the targets only, and the colours
    start to move at the next frame); and unless it presses the pointer, which
    bursts, it leaves the velocities too. *)
Theorem only_frames_move_particles (e : Event) (s s' : State) :
  handle e s = Ok s' -> isFrame e = false ->
  positions s' = positions s /\ colors s' = colors s /\
  sizes s' = sizes s /\
  (isPress e = false -> velocities s' = velocities s).
Proof.
  intros H F. destruct (handle_scene e s s' H F) as ((Hp & Hc & Hs & _) & Hv).
  auto.
Qed.

(** *** Runs, and the active mode *)

(** X3 (no exception, buffers intact).  From the initial state no sequence
    of events raises a TypeError (frames having a non-negative elapsed time),
    and in the state it leads to every buffer has the length it was allocated
    with, the settled and the target index are indices of modes and the blend
    fraction is in [0, 1]. *)
Theorem events_never_raise (es : list Event) :
  Forall timely es ->
  exists s,
    run es initial = Ok s /\
    length (positions s) = (COUNT * 3)%nat /\
    length (velocities s) = (COUNT * 3)%nat /\
    length (colors s) = (COUNT * 3)%nat /\
    length (sizes s) = COUNT /\
    length (alphas s) = COUNT /\
    length (targetColors s) = (COUNT * 3)%nat /\
    length (targetSizes s) = COUNT /\
    (0 <= currentMode s < 5)%Z /\ (0 <= targetMode s < 5)%Z /\
    0 <= modeBlend s <= 1.
Proof.
  intros Hes. destruct (run_ok es initial Hes wf_initial) as (s & Hrun & W).
  exists s. destruct W as [? ? ? ? ? ? ? Hc Ht Hb ?].
  unfold valid_mode in Hc, Ht. simpl in Hc, Ht.
  repeat split; try assumption; try lia; lra.
Qed.

Lemma table_ranges (i : Z) (m : Mode) :
  index MODES i = Some m ->
  0.982 <= damping m <= 0.996 /\ 4 <= mouseForce m <= 18 /\
  0.005 <= drift m <= 0.04 /\ 0.0002 <= centerPull m <= 0.003 /\
  8 <= equilibrium m <= 18 /\ 0 <= swirl m <= 0.02 /\
  1.2 <= bloom m <= 2.8 /\ 12 <= depthRange m <= 40.
Proof.
  intros H. apply index_MODES_inv in H as [_ H].
  destruct H as [->|[->|[->|[->| ->]]]]; simpl; repeat split; lra.
Qed.

(** In a well-formed state the active mode has its force parameters between
    the smallest and the largest value of the table. *)
Lemma getActiveMode_ranges (s : State) :
  wf_State s ->
  exists m,
    getActiveMode s = Ok m /\
    0.982 <= damping m <= 0.996 /\ 4 <= mouseForce m <= 18 /\
    0.005 <= drift m <= 0.04 /\ 0.0002 <= centerPull m <= 0.003 /\
    8 <= equilibrium m <= 18 /\ 0 <= swirl m <= 0.02 /\
    1.2 <= bloom m <= 2.8 /\ 12 <= depthRange m <= 40.
Proof.
  intros W. unfold getActiveMode.
  destruct (index_MODES_valid _ (wf_currentMode s W)) as [a Ha].
  destruct (index_MODES_valid _ (wf_targetMode s W)) as [b Hb].
  rewrite Ha, Hb. cbn [deref bind].
  pose proof (table_ranges _ _ Ha) as (A1 & A2 & A3 & A4 & A5 & A6 & A7 & A8).
  pose proof (table_ranges _ _ Hb) as (B1 & B2 & B3 & B4 & B5 & B6 & B7 & B8).
  pose proof (wf_modeBlend s W) as Ht.
  destruct (Rgeb (modeBlend s) 1).
  - exists a. repeat split; lra.
  - eexists. split; [reflexivity|].
    cbn [damping mouseForce drift centerPull equilibrium swirl bloom
         depthRange].
    split; [now apply lerp_between|]. split; [now apply lerp_between|].
    split; [now apply lerp_between|]. split; [now apply lerp_between|].
    split; [now apply lerp_between|]. split; [now apply lerp_between|].
    split; now apply lerp_between.
Qed.

(** X4 (a request starts from the settled physics).  Right after a
    transition request that is not ignored, whatever the blend in flight was,
    the active mode has the force parameters of the settled mode (the
    interpolation restarts at fraction 0) and the name, description and
    colour and size ranges of the requested mode. *)
Theorem request_restarts_from_settled (idx : Z) (s : State) :
  valid_mode idx -> wf_State s ->
  ~ (idx = currentMode s /\ modeBlend s >= 1) ->
  exists a b s' m,
    index MODES (currentMode s) = Some a /\
    index MODES idx = Some b /\
    setMode idx s = Ok s' /\
    getActiveMode s' = Ok m /\
    damping m = damping a /\ mouseForce m = mouseForce a /\
    drift m = drift a /\ centerPull m = centerPull a /\
    equilibrium m = equilibrium a /\ swirl m = swirl a /\
    bloom m = bloom a /\ depthRange m = depthRange a /\
    name m = name b /\ desc m = desc b /\
    hueRange m = hueRange b /\ satRange m = satRange b /\
    lightRange m = lightRange b /\ sizeRange m = sizeRange b.
Proof.
  intros Hi W Hnot.
  destruct (index_MODES_valid _ (wf_currentMode s W)) as [a Ha].
  destruct (index_MODES_valid idx Hi) as [b Hb].
  destruct (setMode_fires idx b s W Hb Hnot)
    as (s' & Hs' & Hblend & Htgt & Hcur & _).
  exists a, b, s'. eexists.
  split; [exact Ha|]. split; [exact Hb|]. split; [exact Hs'|].
  unfold getActiveMode. rewrite Hblend, Htgt, Hcur, Ha, Hb.
  assert (Rgeb 0 1 = false) as -> by (apply Rgeb_false; lra).
  cbn [deref bind]. split; [reflexivity|].
  cbn [damping mouseForce drift centerPull equilibrium swirl bloom
       depthRange name desc hueRange satRange lightRange sizeRange].
  unfold lerp. repeat split; ring.
Qed.

(** X5 (no interaction between particles).  The particle [i] after a call
    of [updateParticles] is made of the particle [i] before it, the active
    mode, the pointer and the draws only: replacing the positions and
    velocities of all the other particles changes nothing for it. *)
Theorem particles_do_not_interact (dt : R) (s : State)
  (pos2 vel2 : Float32Array) (i : nat) :
  wf_State s -> (i < COUNT)%nat ->
  length pos2 = (COUNT * 3)%nat -> length vel2 = (COUNT * 3)%nat ->
  readParticle pos2 vel2 i = particle s i ->
  exists s' s2',
    updateParticles dt s = Ok s' /\
    updateParticles dt (set_motion pos2 vel2 (rng s) s) = Ok s2' /\
    particle s2' i = particle s' i.
Proof.
  intros W Hi Hp2 Hv2 Hsame.
  destruct (getActiveMode_ok s W) as (m & Hm & _).
  destruct (updateParticles_spec dt s m W Hm)
    as (s' & Hs' & _ & _ & _ & _ & Hstep).
  assert (wf_State (set_motion pos2 vel2 (rng s) s)) as W2
    by now apply wf_set_motion.
  destruct (updateParticles_spec dt (set_motion pos2 vel2 (rng s) s) m W2 Hm)
    as (s2' & Hs2' & _ & _ & _ & _ & Hstep2).
  exists s', s2'. split; [exact Hs'|]. split; [exact Hs2'|].
  rewrite (Hstep i Hi), (Hstep2 i Hi).
  unfold particle at 1. cbn [positions velocities set_motion mouseDown
    mouseActive repelling mouseWorld rng].
  now rewrite Hsame.
Qed.

(** *** The forces of one step *)

Lemma ratio_le_one (a S c : R) :
  a * a <= S -> 0 < c -> Rabs (a / (sqrt S + c)) <= 1.
Proof.
  intros Ha Hc.
  assert (0 <= S) as HS by nra.
  assert (Rabs a <= sqrt S) as Hle.
  { rewrite <- sqrt_Rsqr_abs. apply sqrt_le_1_alt. unfold Rsqr. exact Ha. }
  pose proof (sqrt_pos S) as Hs. pose proof (Rabs_pos a) as Hpos.
  unfold Rdiv. rewrite Rabs_mult, Rabs_inv, (Rabs_right (sqrt S + c)) by lra.
  apply (Rmult_le_reg_r (sqrt S + c)); [lra|].
  rewrite Rmult_assoc, Rinv_l by lra. lra.
Qed.


Lemma scaled_le (u f : R) : Rabs u <= 1 -> Rabs (u * f) <= Rabs f.
Proof.
  intros Hu. rewrite Rabs_mult. pose proof (Rabs_pos f). pose proof (Rabs_pos u).
  nra.
Qed.

(** The pull of the centre on each axis is at most the pull force. *)
Lemma centerPullStep_delta (m : Mode) (p : Particle) :
  0 <= centerPull m ->
  let f := centerPull m * Rabs (distanceFromOrigin p + 0.1 - equilibrium m) in
  Rabs (vx (centerPullStep m p) - vx p) <= f /\
  Rabs (vy (centerPullStep m p) - vy p) <= f /\
  Rabs (vz (centerPullStep m p) - vz p) <= f.
Proof.
  intros Hcp f. unfold centerPullStep. cbn [vx vy vz].
  fold (distanceFromOrigin p).
  set (S := px p * px p + py p * py p + pz p * pz p).
  set (d := distanceFromOrigin p + 0.1).
  set (pull := centerPull m * (d - equilibrium m)).
  assert (Rabs pull = f) as Hpull.
  { unfold pull, f. rewrite Rabs_mult, (Rabs_right (centerPull m)) by lra.
    reflexivity. }
  assert (Rabs (px p / d) <= 1) as Hx
    by (apply ratio_le_one; [unfold S in *; nra|lra]).
  assert (Rabs (py p / d) <= 1) as Hy
    by (apply ratio_le_one; [unfold S in *; nra|lra]).
  assert (Rabs (pz p / d) <= 1) as Hz
    by (apply ratio_le_one; [unfold S in *; nra|lra]).
  rewrite <- Hpull. repeat split.
  - replace (vx p - px p / d * pull - vx p) with (- (px p / d) * pull) by ring.
    apply scaled_le. now rewrite Rabs_Ropp.
  - replace (vy p - py p / d * pull - vy p) with (- (py p / d) * pull) by ring.
    apply scaled_le. now rewrite Rabs_Ropp.
  - replace (vz p - pz p / d * pull * 0.3 - vz p)
      with (- (pz p / d) * pull * 0.3) by ring.
    rewrite Rabs_mult, (Rabs_right 0.3) by lra.
    assert (Rabs (- (pz p / d) * pull) <= Rabs pull)
      by (apply scaled_le; now rewrite Rabs_Ropp).
    pose proof (Rabs_pos pull). nra.
Qed.


(** The swirl, in full. *)
Lemma swirlStep_facts (m : Mode) (p : Particle) :
  (px (swirlStep m p) = px p /\ py (swirlStep m p) = py p /\
   pz (swirlStep m p) = pz p) /\
  vy (swirlStep m p) = vy p /\
  (vx (swirlStep m p) - vx p) * px p + (vz (swirlStep m p) - vz p) * pz p = 0 /\
  Rabs (vx (swirlStep m p) - vx p) <= Rmax (swirl m) 0 /\
  Rabs (vz (swirlStep m p) - vz p) <= Rmax (swirl m) 0.
Proof.
  unfold swirlStep. destruct (Rgtb (swirl m) 0) eqn:Hsw.
  - apply Rgtb_true in Hsw. cbn [px py pz vx vy vz].
    set (S := px p * px p + pz p * pz p).
    pose proof (sqrt_pos S) as HS.
    assert (Rabs (pz p / (sqrt S + 0.5)) <= 1) as Hz
      by (apply ratio_le_one; [unfold S; nra|lra]).
    assert (Rabs (px p / (sqrt S + 0.5)) <= 1) as Hx
      by (apply ratio_le_one; [unfold S; nra|lra]).
    rewrite Rmax_left by lra.
    split; [repeat split|]. split; [reflexivity|].
    split; [unfold Rdiv; field; lra|].
    split.
    + replace (vx p + - pz p / (sqrt S + 0.5) * swirl m - vx p)
        with (- (pz p / (sqrt S + 0.5)) * swirl m) by (unfold Rdiv; ring).
      eapply Rle_trans; [apply scaled_le; now rewrite Rabs_Ropp|].
      rewrite Rabs_right; lra.
    + replace (vz p + px p / (sqrt S + 0.5) * swirl m - vz p)
        with (px p / (sqrt S + 0.5) * swirl m) by ring.
      eapply Rle_trans; [apply scaled_le; exact Hx|].
      rewrite Rabs_right; lra.
  - split; [repeat split|]. split; [reflexivity|].
    replace (vx p - vx p) with 0 by ring. replace (vz p - vz p) with 0 by ring.
    rewrite Rabs_R0. pose proof (Rmax_r (swirl m) 0).
    split; [ring|]. split; lra.
Qed.

Lemma quarter_bound (a b : R) : 0 <= b -> Rabs (a / (a * a + b + 4)) <= / 4.
Proof.
  intros Hb.
  assert (0 < a * a + b + 4) as Hpos by nra.
  unfold Rdiv. rewrite Rabs_mult, Rabs_inv, (Rabs_right (a * a + b + 4)) by lra.
  apply (Rmult_le_reg_r (a * a + b + 4)); [lra|].
  rewrite Rmult_assoc, Rinv_l by lra.
  pose proof (Rle_0_sqr (a - 2)) as H1. pose proof (Rle_0_sqr (a + 2)) as H2.
  unfold Rsqr in H1, H2.
  unfold Rabs. destruct (Rcase_abs a); lra.
Qed.

(** The pointer adds at most |mf| * dt / 4 on each axis. *)
Lemma mouseStep_delta (mf : R) (mw : R * R * R) (dt : R) (p : Particle) :
  0 <= dt ->
  (px (mouseStep mf mw dt p) = px p /\ py (mouseStep mf mw dt p) = py p /\
   pz (mouseStep mf mw dt p) = pz p) /\
  Rabs (vx (mouseStep mf mw dt p) - vx p) <= Rabs mf * dt / 4 /\
  Rabs (vy (mouseStep mf mw dt p) - vy p) <= Rabs mf * dt / 4 /\
  Rabs (vz (mouseStep mf mw dt p) - vz p) <= Rabs mf * dt / 4.
Proof.
  intros Hdt. unfold mouseStep. destruct mw as [[mx my] mz].
  pose proof (Rabs_pos mf) as Hmf.
  destruct (Reqb mf 0).
  - split; [repeat split|].
    replace (vx p - vx p) with 0 by ring. replace (vy p - vy p) with 0 by ring.
    replace (vz p - vz p) with 0 by ring. rewrite Rabs_R0.
    repeat split; nra.
  - cbn [px py pz vx vy vz]. split; [repeat split|].
    set (dx := mx - px p). set (dy := my - py p). set (dz := mz - pz p).
    assert (forall a b, 0 <= b ->
              Rabs (a * (mf * dt / (a * a + b + 4))) <= Rabs mf * dt / 4)
      as Hone.
    { intros a b Hb. pose proof (quarter_bound a b Hb) as Hq.
      assert (0 < a * a + b + 4) as Hpos by nra.
      replace (a * (mf * dt / (a * a + b + 4)))
        with (a / (a * a + b + 4) * (mf * dt)) by (field; lra).
      rewrite Rabs_mult, (Rabs_mult mf dt), (Rabs_right dt) by lra.
      assert (0 <= Rabs mf * dt) as Ht by (apply Rmult_le_pos; lra).
      replace (Rabs mf * dt / 4) with (/ 4 * (Rabs mf * dt)) by lra.
      now apply Rmult_le_compat_r. }
    repeat split.
    + replace (vx p + dx * (mf * dt / (dx * dx + dy * dy + dz * dz + 4)) - vx p)
        with (dx * (mf * dt / (dx * dx + (dy * dy + dz * dz) + 4)))
        by (rewrite <- !Rplus_assoc; ring).
      apply Hone. nra.
    + replace (vy p + dy * (mf * dt / (dx * dx + dy * dy + dz * dz + 4)) - vy p)
        with (dy * (mf * dt / (dy * dy + (dx * dx + dz * dz) + 4))).
      * apply Hone. nra.
      * replace (dy * dy + (dx * dx + dz * dz) + 4)
          with (dx * dx + dy * dy + dz * dz + 4) by ring. ring.
    + replace (vz p + dz * (mf * dt / (dx * dx + dy * dy + dz * dz + 4)) * 0.2
               - vz p)
        with (dz * (mf * dt / (dz * dz + (dx * dx + dy * dy) + 4)) * 0.2).
      * rewrite Rabs_mult, (Rabs_right 0.2) by lra.
        pose proof (Hone dz (dx * dx + dy * dy) ltac:(nra)).
        pose proof (Rabs_pos (dz * (mf * dt / (dz * dz + (dx * dx + dy * dy) + 4)))).
        nra.
      * replace (dz * dz + (dx * dx + dy * dy) + 4)
          with (dx * dx + dy * dy + dz * dz + 4) by ring. ring.
Qed.

(** X7 (swirl is tangential).  The swirl leaves the position and the y
    velocity; what it adds to the velocity in the x-z plane is orthogonal to
    the position in that plane (rotation, no radial push) and at most the
    swirl coefficient on each axis; a mode whose swirl is not positive is not
    swirled at all. *)
Theorem swirl_is_tangential (m : Mode) (p : Particle) :
  (px (swirlStep m p) = px p /\ py (swirlStep m p) = py p /\
   pz (swirlStep m p) = pz p) /\
  vy (swirlStep m p) = vy p /\
  (vx (swirlStep m p) - vx p) * px p + (vz (swirlStep m p) - vz p) * pz p = 0 /\
  Rabs (vx (swirlStep m p) - vx p) <= Rmax (swirl m) 0 /\
  Rabs (vz (swirlStep m p) - vz p) <= Rmax (swirl m) 0 /\
  (swirl m <= 0 -> swirlStep m p = p).
Proof.
  destruct (swirlStep_facts m p) as (Hpos & Hy & Horth & Hx & Hz).
  split; [exact Hpos|]. split; [exact Hy|]. split; [exact Horth|].
  split; [exact Hx|]. split; [exact Hz|].
  intros Hsw. unfold swirlStep.
  assert (Rgtb (swirl m) 0 = false) as ->.
  { unfold Rgtb. destruct (Rgt_dec (swirl m) 0); [lra|reflexivity]. }
  reflexivity.
Qed.

Lemma driftStep_delta (m : Mode) (r1 r2 r3 : R) (p : Particle) :
  0 <= drift m -> 0 <= r1 <= 1 -> 0 <= r2 <= 1 -> 0 <= r3 <= 1 ->
  Rabs (vx (driftStep m r1 r2 r3 p) - vx p) <= drift m / 2 /\
  Rabs (vy (driftStep m r1 r2 r3 p) - vy p) <= drift m / 2 /\
  Rabs (vz (driftStep m r1 r2 r3 p) - vz p) <= drift m / 2.
Proof.
  intros Hd H1 H2 H3. unfold driftStep. cbn [vx vy vz].
  repeat split; apply Rabs_le; split; nra.
Qed.

Lemma abs_chain (v0 v1 v2 v3 v4 A B C D : R) :
  Rabs (v1 - v0) <= A -> Rabs (v2 - v1) <= B -> Rabs (v3 - v2) <= C ->
  Rabs (v4 - v3) <= D -> Rabs v4 <= Rabs v0 + A + B + C + D.
Proof.
  intros H1 H2 H3 H4.
  replace v4 with (v0 + (v1 - v0) + (v2 - v1) + (v3 - v2) + (v4 - v3)) at 1
    by ring.
  pose proof (Rabs_triang (v0 + (v1 - v0) + (v2 - v1) + (v3 - v2)) (v4 - v3)).
  pose proof (Rabs_triang (v0 + (v1 - v0) + (v2 - v1)) (v3 - v2)).
  pose proof (Rabs_triang (v0 + (v1 - v0)) (v2 - v1)).
  pose proof (Rabs_triang v0 (v1 - v0)).
  lra.
Qed.

(** Whatever the particle, the pointer and the draws (numbers in [0, 1]),
    one step leaves every velocity component with a magnitude of at most
    damping * (|v| + kick), where kick adds up the bounds of the four forces:
    centerPull * |distance + 0.1 - equilibrium| for the centre,
    |mf| * dt / 4 for the pointer (its denominator is softened by + 4),
    the swirl coefficient and half the drift. *)
Lemma particleStep_velocity (m : Mode) (mf : R) (mw : R * R * R)
  (dt r1 r2 r3 : R) (p : Particle) :
  0 <= damping m -> 0 <= centerPull m -> 0 <= drift m -> 0 <= dt ->
  0 <= r1 <= 1 -> 0 <= r2 <= 1 -> 0 <= r3 <= 1 ->
  let p' := particleStep m mf mw dt r1 r2 r3 p in
  Rabs (vx p') <= damping m * (Rabs (vx p) + kick m mf dt p) /\
  Rabs (vy p') <= damping m * (Rabs (vy p) + kick m mf dt p) /\
  Rabs (vz p') <= damping m * (Rabs (vz p) + kick m mf dt p).
Proof.
  intros Hdamp Hcp Hdrift Hdt H1 H2 H3 p'.
  set (p1 := centerPullStep m p).
  set (p2 := mouseStep mf mw dt p1).
  set (p3 := swirlStep m p2).
  set (p4 := driftStep m r1 r2 r3 p3).
  destruct (centerPullStep_delta m p Hcp) as (Ax & Ay & Az).
  destruct (mouseStep_delta mf mw dt p1 Hdt) as (_ & Bx & By & Bz).
  destruct (swirlStep_facts m p2) as (_ & Cy & _ & Cx & Cz).
  destruct (driftStep_delta m r1 r2 r3 p3 Hdrift H1 H2 H3) as (Dx & Dy & Dz).
  fold p1 in Ax, Ay, Az. fold p2 in Bx, By, Bz, Cx, Cy, Cz.
  fold p3 in Cx, Cy, Cz, Dx, Dy, Dz. fold p4 in Dx, Dy, Dz.
  assert (Rabs (vy p3 - vy p2) <= Rmax (swirl m) 0) as Cy'.
  { rewrite Cy. replace (vy p2 - vy p2) with 0 by ring. rewrite Rabs_R0.
    apply Rmax_r. }
  pose proof (abs_chain _ _ _ _ _ _ _ _ _ Ax Bx Cx Dx) as Kx.
  pose proof (abs_chain _ _ _ _ _ _ _ _ _ Ay By Cy' Dy) as Ky.
  pose proof (abs_chain _ _ _ _ _ _ _ _ _ Az Bz Cz Dz) as Kz.
  assert (forall lim x v,
            Rabs (snd (bounce lim (x, v * damping m)))
            <= damping m * Rabs v) as Hb.
  { intros lim x v. eapply Rle_trans; [apply bounce_snd_abs|].
    rewrite Rabs_mult, (Rabs_right (damping m)) by lra. lra. }
  unfold p', particleStep. fold p1 p2 p3 p4.
  unfold boundaryStep, integrateStep, dampStep. cbn [px py pz vx vy vz].
  unfold kick.
  repeat split.
  - eapply Rle_trans; [apply Hb|]. apply Rmult_le_compat_l; lra.
  - eapply Rle_trans; [apply Hb|]. apply Rmult_le_compat_l; lra.
  - eapply Rle_trans; [apply Hb|]. apply Rmult_le_compat_l; lra.
Qed.

(** *** Reachable states *)

(** X8 (the active parameters stay within the table).  After any run of
    events from the initial state, at rest or in the middle of a blend,
    [getActiveMode] returns a mode whose force parameters lie between the
    smallest and the largest value of the mode table; in particular the
    damping factor is below 1 and the depth range is at least 12. *)
Theorem active_mode_ranges (es : list Event) :
  Forall timely es ->
  exists s m,
    run es initial = Ok s /\
    getActiveMode s = Ok m /\
    0.982 <= damping m <= 0.996 /\ 4 <= mouseForce m <= 18 /\
    0.005 <= drift m <= 0.04 /\ 0.0002 <= centerPull m <= 0.003 /\
    8 <= equilibrium m <= 18 /\ 0 <= swirl m <= 0.02 /\
    1.2 <= bloom m <= 2.8 /\ 12 <= depthRange m <= 40.
Proof.
  intros Hes. destruct (run_ok es initial Hes wf_initial) as (s & Hrun & W).
  destruct (getActiveMode_ranges s W) as (m & Hm & Hranges).
  exists s, m. split; [exact Hrun|]. split; [exact Hm|exact Hranges].
Qed.

Lemma mouseStrength_bound (m : Mode) (down active rep : bool) :
  0 <= mouseForce m <= 18 ->
  Rabs (mouseStrength m down active rep) <= 36.
Proof.
  intros Hm. unfold mouseStrength.
  destruct down, active, rep; apply Rabs_le; split; lra.
Qed.

Lemma distance_in_box (p : Particle) :
  inBounds 40 p -> 0 <= distanceFromOrigin p <= 69.3.
Proof.
  unfold inBounds, distanceFromOrigin, BOUNDS. intros (Hx & Hy & Hz).
  split; [apply sqrt_pos|].
  rewrite <- (sqrt_square 69.3) by lra.
  apply sqrt_le_1_alt. nra.
Qed.

Lemma kick_bound (m : Mode) (mf dt : R) (p : Particle) :
  0 <= centerPull m <= 0.003 -> 8 <= equilibrium m <= 18 ->
  swirl m <= 0.02 -> 0 <= drift m <= 0.04 ->
  Rabs mf <= 36 -> 0 <= dt <= 0.05 -> inBounds 40 p ->
  kick m mf dt p <= 0.7.
Proof.
  intros Hcp Heq Hsw Hdr Hmf Hdt Hbox. unfold kick.
  pose proof (distance_in_box p Hbox) as Hd.
  assert (Rabs (distanceFromOrigin p + 0.1 - equilibrium m) <= 61.4) as H1
    by (apply Rabs_le; lra).
  pose proof (Rabs_pos (distanceFromOrigin p + 0.1 - equilibrium m)) as H1'.
  assert (centerPull m * Rabs (distanceFromOrigin p + 0.1 - equilibrium m)
          <= 0.003 * 61.4) as H2 by (apply Rmult_le_compat; lra).
  pose proof (Rabs_pos mf) as Hmf'.
  assert (Rabs mf * dt <= 36 * 0.05) as H3 by (apply Rmult_le_compat; lra).
  assert (Rmax (swirl m) 0 <= 0.02) as H4 by (apply Rmax_lub; lra).
  lra.
Qed.

Section UnitDrawsInRuns.

(** [Math.random()] returns a number in [0, 1). *)
Hypothesis random_unit : forall k, 0 <= random k < 1.

(** X9 (positions stay in the box).  In the initial state and after any run
    of events, every particle has each of its three coordinates within
    [-40, 40]: 40 is [BOUNDS] and the largest depth range of the table, the
    initial positions are sampled within them, frames clamp to them and no
    other event writes positions. *)
Theorem positions_stay_in_box (es : list Event) (i : nat) :
  Forall timely es -> (i < COUNT)%nat ->
  exists s,
    run es initial = Ok s /\
    -40 <= px (particle s i) <= 40 /\
    -40 <= py (particle s i) <= 40 /\
    -40 <= pz (particle s i) <= 40.
Proof.
  intros Hes Hi. destruct (run_ok es initial Hes wf_initial) as (s & Hrun & _).
  exists s. split; [exact Hrun|].
  pose proof (reachable_inBounds random_unit es s i Hes Hrun Hi) as H.
  unfold inBounds, BOUNDS in H. lra.
Qed.

(** X10 (a frame cannot blow a velocity up).  After any run of events from
    the initial state, the next frame leaves every velocity component of
    every particle with a magnitude of at most 0.996 * (|v| + 0.7): the
    damping factor is at most 0.996 and the four forces together add at most
    0.7 per axis (centre pull at most 0.003 * 61.4, pointer at most
    36 * 0.05 / 4 thanks to the + 4 of its denominator and the cap of dt,
    swirl at most 0.02, drift at most 0.02). *)
Theorem frame_velocity_bound (es : list Event) (elapsed : R) (i : nat) :
  Forall timely es -> 0 <= elapsed -> (i < COUNT)%nat ->
  exists s s',
    run es initial = Ok s /\
    handle (ev_frame elapsed) s = Ok s' /\
    Rabs (vx (particle s' i)) <= 0.996 * (Rabs (vx (particle s i)) + 0.7) /\
    Rabs (vy (particle s' i)) <= 0.996 * (Rabs (vy (particle s i)) + 0.7) /\
    Rabs (vz (particle s' i)) <= 0.996 * (Rabs (vz (particle s i)) + 0.7).
Proof.
  intros Hes Hel Hi.
  destruct (run_ok es initial Hes wf_initial) as (s & Hrun & W).
  destruct (getActiveMode_ranges s W)
    as (m & Hm & Hdamp & Hmf & Hdr & Hcp & Heq & Hsw & _ & _).
  set (dt := Rmin (elapsed / 1000) 0.05).
  assert (0 <= dt <= 0.05) as Hdt.
  { unfold dt. split; [apply Rmin_glb; lra|apply Rmin_r]. }
  destruct (updateParticles_spec dt s m W Hm)
    as (s' & Hs' & _ & _ & _ & _ & Hstep).
  exists s, s'. split; [exact Hrun|]. split; [exact Hs'|].
  rewrite (Hstep i Hi).
  set (mf := mouseStrength m (mouseDown s) (mouseActive s) (repelling s)).
  pose proof (random_unit (rng s + 3 * i)) as R1.
  pose proof (random_unit (rng s + 3 * i + 1)) as R2.
  pose proof (random_unit (rng s + 3 * i + 2)) as R3.
  pose proof (particleStep_velocity m mf (mouseWorld s) dt
                (random (rng s + 3 * i)) (random (rng s + 3 * i + 1))
                (random (rng s + 3 * i + 2)) (particle s i)
                ltac:(lra) ltac:(lra) ltac:(lra) ltac:(lra)
                ltac:(lra) ltac:(lra) ltac:(lra)) as (Bx & By & Bz).
  assert (kick m mf dt (particle s i) <= 0.7) as Hk.
  { apply kick_bound; try lra.
    - apply mouseStrength_bound. lra.
    - apply (reachable_inBounds random_unit es s i Hes Hrun Hi). }
  assert (forall v, damping m * (Rabs v + kick m mf dt (particle s i))
                    <= 0.996 * (Rabs v + 0.7)) as Hle.
  { intros v. pose proof (Rabs_pos v).
    assert (0 <= kick m mf dt (particle s i)) as Hk0.
    { unfold kick.
      pose proof (Rabs_pos (distanceFromOrigin (particle s i) + 0.1
                            - equilibrium m)).
      pose proof (Rabs_pos mf). pose proof (Rmax_r (swirl m) 0).
      assert (0 <= centerPull m * Rabs (distanceFromOrigin (particle s i)
                                        + 0.1 - equilibrium m))
        by (apply Rmult_le_pos; lra).
      assert (0 <= Rabs mf * dt) by (apply Rmult_le_pos; lra).
      lra. }
    apply Rmult_le_compat; lra. }
  repeat split; (eapply Rle_trans; [|apply Hle]); assumption.
Qed.

End UnitDrawsInRuns.

(** *** The size of a burst *)

Lemma burstDelta_bound (push : bool) (dx dy r : R) :
  0 <= r <= 1 -> dx * dx + dy * dy < 12 * 12 ->
  Rabs (fst (fst (burstDelta push dx dy r))) <= 3 /\
  Rabs (snd (fst (burstDelta push dx dy r))) <= 3 /\
  Rabs (snd (burstDelta push dx dy r)) <= 0.45 /\
  0 <= (if push then -1 else 1) * (fst (fst (burstDelta push dx dy r)) * dx) /\
  0 <= (if push then -1 else 1) * (snd (fst (burstDelta push dx dy r)) * dy).
Proof.
  intros Hr Hnear. unfold burstDelta. cbn [fst snd].
  set (S := dx * dx + dy * dy) in *.
  assert (0 <= S) as HS by (unfold S; nra).
  pose proof (sqrt_pos S) as Hsq.
  set (st := burstStrength push dx dy).
  assert (st = (1 - S / (12 * 12)) * (if push then -3 else 3)) as Hst
    by reflexivity.
  assert (0 < 1 - S / (12 * 12) <= 1) as Hfall.
  { split.
    - apply Rlt_0_minus. apply (Rmult_lt_reg_r (12 * 12)); [lra|].
      unfold Rdiv. rewrite Rmult_assoc, Rinv_l by lra. lra.
    - assert (0 <= S / (12 * 12))
        by (apply Rmult_le_pos; [lra|apply Rlt_le, Rinv_0_lt_compat; lra]).
      lra. }
  assert (Rabs st <= 3) as Hst3.
  { rewrite Hst. destruct push; apply Rabs_le; split; nra. }
  assert (Rabs (dx / (sqrt S + 0.5)) <= 1) as Hx
    by (apply ratio_le_one; [unfold S; nra|lra]).
  assert (Rabs (dy / (sqrt S + 0.5)) <= 1) as Hy
    by (apply ratio_le_one; [unfold S; nra|lra]).
  assert (0 < / (sqrt S + 0.5)) as Hinv by (apply Rinv_0_lt_compat; lra).
  assert (0 <= (if push then -1 else 1) * st) as Hsign.
  { rewrite Hst. destruct push; nra. }
  assert (forall a, 0 <= (if push then -1 else 1)
                         * (a / (sqrt S + 0.5) * st * a)) as Hout.
  { intros a.
    replace ((if push then -1 else 1) * (a / (sqrt S + 0.5) * st * a))
      with ((a * a) * / (sqrt S + 0.5) * ((if push then -1 else 1) * st))
      by (unfold Rdiv; ring).
    assert (0 <= a * a) by nra.
    apply Rmult_le_pos; [apply Rmult_le_pos; lra|exact Hsign]. }
  split; [eapply Rle_trans; [apply scaled_le; exact Hx|exact Hst3]|].
  split; [eapply Rle_trans; [apply scaled_le; exact Hy|exact Hst3]|].
  split.
  - pose proof (Rabs_pos st). apply Rabs_le. split; nra.
  - split; apply Hout.
Qed.

Section UnitDrawsInBursts.

(** [Math.random()] returns a number in [0, 1). *)
Hypothesis random_unit : forall k, 0 <= random k < 1.

(** X11 (the size of a burst).  A burst changes the velocity of any
    particle by at most 3 on x, 3 on y and 0.45 on z (the strength falls off
    from 3 at the burst point to 0 at the radius, and the direction is
    softened by + 0.5); without the repel modifier the lateral change points
    away from the burst point, with it towards it. *)
Theorem burst_is_bounded (wx wy : R) (push : bool) (s : State) :
  wf_State s ->
  exists s',
    burstAt wx wy push s = Ok s' /\
    forall i, (i < COUNT)%nat ->
      Rabs (vx (particle s' i) - vx (particle s i)) <= 3 /\
      Rabs (vy (particle s' i) - vy (particle s i)) <= 3 /\
      Rabs (vz (particle s' i) - vz (particle s i)) <= 0.45 /\
      0 <= (if push then -1 else 1)
           * ((vx (particle s' i) - vx (particle s i))
              * (px (particle s i) - wx)) /\
      0 <= (if push then -1 else 1)
           * ((vy (particle s' i) - vy (particle s i))
              * (py (particle s i) - wy)).
Proof.
  intros W.
  destruct (burstAt_spec wx wy push s W) as (s' & Hs' & _ & _ & _ & Hvel).
  exists s'. split; [exact Hs'|]. intros i Hi.
  specialize (Hvel i Hi). unfold particle, readParticle. cbn [px py vx vy vz].
  unfold read3 in Hvel. unfold burstHitAt in Hvel.
  set (dx := positions s !!! (i * 3)%nat - wx) in *.
  set (dy := positions s !!! (i * 3 + 1)%nat - wy) in *.
  destruct (burstHit dx dy) eqn:Hhit.
  - apply burstHit_true in Hhit.
    pose proof (random_unit (rng s + hitsBefore (positions s) wx wy i)) as Hr.
    destruct (burstDelta_bound push dx dy
                (random (rng s + hitsBefore (positions s) wx wy i))
                ltac:(lra) Hhit) as (Bx & By & Bz & Sx & Sy).
    unfold add3 in Hvel. cbn [fst snd] in Hvel.
    injection Hvel as -> -> ->.
    unfold burstDelta in Bx, By, Bz, Sx, Sy.
    cbn [fst snd] in Bx, By, Bz, Sx, Sy.
    repeat split.
    + eapply Rle_trans; [|exact Bx]. right. f_equal. ring.
    + eapply Rle_trans; [|exact By]. right. f_equal. ring.
    + eapply Rle_trans; [|exact Bz]. right. f_equal. ring.
    + eapply Rle_trans; [exact Sx|]. right. ring.
    + eapply Rle_trans; [exact Sy|]. right. ring.
  - injection Hvel as -> -> ->.
    replace (velocities s !!! (i * 3)%nat - velocities s !!! (i * 3)%nat)
      with 0 by ring.
    replace (velocities s !!! (i * 3 + 1)%nat
             - velocities s !!! (i * 3 + 1)%nat) with 0 by ring.
    replace (velocities s !!! (i * 3 + 2)%nat
             - velocities s !!! (i * 3 + 2)%nat) with 0 by ring.
    rewrite Rabs_R0. destruct push; repeat split; lra.
Qed.

End UnitDrawsInBursts.

(** *** Colours and sizes on their way to the targets *)

Lemma converge_spec (n : nat) (rate : R) (target a : Float32Array) :
  (n <= length a)%nat ->
  forall i,
    converge n rate target a !!! i =
    if decide (i < n)%nat
    then a !!! i + (target !!! i - a !!! i) * rate
    else a !!! i.
Proof.
  unfold converge. induction n as [|n IH]; intros Hn i; simpl.
  - destruct (decide (i < 0)%nat); [lia|reflexivity].
  - pose proof (for_loop_length_insert n
                  (fun i a => a !!! i + (target !!! i - a !!! i) * rate) a)
      as Hlen.
    destruct (decide (i = n)) as [->|Hne].
    + rewrite list_lookup_total_insert_eq by lia.
      rewrite IH by lia.
      destruct (decide (n < n)%nat); [lia|].
      destruct (decide (n < S n)%nat); [reflexivity|lia].
    + rewrite list_lookup_total_insert_ne by auto. rewrite IH by lia.
      destruct (decide (i < n)%nat), (decide (i < S n)%nat);
        try lia; reflexivity.
Qed.

(** X12 (colours and sizes converge).  While a blend is in flight a frame
    moves every colour cell and every size towards its target by the fraction
    rate = dt * 2.5 of what separates them, dt being the elapsed time capped
    at 0.05 s, so rate is at most 0.125 and nothing overshoots; the targets
    are not touched.  At rest a frame leaves colours and sizes as they are. *)
Theorem frame_converges_appearance (elapsed : R) (s : State) :
  wf_State s -> 0 <= elapsed ->
  exists s',
    handle (ev_frame elapsed) s = Ok s' /\
    targetColors s' = targetColors s /\ targetSizes s' = targetSizes s /\
    let rate := Rmin (elapsed / 1000) 0.05 * 2.5 in
    0 <= rate <= 0.125 /\
    (modeBlend s < 1 ->
     (forall i, (i < COUNT * 3)%nat ->
        targetColors s !!! i - colors s' !!! i
        = (1 - rate) * (targetColors s !!! i - colors s !!! i)) /\
     (forall i, (i < COUNT)%nat ->
        targetSizes s !!! i - sizes s' !!! i
        = (1 - rate) * (targetSizes s !!! i - sizes s !!! i))) /\
    (modeBlend s >= 1 -> colors s' = colors s /\ sizes s' = sizes s).
Proof.
  intros W Hel.
  destruct (getActiveMode_ok s W) as (m & Hm & _).
  set (dt := Rmin (elapsed / 1000) 0.05).
  assert (0 <= dt <= 0.05) as Hdt.
  { unfold dt. split; [apply Rmin_glb; lra|apply Rmin_r]. }
  destruct (updateParticles_spec dt s m W Hm) as (s' & Hs' & E & _).
  exists s'. split; [exact Hs'|].
  set (s0 := set_motion (positions s') (velocities s') (rng s')
               (set_bloomStrength (bloom m) s)) in E.
  assert (targetColors s' = targetColors s /\ targetSizes s' = targetSizes s /\
          colors s' = colors (blendStep dt s0) /\
          sizes s' = sizes (blendStep dt s0)) as (Htc & Hts & Hc & Hsz).
  { rewrite E at 1 2 3 4. unfold blendStep.
    destruct (Rltb (modeBlend s0) 1); cbn; auto. }
  split; [exact Htc|]. split; [exact Hts|]. cbv zeta. fold dt.
  split; [lra|].
  rewrite Hc, Hsz. unfold blendStep.
  change (modeBlend s0) with (modeBlend s).
  split.
  - intros Hlt. apply Rltb_true in Hlt. rewrite Hlt.
    cbn [colors sizes set_appearance set_blend].
    change (colors s0) with (colors s). change (sizes s0) with (sizes s).
    change (targetColors s0) with (targetColors s).
    change (targetSizes s0) with (targetSizes s).
    split; intros i Hi; rewrite converge_spec.
    + destruct (decide (i < COUNT * 3)%nat); [ring|lia].
    + rewrite (wf_colors s W). lia.
    + destruct (decide (i < COUNT)%nat); [ring|lia].
    + rewrite (wf_sizes s W). lia.
  - intros Hge. assert (Rltb (modeBlend s) 1 = false) as ->
      by (apply Rltb_false; lra).
    split; reflexivity.
Qed.

(** *** Recolouring *)

(** [n] uninterrupted ticks from any blend fraction. *)
Lemma ticks_blend_from (dt : R) (s : State) (n : nat) :
  0 < dt -> wf_State s ->
  exists sn,
    ticks n dt s = Ok sn /\ wf_State sn /\
    targetMode sn = targetMode s /\
    (currentMode sn = currentMode s \/ currentMode sn = targetMode s).
Proof.
  intros Hdt W. induction n as [|n IH].
  - exists s. simpl.
    split; [reflexivity|]. split; [exact W|]. split; [reflexivity|].
    now left.
  - destruct IH as (sn & Hn & Wn & Ht & Hc).
    destruct (updateParticles_blend dt sn (Rlt_le _ _ Hdt) Wn)
      as (s' & Hs' & W' & _ & Ht' & Hc').
    exists s'. simpl ticks. rewrite Hn. simpl bind.
    split; [exact Hs'|]. split; [exact W'|].
    split; [now rewrite Ht'|].
    rewrite Hc', Ht. destruct (_ && _)%bool; auto.
Qed.

Lemma lerp_same (x t : R) : lerp x x t = x.
Proof. unfold lerp. ring. Qed.

(** A blend from a mode to itself is that mode, whatever the fraction. *)
Lemma getActiveMode_same (s : State) (m : Mode) :
  index MODES (currentMode s) = Some m -> targetMode s = currentMode s ->
  getActiveMode s = Ok m.
Proof.
  intros Hm Ht. unfold getActiveMode. rewrite Ht, Hm.
  destruct (Rgeb (modeBlend s) 1); [reflexivity|].
  cbn [deref bind]. rewrite !lerp_same. now destruct m.
Qed.

(** X13 (recolouring).  A recolour request never changes the settled mode.
    During a blend it leaves the fraction and the target as they are (the
    transition is not restarted).  At rest it sets the fraction to 0.5 with
    the settled mode as target, which leaves the active mode - hence the
    physics - exactly as it was; and through the ticks that follow, however
    many and whatever the fraction has become, the settled mode, the target
    and the active mode stay what they were before the request. *)
Theorem recolor_keeps_the_mode (dt : R) (s : State) :
  0 < dt -> wf_State s ->
  exists s1,
    triggerColorTransition s = Ok s1 /\
    currentMode s1 = currentMode s /\
    (modeBlend s < 1 ->
     modeBlend s1 = modeBlend s /\ targetMode s1 = targetMode s) /\
    (modeBlend s >= 1 ->
     modeBlend s1 = 0.5 /\ targetMode s1 = currentMode s /\
     getActiveMode s1 = getActiveMode s /\
     forall n, exists sn,
       ticks n dt s1 = Ok sn /\
       currentMode sn = currentMode s /\
       targetMode sn = currentMode s /\
       getActiveMode sn = getActiveMode s).
Proof.
  intros Hdt W.
  destruct (triggerColorTransition_ok s W) as (s1 & Hs1 & W1).
  destruct (triggerColorTransition_spec s W)
    as (m & s1' & Hm & Hs1' & Hb & Ht & Hc & _).
  rewrite Hs1 in Hs1'. injection Hs1' as <-.
  exists s1. split; [exact Hs1|]. split; [exact Hc|]. split.
  - intros Hlt. apply Rgeb_false in Hlt. rewrite Hlt in Hb, Ht.
    split; [exact Hb|exact Ht].
  - intros Hge. apply Rgeb_true in Hge. rewrite Hge in Hb, Ht, Hm.
    assert (getActiveMode s = Ok m) as Hact.
    { unfold getActiveMode. now rewrite Hge, Hm. }
    split; [exact Hb|]. split; [exact Ht|]. split.
    + rewrite Hact. apply getActiveMode_same; [now rewrite Hc|].
      now rewrite Ht, Hc.
    + intros n.
      destruct (ticks_blend_from dt s1 n Hdt W1)
        as (sn & Hn & _ & Htn & Hcn).
      assert (currentMode sn = currentMode s) as Hcur.
      { rewrite Ht, Hc in Hcn. now destruct Hcn. }
      exists sn. split; [exact Hn|]. split; [exact Hcur|].
      split; [now rewrite Htn, Ht|].
      rewrite Hact. apply getActiveMode_same; [now rewrite Hcur|].
      now rewrite Htn, Ht, Hcur.
Qed.

(** *** Samples are within the ranges of their mode *)

Lemma table_ordered (i : Z) (m : Mode) :
  index MODES i = Some m ->
  fst (hueRange m) <= snd (hueRange m) /\
  fst (satRange m) <= snd (satRange m) /\
  fst (lightRange m) <= snd (lightRange m) /\
  fst (sizeRange m) <= snd (sizeRange m).
Proof.
  intros H. apply index_MODES_inv in H as [_ H].
  destruct H as [->|[->|[->|[->| ->]]]]; simpl; repeat split; lra.
Qed.

Lemma sample_within (range : R * R) (r : R) :
  fst range <= snd range -> 0 <= r <= 1 -> within range (sample range r).
Proof. unfold within, sample. intros Ho Hr. split; nra. Qed.

Section UnitDrawsInSamples.

(** [Math.random()] returns a number in [0, 1). *)
Hypothesis random_unit : forall k, 0 <= random k < 1.

Lemma random_le_1 (k : nat) : 0 <= random k <= 1.
Proof. pose proof (random_unit k). lra. Qed.

(** X14 (targets within the ranges of the requested mode).  After a
    transition request that is not ignored, every particle has a target size
    within the size range of the requested mode and a target colour made by
    [setHSL] of a lightness within its lightness range and, when no colour
    override is active, of a hue and a saturation within its hue and
    saturation ranges. *)
Theorem targets_within_mode_ranges (idx : Z) (s : State) :
  valid_mode idx -> wf_State s ->
  ~ (idx = currentMode s /\ modeBlend s >= 1) ->
  exists b s',
    index MODES idx = Some b /\
    setMode idx s = Ok s' /\
    forall i, (i < COUNT)%nat ->
      within (sizeRange b) (targetSizes s' !!! i) /\
      exists hue sat light,
        read3 (targetColors s') i = setHSL hue sat light /\
        within (lightRange b) light /\
        (colorOverride s = None ->
         within (hueRange b) hue /\ within (satRange b) sat).
Proof.
  intros Hi W Hnot.
  destruct (index_MODES_valid idx Hi) as [b Hb].
  destruct (setMode_fires idx b s W Hb Hnot)
    as (s' & Hs' & _ & _ & _ & _ & Htargets & _).
  destruct (table_ordered idx b Hb) as (Oh & Os & Ol & Oz).
  exists b, s'. split; [exact Hb|]. split; [exact Hs'|].
  intros i Hlt. destruct (Htargets i Hlt) as [Hcol Hsize]. split.
  - rewrite Hsize. unfold sampledSize.
    apply sample_within; [exact Oz|apply random_le_1].
  - rewrite Hcol. unfold sampledHSL, sampleHSL, colorOfHSL.
    eexists _, _, _. split; [reflexivity|]. split.
    + apply sample_within; [exact Ol|apply random_le_1].
    + intros ->. cbn [getHueRange getSatRange].
      split; (apply sample_within; [assumption|apply random_le_1]).
Qed.

(** One particle just randomized in the mode [m], without colour override. *)
Lemma randomizeParticle_fresh (i : nat) (m : Mode) (sc : R) (s : State) :
  wf_State s -> (i < COUNT)%nat -> colorOverride s = None ->
  fst (hueRange m) <= snd (hueRange m) ->
  fst (satRange m) <= snd (satRange m) ->
  fst (lightRange m) <= snd (lightRange m) ->
  fst (sizeRange m) <= snd (sizeRange m) ->
  let s' := randomizeParticle i m sc s in
  Rabs (vx (particle s' i)) <= 0.15 /\
  Rabs (vy (particle s' i)) <= 0.15 /\
  Rabs (vz (particle s' i)) <= 0.05 /\
  within (sizeRange m) (sizes s' !!! i) /\
  0.25 <= alphas s' !!! i < 1 /\
  exists hue sat light,
    read3 (colors s') i = setHSL hue sat light /\
    within (hueRange m) hue /\ within (satRange m) sat /\
    within (lightRange m) light.
Proof.
  intros W Hi Ho Oh Os Ol Oz. cbv zeta. unfold randomizeParticle. rewrite Ho.
  unfold sampleHSL. cbn [getHueRange getSatRange].
  unfold particle. cbn [positions velocities sizes alphas colors].
  assert (i * 3 + 2 < length (positions s))%nat as Hp
    by (rewrite (wf_positions s W); lia).
  assert (i * 3 + 2 < length (velocities s))%nat as Hv
    by (rewrite (wf_velocities s W); lia).
  assert (i * 3 + 2 < length (colors s))%nat as Hc
    by (rewrite (wf_colors s W); lia).
  match goal with
  | |- context [readParticle (write3 _ _ ?x ?y ?z) (write3 _ _ ?a ?b ?c) _] =>
      pose proof (readParticle_write3_same (positions s) (velocities s) i
                    {| px := x; py := y; pz := z;
                       vx := a; vy := b; vz := c |} Hp Hv) as E
  end.
  cbn [px py pz vx vy vz] in E. rewrite E. clear E. cbn [vx vy vz].
  rewrite !list_lookup_total_insert_eq
    by (rewrite ?(wf_sizes s W), ?(wf_alphas s W); lia).
  pose proof (random_unit (rng s + 4)). pose proof (random_unit (rng s + 5)).
  pose proof (random_unit (rng s + 6)). pose proof (random_unit (rng s + 11)).
  split; [apply Rabs_le; lra|]. split; [apply Rabs_le; lra|].
  split; [apply Rabs_le; lra|].
  split; [apply sample_within; [exact Oz|apply random_le_1]|].
  split; [lra|].
  eexists _, _, _. split.
  - unfold read3.
    match goal with
    | |- context [write3 _ _ ?x ?y ?z] =>
        destruct (write3_same (colors s) i x y z Hc) as (-> & -> & ->)
    end.
    match goal with
    | |- (fst (fst ?t), snd (fst ?t), snd ?t) = _ =>
        destruct t as [[r g] b] eqn:Et; cbn [fst snd]; rewrite <- Et
    end.
    reflexivity.
  - repeat split; apply sample_within; try assumption; apply random_le_1.
Qed.

Lemma randomizeParticle_override (i : nat) (m : Mode) (sc : R) (s : State) :
  colorOverride (randomizeParticle i m sc s) = colorOverride s.
Proof.
  unfold randomizeParticle.
  now destruct (sampleHSL _ _ _ _ _) as [[hue sat] light].
Qed.

Lemma randomizeParticle_frame (i j : nat) (m : Mode) (sc : R) (s : State) :
  i <> j ->
  let s' := randomizeParticle i m sc s in
  particle s' j = particle s j /\ sizes s' !!! j = sizes s !!! j /\
  alphas s' !!! j = alphas s !!! j /\
  read3 (colors s') j = read3 (colors s) j /\
  colorOverride s' = colorOverride s.
Proof.
  intros Hij. cbv zeta. split; [now apply randomizeParticle_other|].
  unfold randomizeParticle.
  destruct (sampleHSL _ _ _ _ _) as [[hue sat] light].
  cbn [sizes alphas colors colorOverride].
  rewrite !list_lookup_total_insert_ne by auto.
  split; [reflexivity|]. split; [reflexivity|]. split; [|reflexivity].
  unfold read3.
  pose proof (write3_other (colors s) i j 0
                (fst (fst (setHSL hue sat light)))
                (snd (fst (setHSL hue sat light)))
                (snd (setHSL hue sat light)) Hij) as E0.
  rewrite Nat.add_0_r in E0. rewrite E0 by lia.
  now rewrite !write3_other by (auto; lia).
Qed.

(** X15 (the initial particles).  In the initial state every particle has a
    velocity of at most 0.15 on x and y and 0.05 on z in magnitude, a size
    within the size range of void, an alpha in [0.25, 1) and a colour made by
    [setHSL] of a hue, a saturation and a lightness within the ranges of
    void. *)
Theorem initial_particles (i : nat) :
  (i < COUNT)%nat ->
  Rabs (vx (particle initial i)) <= 0.15 /\
  Rabs (vy (particle initial i)) <= 0.15 /\
  Rabs (vz (particle initial i)) <= 0.05 /\
  within (sizeRange void) (sizes initial !!! i) /\
  0.25 <= alphas initial !!! i < 1 /\
  exists hue sat light,
    read3 (colors initial) i = setHSL hue sat light /\
    within (hueRange void) hue /\ within (satRange void) sat /\
    within (lightRange void) light.
Proof.
  unfold initial.
  assert (forall n, (n <= COUNT)%nat ->
            let s := for_loop n (fun i s => randomizeParticle i void 1.0 s)
                       declared in
            wf_State s /\ colorOverride s = None /\
            ((i < n)%nat ->
             Rabs (vx (particle s i)) <= 0.15 /\
             Rabs (vy (particle s i)) <= 0.15 /\
             Rabs (vz (particle s i)) <= 0.05 /\
             within (sizeRange void) (sizes s !!! i) /\
             0.25 <= alphas s !!! i < 1 /\
             exists hue sat light,
               read3 (colors s) i = setHSL hue sat light /\
               within (hueRange void) hue /\ within (satRange void) sat /\
               within (lightRange void) light)) as H.
  { induction n as [|n IH]; intros Hn; cbv zeta; simpl for_loop.
    - split; [exact wf_declared|]. split; [reflexivity|lia].
    - destruct IH as (W & Ho & IH); [lia|].
      split; [now apply wf_randomizeParticle|].
      destruct (decide (i = n)) as [->|Hne].
      + split; [now rewrite randomizeParticle_override|].
        intros _. apply randomizeParticle_fresh; try assumption;
            simpl; lra || lia.
      + assert (n <> i) as Hne' by auto.
        pose proof (randomizeParticle_frame n i void 1.0
                      (for_loop n (fun i s => randomizeParticle i void 1.0 s)
                         declared) Hne')
          as (Ep & Es & Ea & Ec & Eo).
        cbv zeta in Ep, Es, Ea, Ec, Eo.
        split; [now rewrite Eo|].
        intros Hi. rewrite Ep, Es, Ea, Ec. apply IH. lia. }
  intros Hi. now apply (H COUNT (le_n _)).
Qed.

End UnitDrawsInSamples.

(** *** The sound engine, built and running *)

Lemma retune_spec (fs : list R) (tm : R) (ds ds' : list AmbientSound.Voice)
  (i : nat) :
  AmbientSound.retune (Some fs) tm i ds = Ok ds' ->
  length ds' = length ds /\
  forall k d, ds !! k = Some d ->
    exists f, fs !! (i + k)%nat = Some f /\
              ds' !! k = Some (AmbientSound.ramp_frequency f tm d).
Proof.
  revert i ds'. induction ds as [|d0 ds IH]; intros i ds'; simpl.
  - intros [= <-]. split; [reflexivity|]. intros k d Hk. discriminate.
  - destruct (fs !! i) as [f|] eqn:Hf; simpl; [|discriminate].
    destruct (AmbientSound.retune (Some fs) tm (S i) ds) as [rest|] eqn:Hrest;
      simpl; [|discriminate].
    intros [= <-]. destruct (IH (S i) rest Hrest) as [Hlen Hall].
    split; [simpl; now rewrite Hlen|].
    intros [|k] d Hk; simpl in Hk.
    + injection Hk as <-. exists f. rewrite Nat.add_0_r. auto.
    + destruct (Hall k d Hk) as (f' & Hf' & Hd').
      exists f'. replace (i + S k)%nat with (S i + k)%nat by lia. auto.
Qed.

(** X16 (the first toggle builds the graph).  On an engine whose graph has
    not been built, [toggle] builds it and answers true: the engine is
    enabled, the master gain is 0.08 and the SFX gain 0.5, there are three
    drones tuned to the three frequencies of the mode last stored, with
    gains 0.5, 0.3 and 0.3.  Besides the drones seven sources are started,
    none of which is ever stopped: for each drone, in the order of the
    drones, a sine that modulates its frequency (at 0.06 + 0.04 i Hz, by
    0.004 of the frequency of the drone) and then a sine that modulates its
    gain (at 0.03 + 0.02 i Hz, by 0.1), and last the looping noise bed, for
    which four seconds of noise samples were drawn. *)
Theorem first_toggle_builds_the_graph (sr : nat) (a : AmbientSound.t)
  (n : nat) :
  wf_audio a -> AmbientSound.ctx a = None ->
  exists f0 f1 f2 fs a' c bed lfos,
    fs = [f0; f1; f2] /\
    index AmbientSound.MODE_FREQS (AmbientSound.currentMode a) = Some fs /\
    AmbientSound.toggle random sr a n = Ok (true, a', (n + sr * 4)%nat) /\
    AmbientSound._enabled a' = true /\
    AmbientSound.currentMode a' = AmbientSound.currentMode a /\
    AmbientSound.master a' = Some [AmbientSound.SetValue 0.08] /\
    AmbientSound.sfxGain a' = Some [AmbientSound.SetValue 0.5] /\
    map voiceFrequency (AmbientSound.drones a')
    = map (fun f => [AmbientSound.SetValue f]) fs /\
    map AmbientSound.v_gain (AmbientSound.drones a')
    = [[AmbientSound.SetValue 0.5]; [AmbientSound.SetValue 0.3];
       [AmbientSound.SetValue 0.3]] /\
    AmbientSound.ctx a' = Some c /\
    AmbientSound.started c = bed :: lfos /\
    AmbientSound.v_stop bed = None /\
    AmbientSound.v_source bed
    = AmbientSound.BufferSource (AmbientSound.noise_data random n (sr * 4))
        true /\
    map AmbientSound.v_out lfos
    = [AmbientSound.to_gain 2; AmbientSound.to_frequency 2;
       AmbientSound.to_gain 1; AmbientSound.to_frequency 1;
       AmbientSound.to_gain 0; AmbientSound.to_frequency 0] /\
    map AmbientSound.v_source lfos
    = map (fun rate =>
             AmbientSound.Oscillator AmbientSound.sine
               [AmbientSound.SetValue rate] None)
        [0.03 + INR 2 * 0.02; 0.06 + INR 2 * 0.04;
         0.03 + INR 1 * 0.02; 0.06 + INR 1 * 0.04;
         0.03 + INR 0 * 0.02; 0.06 + INR 0 * 0.04] /\
    map AmbientSound.v_gain lfos
    = map (fun depth => [AmbientSound.SetValue depth])
        [0.1; f2 * 0.004; 0.1; f1 * 0.004; 0.1; f0 * 0.004] /\
    Forall (fun v => AmbientSound.v_stop v = None) lfos.
Proof.
  intros (Hm & Hw) Hc. rewrite Hc in Hw. destruct Hw as (Hd & He).
  destruct (index_MODE_FREQS_valid _ Hm) as (fs & Hfs & Hlen).
  destruct fs as [|f0 [|f1 [|f2 [|f3 fs]]]]; simpl in Hlen; try lia.
  unfold AmbientSound.toggle, AmbientSound.init. rewrite Hc, Hfs.
  cbn -[INR]. rewrite Hd.
  exists f0, f1, f2. eexists _, _, _, _, _. split; [reflexivity|].
  split; [reflexivity|]. split; [reflexivity|].
  cbn -[INR]. repeat split; try reflexivity.
  repeat constructor.
Qed.

(** X17 (muting does not rebuild).  On an engine whose graph is built,
    [toggle] flips the enabled flag and answers it, ramps the master gain to
    0.08 or 0 and the SFX gain to 0.5 or 0 within 0.5 s, and touches neither
    the drones nor the voices started nor the stored mode, and makes no
    draw; a second toggle brings the enabled flag back. *)
Theorem toggle_mutes_without_rebuilding (sr : nat) (a : AmbientSound.t)
  (c : AmbientSound.AudioContext) (n : nat) :
  wf_audio a -> AmbientSound.ctx a = Some c ->
  exists m g a1 c1 a2,
    AmbientSound.master a = Some m /\ AmbientSound.sfxGain a = Some g /\
    AmbientSound.toggle random sr a n
    = Ok (negb (AmbientSound._enabled a), a1, n) /\
    AmbientSound._enabled a1 = negb (AmbientSound._enabled a) /\
    AmbientSound.master a1
    = Some (m ++ [AmbientSound.LinearRampToValueAtTime
                    (if negb (AmbientSound._enabled a) then 0.08 else 0)
                    (AmbientSound.currentTime c + 0.5)]) /\
    AmbientSound.sfxGain a1
    = Some (g ++ [AmbientSound.LinearRampToValueAtTime
                    (if negb (AmbientSound._enabled a) then 0.5 else 0)
                    (AmbientSound.currentTime c + 0.5)]) /\
    AmbientSound.drones a1 = AmbientSound.drones a /\
    AmbientSound.currentMode a1 = AmbientSound.currentMode a /\
    AmbientSound.ctx a1 = Some c1 /\
    AmbientSound.started c1 = AmbientSound.started c /\
    AmbientSound.toggle random sr a1 n = Ok (AmbientSound._enabled a, a2, n) /\
    AmbientSound.drones a2 = AmbientSound.drones a.
Proof.
  intros (Hm & Hw) Hc. rewrite Hc in Hw. destruct Hw as ([m Hmas] & [g Hg] & Hd).
  unfold AmbientSound.toggle. rewrite Hc, Hmas, Hg. simpl.
  destruct (AmbientSound.state c); simpl;
    exists m, g; eexists _, _, _;
    (split; [reflexivity|]); (split; [reflexivity|]);
    (split; [reflexivity|]); simpl; rewrite Bool.negb_involutive;
    repeat split; reflexivity.
Qed.

(** X18 (a mode change retunes the drones).  On an enabled engine with its
    graph built, a mode change to a valid index stores the index, schedules
    on each of the three drones a linear ramp to the frequency of its rank in
    the triple of the new mode, reaching it 3 s later, and starts exactly one
    more voice, the sweep, a one-shot voice made of one second of noise. *)
Theorem mode_change_retunes_the_drones (idx : Z) (a : AmbientSound.t)
  (c : AmbientSound.AudioContext) (n : nat) :
  valid_mode idx -> wf_audio a ->
  AmbientSound.ctx a = Some c -> AmbientSound._enabled a = true ->
  exists fs a' c' sweep,
    index AmbientSound.MODE_FREQS idx = Some fs /\
    AmbientSound.setMode random idx a n
    = Ok (a', (n + AmbientSound.sampleRate c)%nat) /\
    AmbientSound.currentMode a' = idx /\
    length (AmbientSound.drones a') = 3%nat /\
    (forall k d, AmbientSound.drones a !! k = Some d ->
       exists f, fs !! k = Some f /\
         AmbientSound.drones a' !! k
         = Some (AmbientSound.ramp_frequency f
                   (AmbientSound.currentTime c + 3) d)) /\
    AmbientSound.ctx a' = Some c' /\
    AmbientSound.started c' = sweep :: AmbientSound.started c /\
    oneShot (AmbientSound.currentTime c) sweep /\
    AmbientSound.v_source sweep
    = AmbientSound.BufferSource
        (AmbientSound.noise_data random n (AmbientSound.sampleRate c)) false.
Proof.
  intros Hi (Hm & Hw) Hc He. rewrite Hc in Hw.
  destruct Hw as (Hmas & [g Hg] & Hd).
  destruct (index_MODE_FREQS_valid idx Hi) as (fs & Hfs & Hlen).
  destruct (retune_ok fs (AmbientSound.currentTime c + 3)
              (AmbientSound.drones a) 0) as (ds & Hds & Hdslen); [lia|].
  destruct (retune_spec fs _ _ ds 0 Hds) as [_ Hall].
  unfold AmbientSound.setMode, AmbientSound.triggerSweep.
  cbn [AmbientSound.ctx AmbientSound._enabled AmbientSound.drones
       AmbientSound.sfxGain AmbientSound.set_currentMode
       AmbientSound.set_drones].
  rewrite Hc, He, Hfs. cbn [negb]. rewrite Hds. cbn [bind]. rewrite Hg.
  cbn [deref bind].
  exists fs. eexists _, _, _. split; [reflexivity|]. split; [reflexivity|].
  cbn [AmbientSound.currentMode AmbientSound.drones AmbientSound.ctx
       AmbientSound.set_ctx AmbientSound.started AmbientSound.start].
  split; [reflexivity|]. split; [simpl; now rewrite Hdslen|].
  split; [simpl; exact Hall|].
  split; [reflexivity|]. split; [reflexivity|]. split; [|reflexivity].
  unfold oneShot. cbn. split; [reflexivity|]. split; [lra|].
  eexists. split; [reflexivity|]. lra.
Qed.

(** X19 (the mode chosen before the sound starts).  A mode change on an
    engine whose graph is not built only stores the index, without a draw;
    when the graph is built afterwards the drones start on the frequencies of
    that mode. *)
Theorem mode_chosen_while_silent_tunes_the_start (idx : Z) (sr : nat)
  (a : AmbientSound.t) (n : nat) :
  valid_mode idx -> wf_audio a -> AmbientSound.ctx a = None ->
  exists fs a1 a2,
    index AmbientSound.MODE_FREQS idx = Some fs /\
    AmbientSound.setMode random idx a n = Ok (a1, n) /\
    AmbientSound.ctx a1 = None /\
    AmbientSound.toggle random sr a1 n = Ok (true, a2, (n + sr * 4)%nat) /\
    AmbientSound.currentMode a2 = idx /\
    map voiceFrequency (AmbientSound.drones a2)
    = map (fun f => [AmbientSound.SetValue f]) fs.
Proof.
  intros Hi (Hm & Hw) Hc. rewrite Hc in Hw. destruct Hw as (Hd & He).
  destruct (index_MODE_FREQS_valid idx Hi) as (fs & Hfs & Hlen).
  destruct fs as [|f0 [|f1 [|f2 [|f3 fs]]]]; simpl in Hlen; try lia.
  unfold AmbientSound.setMode. simpl. rewrite Hc.
  eexists _, _, _. split; [exact Hfs|]. split; [reflexivity|].
  split; [exact Hc|].
  unfold AmbientSound.toggle, AmbientSound.init. simpl.
  rewrite Hc, Hfs. simpl. rewrite Hd.
  split; [reflexivity|]. split; reflexivity.
Qed.

Section UnitDrawsInCues.

(** [Math.random()] returns a number in [0, 1). *)
Hypothesis random_unit : forall k, 0 <= random k < 1.

(** X20 (the burst cue).  On an enabled engine with its graph built the
    burst cue starts exactly two voices, both one-shot voices on the SFX bus:
    a sine thump whose frequency is set between 70 and 100 Hz and ramps to
    25 Hz, stopping 0.25 s later, and low-passed noise stopped 0.35 s later,
    of [Math.floor(sampleRate * 0.35)] samples, the product being the one of
    doubles (62 samples at 180 Hz and 15434 at 44100 Hz, one less than
    0.35 of the rate); it makes one draw for the pitch and one per noise
    sample, and touches neither the drones nor the gains. *)
Theorem burst_cue (a : AmbientSound.t) (c : AmbientSound.AudioContext)
  (n : nat) :
  wf_audio a -> AmbientSound.ctx a = Some c ->
  AmbientSound._enabled a = true ->
  let now := AmbientSound.currentTime c in
  exists a' c' thump noise f len,
    len = Z.to_nat
            (Math_floor
               (PrimFloat.mul
                  (double_of_Z (Z.of_nat (AmbientSound.sampleRate c)))
                  0x1.6666666666666p-2)) /\
    AmbientSound.triggerBurst random a n = Ok (a', (S n + len)%nat) /\
    AmbientSound.ctx a' = Some c' /\
    AmbientSound.started c' = noise :: thump :: AmbientSound.started c /\
    oneShot now thump /\ oneShot now noise /\
    AmbientSound.v_source thump
    = AmbientSound.Oscillator AmbientSound.sine
        [AmbientSound.SetValueAtTime f now;
         AmbientSound.ExponentialRampToValueAtTime 25 (now + 0.18)] None /\
    70 <= f < 100 /\
    AmbientSound.v_stop thump = Some (now + 0.25) /\
    AmbientSound.v_source noise
    = AmbientSound.BufferSource
        (AmbientSound.noise_data random (S n) len) false /\
    AmbientSound.v_stop noise = Some (now + 0.35) /\
    AmbientSound.drones a' = AmbientSound.drones a /\
    AmbientSound.master a' = AmbientSound.master a /\
    AmbientSound.sfxGain a' = AmbientSound.sfxGain a.
Proof.
  intros (Hm & Hw) Hc He now. rewrite Hc in Hw.
  destruct Hw as (Hmas & [g Hg] & Hd).
  unfold AmbientSound.triggerBurst. rewrite Hc, He, Hg. cbn [negb deref bind].
  pose proof (random_unit n) as Hr.
  eexists _, _, _, _, _, _. split; [reflexivity|]. split; [reflexivity|].
  cbn [AmbientSound.ctx AmbientSound.set_ctx AmbientSound.started
       AmbientSound.start AmbientSound.drones AmbientSound.master
       AmbientSound.sfxGain AmbientSound.v_source AmbientSound.v_stop].
  split; [reflexivity|]. split; [reflexivity|].
  split.
  { unfold oneShot. cbn. fold now. split; [reflexivity|]. split; [lra|].
    eexists. split; [reflexivity|]. lra. }
  split.
  { unfold oneShot. cbn. fold now. split; [reflexivity|]. split; [lra|].
    eexists. split; [reflexivity|]. lra. }
  split; [reflexivity|]. split; [lra|].
  repeat split; first [reflexivity | exact Hg | symmetry; exact Hg].
Qed.

(** X21 (the recolour cue).  On an enabled engine with its graph built the
    recolour cue starts exactly two one-shot sine notes on the SFX bus, the
    second 0.06 s after the first and a quarter higher; each rises from 0.9
    of its pitch to its pitch in 0.08 s and stops 0.2 s after its start; the
    base pitch is drawn between 600 and 800 Hz, with one draw. *)
Theorem recolor_cue (a : AmbientSound.t) (c : AmbientSound.AudioContext)
  (n : nat) :
  wf_audio a -> AmbientSound.ctx a = Some c ->
  AmbientSound._enabled a = true ->
  let now := AmbientSound.currentTime c in
  exists a' c' first second base,
    AmbientSound.triggerColorChange random a n = Ok (a', S n) /\
    AmbientSound.ctx a' = Some c' /\
    AmbientSound.started c' = second :: first :: AmbientSound.started c /\
    oneShot now first /\ oneShot now second /\
    600 <= base < 800 /\
    voiceFrequency first
    = [AmbientSound.SetValueAtTime (base * 0.9) now;
       AmbientSound.LinearRampToValueAtTime base (now + 0.08)] /\
    voiceFrequency second
    = [AmbientSound.SetValueAtTime (base * 1.25 * 0.9) (now + 0.06);
       AmbientSound.LinearRampToValueAtTime (base * 1.25)
         (now + 0.06 + 0.08)] /\
    AmbientSound.v_start first = now /\
    AmbientSound.v_stop first = Some (now + 0.2) /\
    AmbientSound.v_start second = now + 0.06 /\
    AmbientSound.v_stop second = Some (now + 0.06 + 0.2) /\
    AmbientSound.drones a' = AmbientSound.drones a.
Proof.
  intros (Hm & Hw) Hc He now. rewrite Hc in Hw.
  destruct Hw as (Hmas & [g Hg] & Hd).
  unfold AmbientSound.triggerColorChange. rewrite Hc, He, Hg.
  cbn [negb deref bind].
  pose proof (random_unit n) as Hr.
  exists (AmbientSound.set_ctx
            (AmbientSound.start
               (AmbientSound.note (600 + random n * 200) now 0.06 1)
               (AmbientSound.start
                  (AmbientSound.note (600 + random n * 200) now 0 0) c)) a).
  eexists _, _, _, (600 + random n * 200).
  split; [reflexivity|].
  cbn [AmbientSound.ctx AmbientSound.set_ctx AmbientSound.started
       AmbientSound.start AmbientSound.drones].
  split; [reflexivity|]. split; [reflexivity|].
  split.
  { unfold oneShot, AmbientSound.note. cbn. split; [reflexivity|].
    split; [lra|]. eexists. split; [reflexivity|]. lra. }
  split.
  { unfold oneShot, AmbientSound.note. cbn. split; [reflexivity|].
    split; [lra|]. eexists. split; [reflexivity|]. lra. }
  split; [lra|].
  unfold voiceFrequency, AmbientSound.note.
  cbn [AmbientSound.v_source AmbientSound.v_start AmbientSound.v_stop INR].
  repeat split; try reflexivity; repeat f_equal; lra.
Qed.

End UnitDrawsInCues.

(** *** When the sound starts *)

Lemma silent_calls (a : AmbientSound.t) (n : nat) :
  AmbientSound.ctx a = None ->
  AmbientSound.triggerBurst random a n = Ok (a, n) /\
  AmbientSound.triggerColorChange random a n = Ok (a, n) /\
  forall idx, AmbientSound.setMode random idx a n
              = Ok (AmbientSound.set_currentMode idx a, n).
Proof.
  intros Hc.
  unfold AmbientSound.triggerBurst, AmbientSound.triggerColorChange,
    AmbientSound.setMode.
  cbn [AmbientSound.ctx AmbientSound.set_currentMode]. rewrite Hc. auto.
Qed.

(** The graph is not built and the sound is not wanted. *)
Lemma precomputeTargets_sound (m : Mode) (s : State) :
  audio (precomputeTargets m s) = audio s /\
  soundDesired (precomputeTargets m s) = soundDesired s.
Proof.
  unfold precomputeTargets.
  now destruct (for_loop COUNT _ _) as [[[tc ts] tmp] n].
Qed.

Lemma setMode_stays_off (idx : Z) (s s' : State) :
  soundDesired s = false -> AmbientSound.ctx (audio s) = None ->
  setMode idx s = Ok s' ->
  soundDesired s' = false /\ AmbientSound.ctx (audio s') = None.
Proof.
  intros Hd Hc. unfold setMode, updateModeUI.
  destruct (_ || _)%bool; [now intros [= <-]|].
  destruct (_ && _)%bool; [now intros [= <-]|].
  destruct (index MODES idx) as [m|]; simpl; [|discriminate].
  destruct (precomputeTargets_sound m (set_blend (currentMode s) idx 0 s))
    as [Ea Es].
  cbn [audio soundDesired set_blend] in Ea, Es. rewrite Ea.
  destruct (silent_calls (audio s)
              (rng (precomputeTargets m (set_blend (currentMode s) idx 0 s)))
              Hc) as (_ & _ & Hset).
  rewrite Hset. simpl. intros [= <-]. simpl. rewrite Es. auto.
Qed.

Lemma triggerColorTransition_stays_off (s s' : State) :
  soundDesired s = false -> AmbientSound.ctx (audio s) = None ->
  triggerColorTransition s = Ok s' ->
  soundDesired s' = false /\ AmbientSound.ctx (audio s') = None.
Proof.
  intros Hd Hc. unfold triggerColorTransition.
  destruct (index MODES _) as [m|]; simpl; [|discriminate].
  destruct (precomputeTargets_sound m s) as [Ea Es].
  set (s1 := precomputeTargets m s) in *.
  set (s2 := if Rgeb (modeBlend s1) 1
             then set_blend (currentMode s1) (currentMode s1) 0.5 s1
             else s1).
  assert (audio s2 = audio s /\ soundDesired s2 = soundDesired s) as [Ea2 Es2].
  { unfold s2. destruct (Rgeb _ 1); cbn; auto. }
  rewrite Ea2.
  destruct (silent_calls (audio s) (rng s2) Hc) as (_ & Hcol & _).
  rewrite Hcol. simpl. intros [= <-]. simpl. rewrite Es2. auto.
Qed.

Lemma burstAt_stays_off (wx wy : R) (push : bool) (s s' : State) :
  soundDesired s = false -> AmbientSound.ctx (audio s) = None ->
  burstAt wx wy push s = Ok s' ->
  soundDesired s' = false /\ AmbientSound.ctx (audio s') = None.
Proof.
  intros Hd Hc. unfold burstAt.
  destruct (for_loop COUNT _ _) as [vel n]. cbv zeta.
  cbn [audio rng set_motion].
  destruct (silent_calls (audio s) n Hc) as (Hb & _ & _).
  rewrite Hb. simpl. intros [= <-]. simpl. auto.
Qed.

Lemma ensureAudio_stays_off (s : State) :
  soundDesired s = false -> ensureAudio s = Ok s.
Proof.
  intros Hd. unfold ensureAudio. rewrite Hd.
  now rewrite Bool.andb_false_r.
Qed.

Lemma handle_stays_off (e : Event) (s s' : State) :
  isSoundToggle e = false ->
  soundDesired s = false -> AmbientSound.ctx (audio s) = None ->
  handle e s = Ok s' ->
  soundDesired s' = false /\ AmbientSound.ctx (audio s') = None.
Proof.
  intros He Hd Hc.
  destruct e; simpl handle; try discriminate;
    try (now intros [= <-]).
  - unfold animate, updateParticles, blendStep, bind.
    destruct (getActiveMode s); [|discriminate].
    destruct (for_loop COUNT _ _) as [[pos vel] n].
    cbn [modeBlend set_motion set_bloomStrength].
    destruct (Rltb (modeBlend s) 1); intros [= <-]; simpl; auto.
  - now apply setMode_stays_off.
  - apply triggerColorTransition_stays_off; assumption.
  - rewrite (ensureAudio_stays_off s Hd). simpl bind.
    cbn [mouseActive set_pointer].
    destruct (mouseActive s); [|now intros [= <-]].
    apply burstAt_stays_off; assumption.
  - rewrite (ensureAudio_stays_off s Hd). simpl bind.
    apply burstAt_stays_off; assumption.
  - destruct k; try (now intros [= <-]).
    destruct (_ && _)%bool; [|now intros [= <-]].
    apply setMode_stays_off; assumption.
  - destruct k; now intros [= <-].
Qed.

(** X22 (sound switched off stays off).  Once the sound toggle has been
    switched off before the audio graph was built, no frame, mode change,
    colour pick, pointer, touch or key event builds the graph: after any run
    of events other than a click on the sound toggle the engine still has no
    audio context and the sound is still not wanted. *)
Theorem sound_switched_off_stays_off (es : list Event) (s s' : State) :
  Forall (fun e => isSoundToggle e = false) es ->
  soundDesired s = false -> AmbientSound.ctx (audio s) = None ->
  run es s = Ok s' ->
  soundDesired s' = false /\ AmbientSound.ctx (audio s') = None.
Proof.
  intros Hes. revert s. induction Hes as [|e es He Hes IH]; intros s Hd Hc.
  - now intros [= <-].
  - simpl. destruct (handle e s) as [s1|] eqn:H1; simpl; [|discriminate].
    destruct (handle_stays_off e s s1 He Hd Hc H1) as [Hd1 Hc1].
    now apply IH.
Qed.

Lemma triggerBurst_keeps (a a' : AmbientSound.t) (n n' : nat) :
  AmbientSound.triggerBurst random a n = Ok (a', n') ->
  AmbientSound._enabled a' = AmbientSound._enabled a /\
  AmbientSound.drones a' = AmbientSound.drones a /\
  (is_Some (AmbientSound.ctx a) -> is_Some (AmbientSound.ctx a')).
Proof.
  unfold AmbientSound.triggerBurst.
  destruct (AmbientSound.ctx a) as [c|] eqn:Hc;
    [|intros [= <- _]; rewrite Hc; repeat split; auto].
  destruct (negb _); [intros [= <- _]; rewrite Hc; repeat split; auto|].
  destruct (AmbientSound.sfxGain a); simpl; [|discriminate].
  intros [= <- _]. simpl. repeat split; eauto.
Qed.

Lemma first_toggle_starts (a : AmbientSound.t) (n : nat) :
  wf_audio a -> AmbientSound.ctx a = None ->
  exists a' n',
    AmbientSound.toggle random deviceSampleRate a n = Ok (true, a', n') /\
    AmbientSound._enabled a' = true /\
    is_Some (AmbientSound.ctx a') /\
    length (AmbientSound.drones a') = 3%nat.
Proof.
  intros (Hm & Hw) Hc. rewrite Hc in Hw. destruct Hw as (Hd & He).
  destruct (index_MODE_FREQS_valid _ Hm) as (fs & Hfs & Hlen).
  destruct fs as [|f0 [|f1 [|f2 [|f3 fs]]]]; simpl in Hlen; try lia.
  unfold AmbientSound.toggle, AmbientSound.init. rewrite Hc, Hfs. simpl.
  rewrite Hd. eexists _, _. split; [reflexivity|]. simpl.
  repeat split; eauto.
Qed.

(** X23 (the first press starts the sound).  While the sound is wanted
    and the audio graph is not built yet, a press of the mouse builds it: the
    handler returns, the engine is enabled with its audio context and its
    three drones, and the press made its call to the toggle, followed by the
    burst cue when the pointer is over the canvas. *)
Theorem first_press_starts_the_sound (repel : bool) (s : State) :
  wf_State s -> soundDesired s = true ->
  AmbientSound.ctx (audio s) = None ->
  exists s',
    handle (ev_mousedown repel) s = Ok s' /\
    AmbientSound._enabled (audio s') = true /\
    is_Some (AmbientSound.ctx (audio s')) /\
    length (AmbientSound.drones (audio s')) = 3%nat /\
    audioCalls s'
    = (if mouseActive s then [call_triggerBurst; call_toggle]
       else [call_toggle]) ++ audioCalls s.
Proof.
  intros W Hd Hc.
  pose proof (wf_engine s W) as Wa.
  destruct (first_toggle_starts (audio s) (rng s) Wa Hc)
    as (a1 & n1 & Htog & He1 & Hc1 & Hd1).
  unfold handle, ensureAudio, AmbientSound.enabled.
  destruct Wa as (_ & Hw). rewrite Hc in Hw. destruct Hw as (_ & He).
  rewrite He, Hd. cbn [negb andb]. rewrite Htog. cbn [bind fst snd].
  cbn [mouseActive mouseWorld repelling set_pointer set_audio].
  destruct (mouseActive s).
  - set (s2 := set_pointer _ _ _ _ _).
    assert (wf_State s2) as W2.
    { unfold s2. apply wf_set_pointer, wf_set_audio; [exact W|].
      cbn [fst]. destruct (toggle_ok deviceSampleRate (audio s) (rng s)
                             (wf_engine s W)) as (b & a' & n' & Ht & Wa').
      rewrite Htog in Ht. now injection Ht as _ <- _. }
    destruct (burstAt_spec (fst (fst (mouseWorld s))) (snd (fst (mouseWorld s)))
                (if repel then true else repelling s) s2 W2)
      as (s' & Hs' & _ & Hcalls & Hcue & _).
    exists s'. split; [exact Hs'|].
    apply triggerBurst_keeps in Hcue as (Een & Edr & Ectx).
    unfold s2 in Een, Edr, Ectx, Hcalls.
    cbn [audio audioCalls set_pointer set_audio fst] in Een, Edr, Ectx, Hcalls.
    rewrite Een, Edr, Hcalls. repeat split; auto.
  - eexists. split; [reflexivity|].
    cbn [audio audioCalls set_pointer set_audio fst]. repeat split; auto.
Qed.

(** *** The camera *)

Lemma moveCamera_range (e : CameraEvent) (c : Camera) :
  cameraInRange c -> cameraInRange (moveCamera e c).
Proof.
  unfold cameraInRange. intros (Hz & Hx & Hy).
  destruct e as [deltaY| |elapsed]; simpl.
  - split; [|auto]. unfold Rmax, Rmin.
    repeat destruct (Rle_dec _ _); lra.
  - unfold CAMERA_Z. split; [lra|auto].
  - split; [exact Hz|].
    set (angle := cameraAngle c + Rmin (elapsed / 1000) 0.05 * 0.04).
    pose proof (SIN_bound angle). pose proof (COS_bound (angle * 0.7)).
    lra.
Qed.

(** X24 (camera limits).  Whatever the wheel, double-click and frame
    events, in any order and with any scroll amounts and frame times, the
    camera stays between 20 and 120 from the scene along z and within 3 and
    2 of the axis along x and y; a double click puts it back at its starting
    distance, 60. *)
Theorem camera_stays_in_range (es : list CameraEvent) :
  cameraInRange (runCamera es cameraStart) /\
  cam_z (runCamera (es ++ [cam_dblclick]) cameraStart) = CAMERA_Z.
Proof.
  split.
  - unfold runCamera.
    assert (cameraInRange cameraStart) as H0.
    { unfold cameraInRange, cameraStart, CAMERA_Z. simpl. lra. }
    revert H0. generalize cameraStart.
    induction es as [|e es IH]; intros c Hc; simpl; [exact Hc|].
    apply IH, moveCamera_range, Hc.
  - unfold runCamera. now rewrite fold_left_app.
Qed.

(** *** The sound button and the engine *)

Lemma sameSwitch_agrees (s s' : State) :
  sameSwitch (audio s) (audio s') -> soundDesired s' = soundDesired s ->
  soundAgrees s -> soundAgrees s'.
Proof.
  unfold sameSwitch, soundAgrees. intros (He & Hc) Hd.
  destruct (AmbientSound.ctx (audio s)), (AmbientSound.ctx (audio s'));
    rewrite He, ?Hd; auto.
  - destruct Hc as [Hc _]. discriminate Hc. reflexivity.
  - destruct Hc as [_ Hc]. discriminate Hc. reflexivity.
Qed.

Lemma triggerSweep_switch (a a' : AmbientSound.t) (n n' : nat) :
  AmbientSound.triggerSweep random a n = Ok (a', n') -> sameSwitch a a'.
Proof.
  unfold AmbientSound.triggerSweep, sameSwitch.
  destruct (AmbientSound.ctx a) as [c|] eqn:Hc;
    [|intros [= <- _]; rewrite Hc; split; [reflexivity|split; auto]].
  destruct (AmbientSound.sfxGain a); simpl; [|discriminate].
  intros [= <- _]. simpl. split; [reflexivity|]. split; discriminate.
Qed.

Lemma audio_setMode_switch (idx : Z) (a a' : AmbientSound.t) (n n' : nat) :
  AmbientSound.setMode random idx a n = Ok (a', n') -> sameSwitch a a'.
Proof.
  unfold AmbientSound.setMode. cbn [AmbientSound.ctx AmbientSound.set_currentMode
    AmbientSound._enabled AmbientSound.drones].
  destruct (AmbientSound.ctx a) as [c|] eqn:Hc.
  - destruct (negb _).
    + intros [= <- _]. unfold sameSwitch. simpl. rewrite Hc.
      split; [reflexivity|split; auto].
    + destruct (AmbientSound.retune _ _ _ _) as [ds|]; simpl; [|discriminate].
      intros H. apply triggerSweep_switch in H.
      unfold sameSwitch in *. simpl in H. exact H.
  - intros [= <- _]. unfold sameSwitch. simpl. rewrite Hc.
      split; [reflexivity|split; auto].
Qed.

Lemma triggerBurst_switch (a a' : AmbientSound.t) (n n' : nat) :
  AmbientSound.triggerBurst random a n = Ok (a', n') -> sameSwitch a a'.
Proof.
  unfold AmbientSound.triggerBurst, sameSwitch.
  destruct (AmbientSound.ctx a) as [c|] eqn:Hc;
    [|intros [= <- _]; rewrite Hc; split; [reflexivity|split; auto]].
  destruct (negb _);
    [intros [= <- _]; rewrite Hc; split; [reflexivity|split; auto]|].
  destruct (AmbientSound.sfxGain a); simpl; [|discriminate].
  intros [= <- _]. simpl. split; [reflexivity|]. split; discriminate.
Qed.

Lemma triggerColorChange_switch (a a' : AmbientSound.t) (n n' : nat) :
  AmbientSound.triggerColorChange random a n = Ok (a', n') -> sameSwitch a a'.
Proof.
  unfold AmbientSound.triggerColorChange, sameSwitch.
  destruct (AmbientSound.ctx a) as [c|] eqn:Hc;
    [|intros [= <- _]; rewrite Hc; split; [reflexivity|split; auto]].
  destruct (negb _);
    [intros [= <- _]; rewrite Hc; split; [reflexivity|split; auto]|].
  destruct (AmbientSound.sfxGain a); simpl; [|discriminate].
  intros [= <- _]. simpl. split; [reflexivity|]. split; discriminate.
Qed.

(** What a call to [toggle] leaves: a built graph, and the engine switched
    on when it had none, flipped when it had one. *)
Lemma toggle_switch (sr : nat) (a a' : AmbientSound.t) (b : bool)
  (n n' : nat) :
  AmbientSound.toggle random sr a n = Ok (b, a', n') ->
  AmbientSound.ctx a' <> None /\ b = AmbientSound._enabled a' /\
  AmbientSound._enabled a'
  = match AmbientSound.ctx a with
    | None => true
    | Some _ => negb (AmbientSound._enabled a)
    end.
Proof.
  unfold AmbientSound.toggle, AmbientSound.init.
  destruct (AmbientSound.ctx a) as [c|].
  - destruct (AmbientSound.master a); simpl; [|discriminate].
    destruct (AmbientSound.sfxGain a); simpl; [|discriminate].
    intros [= <- <- _]. simpl. repeat split. discriminate.
  - destruct (index _ _) as [fs|]; simpl; [|discriminate].
    destruct (AmbientSound.make_drone fs 0 0); simpl; [|discriminate].
    destruct (AmbientSound.make_lfos fs 0 0); simpl; [|discriminate].
    destruct (AmbientSound.make_drone fs 0 1); simpl; [|discriminate].
    destruct (AmbientSound.make_lfos fs 0 1); simpl; [|discriminate].
    destruct (AmbientSound.make_drone fs 0 2); simpl; [|discriminate].
    destruct (AmbientSound.make_lfos fs 0 2); simpl; [|discriminate].
    intros [= <- <- _]. simpl. repeat split. discriminate.
Qed.

Lemma setMode_agrees (idx : Z) (s s' : State) :
  setMode idx s = Ok s' -> soundAgrees s -> soundAgrees s'.
Proof.
  unfold setMode, updateModeUI.
  destruct (_ || _)%bool; [now intros [= <-]|].
  destruct (_ && _)%bool; [now intros [= <-]|].
  destruct (index MODES idx) as [m|]; simpl; [|discriminate].
  destruct (precomputeTargets_sound m (set_blend (currentMode s) idx 0 s))
    as [Ea Es].
  cbn [audio soundDesired set_blend] in Ea, Es. rewrite Ea.
  destruct (AmbientSound.setMode random idx (audio s) _) as [[a' n']|] eqn:E;
    simpl; [|discriminate].
  intros [= <-]. apply sameSwitch_agrees.
  - simpl. apply (audio_setMode_switch _ _ _ _ _ E).
  - simpl. exact Es.
Qed.

Lemma triggerColorTransition_agrees (s s' : State) :
  triggerColorTransition s = Ok s' -> soundAgrees s -> soundAgrees s'.
Proof.
  unfold triggerColorTransition.
  destruct (index MODES _) as [m|]; simpl; [|discriminate].
  destruct (precomputeTargets_sound m s) as [Ea Es].
  set (s1 := precomputeTargets m s) in *.
  set (s2 := if Rgeb (modeBlend s1) 1
             then set_blend (currentMode s1) (currentMode s1) 0.5 s1
             else s1).
  assert (audio s2 = audio s /\ soundDesired s2 = soundDesired s) as [Ea2 Es2].
  { unfold s2. destruct (Rgeb _ 1); cbn; auto. }
  rewrite Ea2.
  destruct (AmbientSound.triggerColorChange random (audio s) _)
    as [[a' n']|] eqn:E; simpl; [|discriminate].
  intros [= <-]. apply sameSwitch_agrees.
  - simpl. apply (triggerColorChange_switch _ _ _ _ E).
  - simpl. exact Es2.
Qed.

Lemma burstAt_agrees (wx wy : R) (push : bool) (s s' : State) :
  burstAt wx wy push s = Ok s' -> soundAgrees s -> soundAgrees s'.
Proof.
  unfold burstAt.
  destruct (for_loop COUNT _ _) as [vel n]. cbv zeta.
  cbn [audio rng set_motion].
  destruct (AmbientSound.triggerBurst random (audio s) n)
    as [[a' n']|] eqn:E; simpl; [|discriminate].
  intros [= <-]. apply sameSwitch_agrees.
  - simpl. apply (triggerBurst_switch _ _ _ _ E).
  - reflexivity.
Qed.

Lemma ensureAudio_agrees (s s' : State) :
  ensureAudio s = Ok s' -> soundAgrees s ->
  soundAgrees s' /\ mouseActive s' = mouseActive s /\
  (soundDesired s = true ->
   AmbientSound._enabled (audio s') = true).
Proof.
  intros H Hs. unfold ensureAudio, AmbientSound.enabled in H.
  unfold soundAgrees in *.
  destruct (AmbientSound._enabled (audio s)) eqn:He;
    destruct (soundDesired s) eqn:Hd; cbn [negb andb] in H.
  1, 2, 4: injection H as <-; rewrite ?He, ?Hd;
    split; [exact Hs|split; [reflexivity|auto]].
  destruct (AmbientSound.toggle _ _ _ _) as [[[b a'] n']|] eqn:E;
    simpl in H; [|discriminate].
  injection H as <-. simpl.
  apply toggle_switch in E as (Hc' & _ & He').
  destruct (AmbientSound.ctx (audio s)); [discriminate Hs|].
  destruct (AmbientSound.ctx a'); [|contradiction].
  rewrite Hd, He'. auto.
Qed.

Lemma soundToggleClick_agrees (s s' : State) :
  soundToggleClick s = Ok s' -> soundAgrees s -> soundAgrees s'.
Proof.
  intros H Hs. unfold soundToggleClick, AmbientSound.enabled in H.
  unfold soundAgrees in *.
  destruct (AmbientSound._enabled (audio s)) eqn:He;
    destruct (soundDesired s) eqn:Hd; cbn [negb andb] in H.
  1, 2, 4: destruct (AmbientSound.toggle _ _ _ _) as [[[b a'] n']|] eqn:E;
    simpl in H; [|discriminate];
    injection H as <-; simpl;
    apply toggle_switch in E as (Hc' & Hb & He');
    destruct (AmbientSound.ctx a'); [|contradiction].
  - exact Hb.
  - exact Hb.
  - rewrite He', He. now destruct (AmbientSound.ctx (audio s)).
  - injection H as <-. simpl. rewrite He.
    destruct (AmbientSound.ctx (audio s)); [discriminate Hs|reflexivity].
Qed.

Lemma handle_agrees (e : Event) (s s' : State) :
  handle e s = Ok s' -> soundAgrees s -> soundAgrees s'.
Proof.
  destruct e; simpl handle; try (now intros [= <-]).
  - unfold animate, updateParticles, blendStep, bind.
    destruct (getActiveMode s); [|discriminate].
    destruct (for_loop COUNT _ _) as [[pos vel] n].
    cbn [modeBlend set_motion set_bloomStrength].
    destruct (Rltb (modeBlend s) 1); intros [= <-]; simpl; auto.
  - apply setMode_agrees.
  - unfold pickColor. intros H Hs.
    apply (triggerColorTransition_agrees _ _ H). exact Hs.
  - apply soundToggleClick_agrees.
  - destruct (ensureAudio s) as [s1|] eqn:E1; simpl bind; [|discriminate].
    intros H Hs. apply (ensureAudio_agrees _ _ E1) in Hs as (Hs1 & _).
    cbn [mouseActive set_pointer] in H.
    destruct (mouseActive s1); [|injection H as <-; exact Hs1].
    apply (burstAt_agrees _ _ _ _ _ H). exact Hs1.
  - destruct (ensureAudio s) as [s1|] eqn:E1; simpl bind; [|discriminate].
    intros H Hs. apply (ensureAudio_agrees _ _ E1) in Hs as (Hs1 & _).
    apply (burstAt_agrees _ _ _ _ _ H). exact Hs1.
  - destruct k; try (now intros [= <-]).
    destruct (_ && _)%bool; [|now intros [= <-]].
    apply setMode_agrees.
  - destruct k; now intros [= <-].
Qed.

Lemma run_agrees (es : list Event) (s s' : State) :
  run es s = Ok s' -> soundAgrees s -> soundAgrees s'.
Proof.
  revert s. induction es as [|e es IH]; intros s; simpl.
  - now intros [= <-].
  - destruct (handle e s) as [s1|] eqn:H1; simpl; [|discriminate].
    intros H Hs. apply (IH s1 H). apply (handle_agrees e s s1 H1 Hs).
Qed.

Lemma randomizeParticle_sound (i : nat) (m : Mode) (sc : R) (s : State) :
  audio (randomizeParticle i m sc s) = audio s /\
  soundDesired (randomizeParticle i m sc s) = soundDesired s.
Proof.
  unfold randomizeParticle.
  now destruct (sampleHSL _ _ _ _ _) as [[hue sat] light].
Qed.

Lemma initial_sound :
  audio initial = AmbientSound.new /\ soundDesired initial = true.
Proof.
  unfold initial.
  assert (forall n,
            audio (for_loop n (fun i s => randomizeParticle i void 1.0 s)
                     declared) = AmbientSound.new /\
            soundDesired (for_loop n
                            (fun i s => randomizeParticle i void 1.0 s)
                            declared) = true) as H; [|apply H].
  induction n as [|n IH]; cbn [for_loop]; [split; reflexivity|].
  destruct (randomizeParticle_sound n void 1.0
              (for_loop n (fun i s => randomizeParticle i void 1.0 s)
                 declared)) as [-> ->].
  exact IH.
Qed.

(** X25 (the sound button agrees with the engine).  After any run of
    events from the initial state the sound button shows what the engine
    does: once the audio graph is built, the sound is marked as wanted
    exactly when the engine is enabled, and an engine without a graph is
    not enabled. *)
Theorem sound_button_agrees_with_engine (es : list Event) :
  Forall timely es ->
  exists s, run es initial = Ok s /\ soundAgrees s.
Proof.
  intros Hes.
  destruct (run_ok es initial Hes wf_initial) as (s & Hs & _).
  exists s. split; [exact Hs|].
  apply (run_agrees es initial s Hs).
  unfold soundAgrees. destruct initial_sound as [-> _]. reflexivity.
Qed.

(** *** Pointer gravity *)



End Cosmos.

(** ** Instances

    Each theorem that has hypotheses, applied to the sample data. *)

Lemma wf_sampleState : wf_State 1 sampleState.
Proof.
  constructor; simpl; try reflexivity;
    try (unfold valid_mode; simpl; lia); try lra.
  split; [unfold valid_mode; simpl; lia|split; reflexivity].
Defined.

Lemma bounds_after_every_step_witness :
  Forall timely [ev_modeButton 3; ev_frame 16; ev_mousedown false] /\
  0 <= 16 /\ (0 < 1)%nat /\
  exists s m s',
    run evenDraws 1 plainHSL 8 exactRounding [ev_modeButton 3; ev_frame 16; ev_mousedown false]
      (initial evenDraws 1 plainHSL) = Ok s /\
    getActiveMode s = Ok m /\
    handle evenDraws 1 plainHSL 8 exactRounding (ev_frame 16) s = Ok s' /\
    BOUNDS = 40 /\
    inBounds (depthRange m) (particle s' 0).
Proof.
  assert (Forall timely [ev_modeButton 3; ev_frame 16; ev_mousedown false])
    as Hes by (repeat constructor; simpl; lra).
  assert (0 <= 16) as Hel by lra.
  assert (0 < 1)%nat as Hi by lia.
  split; [exact Hes|]. split; [exact Hel|]. split; [exact Hi|].
  exact (bounds_after_every_step evenDraws 1 plainHSL 8 exactRounding _ 16 0 Hes Hel Hi).
Defined.

(** C1, as worded.  The depth bound does not hold for the mode that is
    active at the end of the step: the step clamps z with the depth range of
    the mode it started with and advances the blend afterwards.  From the
    state [shrinkingState] a frame of 50 ms leaves the particle at a depth
    above 39.9, while the mode active after the frame has the depth range
    40 + (12 - 40) * 0.025 = 39.3. *)
Lemma bounds_not_for_the_mode_after_the_step :
  exists s' m',
    handle evenDraws 1 plainHSL 8 exactRounding (ev_frame 50) shrinkingState
    = Ok s' /\
    getActiveMode s' = Ok m' /\
    depthRange m' = 39.3 /\
    39.9 < pz (particle s' 0) /\
    ~ inBounds (depthRange m') (particle s' 0).
Proof.
  assert (wf_State 1 shrinkingState) as W.
  { apply wf_set_motion; [exact wf_sampleState|reflexivity|reflexivity]. }
  assert (Rgeb 0 1 = false) as Hrest by (apply Rgeb_false; lra).
  assert (exists m, getActiveMode shrinkingState = Ok m /\
                    damping m = lerp 0.996 0.984 0 /\
                    centerPull m = lerp 0.0002 0.003 0 /\
                    equilibrium m = lerp 18 10 0 /\
                    swirl m = lerp 0.0 0.02 0 /\
                    drift m = lerp 0.005 0.01 0 /\
                    depthRange m = lerp 40 12 0)
    as (m & Hm & Hdamp & Hpull & Heq & Hswirl & Hdrift & Hdepth).
  { unfold getActiveMode. cbn [modeBlend shrinkingState set_motion sampleState].
    rewrite Hrest. eexists. split; [reflexivity|]. repeat split. }
  assert (Rmin (50 / 1000) 0.05 = 0.05) as Hdt.
  { unfold Rmin. destruct (Rle_dec _ _); lra. }
  simpl handle. unfold animate. rewrite Hdt.
  destruct (updateParticles_spec evenDraws 1 exactRounding 0.05
              shrinkingState m W Hm)
    as (s' & Hs' & E & _ & _ & _ & Hstep).
  assert (modeBlend s' = 0.025 /\ currentMode s' = 4%Z /\
          targetMode s' = 3%Z) as (Hb & Hc & Ht).
  { rewrite E. unfold blendStep, nextBlend.
    cbn [modeBlend currentMode targetMode set_motion set_bloomStrength
         set_appearance set_blend shrinkingState sampleState rounded
         exactRounding].
    assert (Rltb 0 1 = true) as -> by (apply Rltb_true; lra).
    assert (Rmin (0 + 0.05 * 0.5) 1 = 0.025) as ->.
    { unfold Rmin. destruct (Rle_dec _ _); lra. }
    assert (Rgeb 0.025 1 = false) as -> by (apply Rgeb_false; lra).
    cbn [modeBlend currentMode targetMode set_appearance set_blend].
    auto. }
  assert (exists m', getActiveMode s' = Ok m' /\
                     depthRange m' = lerp 40 12 0.025) as (m' & Hm' & Hd').
  { unfold getActiveMode. rewrite Hb, Hc, Ht.
    assert (Rgeb 0.025 1 = false) as -> by (apply Rgeb_false; lra).
    eexists. split; reflexivity. }
  assert (depthRange m' = 39.3) as Hd39 by (rewrite Hd'; unfold lerp; lra).
  assert (39.9 < pz (particle s' 0)) as Hz.
  { rewrite (Hstep 0%nat (Nat.lt_0_succ 0)).
    assert (particle shrinkingState 0
            = {| px := 0; py := 0; pz := 40; vx := 0; vy := 0; vz := 0 |})
      as -> by reflexivity.
    unfold particleStep, centerPullStep. cbn [px py pz vx vy vz].
    replace (0 * 0 + 0 * 0 + 40 * 40) with (40 * 40) by lra.
    rewrite sqrt_square by lra.
    assert (mouseStrength m (mouseDown shrinkingState)
              (mouseActive shrinkingState) (repelling shrinkingState) = 0)
      as -> by reflexivity.
    unfold mouseStep. destruct (mouseWorld shrinkingState) as [[mx my] mz].
    assert (Reqb 0 0 = true) as -> by now apply Reqb_true.
    unfold swirlStep. rewrite Hswirl.
    assert (Rgtb (lerp 0.0 0.02 0) 0 = false) as ->.
    { unfold Rgtb, lerp. destruct (Rgt_dec _ 0); [lra|reflexivity]. }
    unfold driftStep, dampStep, integrateStep, boundaryStep, evenDraws.
    cbn [px py pz vx vy vz]. rewrite Hdamp, Hpull, Heq, Hdrift, Hdepth.
    unfold lerp.
    set (vz1 := (0 - 40 / (40 + 0.1)
                     * ((0.0002 + (0.003 - 0.0002) * 0)
                        * (40 + 0.1 - (18 + (10 - 18) * 0))) * 0.3
                 + (0.5 - 0.5) * (0.005 + (0.01 - 0.005) * 0) * 0.3)
                * (0.996 + (0.984 - 0.996) * 0)).
    assert (-0.002 < vz1 < 0) as Hv.
    { unfold vz1.
      assert (0.99 < 40 / (40 + 0.1) < 1) as Hq.
      { split.
        - apply (Rmult_lt_reg_r (40 + 0.1)); [lra|].
          unfold Rdiv. rewrite Rmult_assoc, Rinv_l; lra.
        - apply (Rmult_lt_reg_r (40 + 0.1)); [lra|].
          unfold Rdiv. rewrite Rmult_assoc, Rinv_l; lra. }
      set (q := 40 / (40 + 0.1)) in *. nra. }
    unfold bounce. cbn [fst snd].
    assert (Rgtb (40 + vz1 * 0.05 * 60) (40 + (12 - 40) * 0) = false) as ->.
    { unfold Rgtb. destruct (Rgt_dec _ _); [lra|reflexivity]. }
    cbn [fst snd].
    assert (Rltb (40 + vz1 * 0.05 * 60) (- (40 + (12 - 40) * 0)) = false)
      as ->.
    { unfold Rltb. destruct (Rlt_dec _ _); [lra|reflexivity]. }
    cbn [fst snd]. lra. }
  exists s', m'. split; [exact Hs'|]. split; [exact Hm'|].
  split; [exact Hd39|]. split; [exact Hz|].
  unfold inBounds. rewrite Hd39. intros (_ & _ & _ & Hup). lra.
Qed.




Lemma transition_request_witness :
  valid_mode 2 /\ wf_State 1 sampleState /\
  (setMode evenDraws 1 plainHSL 2 sampleState = Ok sampleState <->
   2%Z = currentMode sampleState /\ modeBlend sampleState >= 1) /\
  (~ (2%Z = currentMode sampleState /\ modeBlend sampleState >= 1) ->
   exists s',
     setMode evenDraws 1 plainHSL 2 sampleState = Ok s' /\
     modeBlend s' = 0 /\ targetMode s' = 2%Z /\
     currentMode s' = currentMode sampleState /\
     audioCalls s' = call_setMode 2 :: audioCalls sampleState /\
     read3 (targetColors s') 0
     = plainHSL
         (0.5 - 0.06 + evenDraws 0 * (0.5 + 0.06 - (0.5 - 0.06)))
         (Rmax (fst (satRange aurora)) 0.5
          + evenDraws 1
            * (Rmax (snd (satRange aurora)) 0.9
               - Rmax (fst (satRange aurora)) 0.5))
         (fst (lightRange aurora)
          + evenDraws 2
            * (snd (lightRange aurora) - fst (lightRange aurora))) /\
     targetSizes s' !!! 0%nat
     = fst (sizeRange aurora)
       + evenDraws 3 * (snd (sizeRange aurora) - fst (sizeRange aurora))).
Proof.
  assert (valid_mode 2) as Hi by (unfold valid_mode; simpl; lia).
  split; [exact Hi|]. split; [exact wf_sampleState|].
  destruct (transition_request evenDraws 1 plainHSL 2 sampleState Hi
              wf_sampleState) as [Hiff Hfires].
  split; [exact Hiff|].
  intros Hnot.
  destruct (Hfires Hnot)
    as (m & s' & Hm & Hs' & Hb & Ht & Hc & Hcalls & _ & Htargets).
  injection Hm as <-.
  exists s'. split; [exact Hs'|]. split; [exact Hb|]. split; [exact Ht|].
  split; [exact Hc|]. split; [exact Hcalls|].
  exact (Htargets 0%nat (Nat.lt_0_succ 0)).
Defined.

Lemma decay_to_rest_witness :
  forceless still /\ speed moving <> 0 /\
  (forall x,
     speed (stepWith still x moving) < speed moving /\
     softBoundary BOUNDS
       (px moving + vx moving * damping still * in_dt x * 60)
       (vx moving * damping still)
       (px (stepWith still x moving)) (vx (stepWith still x moving))) /\
  (forall n,
     speed (stepsWith still (fun _ => idle) n moving)
     <= damping still ^ n * speed moving) /\
  (forall eps, 0 < eps ->
     exists N, forall n, (N <= n)%nat ->
       speed (stepsWith still (fun _ => idle) n moving) < eps).
Proof.
  assert (forceless still) as F.
  { unfold forceless, still. simpl. repeat split; try reflexivity; lra. }
  assert (speed moving <> 0) as Hv.
  { unfold speed, moving. simpl.
    replace (1 * 1 + 0 * 0 + 0 * 0) with (1 * 1) by lra.
    rewrite sqrt_square; lra. }
  split; [exact F|]. split; [exact Hv|].
  destruct (decay_to_rest still (fun _ => idle) moving F Hv)
    as (Hstep & Hpow & Hlim).
  split; [|split; [exact Hpow|exact Hlim]].
  intros x. destruct (Hstep x) as (Hlt & _ & _ & _ & Hx & _).
  split; [exact Hlt|exact Hx].
Defined.

Lemma override_containment_witness :
  (forall k, 0 <= evenDraws k < 1) /\ wf_State 1 sampleState /\
  (colorOverride sampleState = Some 0.5 ->
   forall idx,
     valid_mode idx ->
     ~ (idx = currentMode sampleState /\ modeBlend sampleState >= 1) ->
     exists s', setMode evenDraws 1 plainHSL idx sampleState = Ok s' /\
       forall i, (i < 1)%nat ->
         overrideTarget plainHSL 0.5 (read3 (targetColors s') i)) /\
  (colorOverride sampleState = Some 0.5 ->
   exists s', triggerColorTransition evenDraws 1 plainHSL sampleState = Ok s' /\
     forall i, (i < 1)%nat ->
       overrideTarget plainHSL 0.5 (read3 (targetColors s') i)) /\
  (exists s', pickColor evenDraws 1 plainHSL (Some 0.5) sampleState = Ok s' /\
     colorOverride s' = Some 0.5 /\
     forall i, (i < 1)%nat ->
       overrideTarget plainHSL 0.5 (read3 (targetColors s') i)).
Proof.
  assert (forall k, 0 <= evenDraws k < 1) as Hunit.
  { intros k. unfold evenDraws. lra. }
  split; [exact Hunit|]. split; [exact wf_sampleState|].
  exact (override_containment evenDraws 1 plainHSL Hunit 0.5 sampleState
           wf_sampleState).
Defined.

Lemma burst_impulse_witness :
  wf_State 1 sampleState /\
  exists s',
    burstAt evenDraws 1 0 0 false sampleState = Ok s' /\
    audioCalls s' = call_triggerBurst :: audioCalls sampleState.
Proof.
  split; [exact wf_sampleState|].
  destruct (burst_impulse evenDraws 1 0 0 false sampleState wf_sampleState)
    as (s' & Hs' & Hcalls & _).
  exists s'. split; [exact Hs'|exact Hcalls].
Defined.

Lemma burst_lateral_witness :
  wf_State 1 sampleState /\
  exists s',
    burstAt evenDraws 1 0 0 true sampleState = Ok s' /\
    (burstHitAt (positions sampleState) 0 0 0 = true <->
     (3 - 0) * (3 - 0) + (4 - 0) * (4 - 0) < 12 * 12).
Proof.
  split; [exact wf_sampleState|].
  destruct (burst_lateral evenDraws 1 0 0 true sampleState wf_sampleState)
    as (s' & Hs' & Hvel & _).
  exists s'. split; [exact Hs'|].
  exact (proj1 (Hvel 0%nat (Nat.lt_0_succ 0))).
Defined.

Lemma invalid_mode_ignored_witness :
  (7 < 0 \/ 7 >= Z.of_nat (length MODES))%Z /\
  setMode evenDraws 1 plainHSL 7 sampleState = Ok sampleState.
Proof.
  assert (7 < 0 \/ 7 >= Z.of_nat (length MODES))%Z as Hidx
    by (right; simpl; lia).
  split; [exact Hidx|].
  exact (invalid_mode_ignored evenDraws 1 plainHSL 7 sampleState Hidx).
Defined.

Lemma cues_are_noops_when_silent_witness :
  (AmbientSound.ctx AmbientSound.new = None \/
   AmbientSound._enabled AmbientSound.new = false) /\
  AmbientSound.triggerBurst evenDraws AmbientSound.new 0
  = Ok (AmbientSound.new, 0%nat) /\
  AmbientSound.triggerColorChange evenDraws AmbientSound.new 0
  = Ok (AmbientSound.new, 0%nat) /\
  forall idx,
    AmbientSound.setMode evenDraws idx AmbientSound.new 0
    = Ok (AmbientSound.set_currentMode idx AmbientSound.new, 0%nat) /\
    AmbientSound.ctx (AmbientSound.set_currentMode idx AmbientSound.new)
    = AmbientSound.ctx AmbientSound.new /\
    AmbientSound.drones (AmbientSound.set_currentMode idx AmbientSound.new)
    = AmbientSound.drones AmbientSound.new.
Proof.
  assert (AmbientSound.ctx AmbientSound.new = None \/
          AmbientSound._enabled AmbientSound.new = false) as Hsilent
    by (left; reflexivity).
  split; [exact Hsilent|].
  exact (cues_are_noops_when_silent evenDraws AmbientSound.new 0 Hsilent).
Defined.

(** *** Instances of the further properties *)

Lemma wf_pairState : wf_State 2 pairState.
Proof.
  constructor; simpl; try reflexivity;
    try (unfold valid_mode; simpl; lia); try lra.
  split; [unfold valid_mode; simpl; lia|split; reflexivity].
Defined.

Lemma wf_playing : wf_audio playing.
Proof.
  split; [unfold valid_mode; simpl; lia|].
  simpl. repeat split; eauto.
Defined.

Lemma evenDraws_unit : forall k, 0 <= evenDraws k < 1.
Proof. intros k. unfold evenDraws. lra. Defined.

Lemma sampleEvents_timely :
  Forall timely [ev_modeButton 3; ev_frame 16; ev_mousedown false;
                 ev_swatch (Some 0.5); ev_frame 16].
Proof. repeat constructor; simpl; lra. Defined.

Lemma events_never_raise_witness :
  Forall timely [ev_modeButton 3; ev_frame 16; ev_mousedown false;
                 ev_swatch (Some 0.5); ev_frame 16] /\
  exists s,
    run evenDraws 2 plainHSL 8 exactRounding
      [ev_modeButton 3; ev_frame 16; ev_mousedown false;
       ev_swatch (Some 0.5); ev_frame 16]
      (initial evenDraws 2 plainHSL) = Ok s /\
    length (positions s) = 6%nat /\ 0 <= modeBlend s <= 1.
Proof.
  split; [exact sampleEvents_timely|].
  destruct (events_never_raise evenDraws 2 plainHSL 8 exactRounding _ sampleEvents_timely)
    as (s & Hs & Hp & _ & _ & _ & _ & _ & _ & _ & _ & Hb).
  exists s. split; [exact Hs|]. split; [exact Hp|exact Hb].
Defined.

Lemma positions_stay_in_box_witness :
  (forall k, 0 <= evenDraws k < 1) /\
  Forall timely [ev_modeButton 3; ev_frame 16; ev_mousedown false;
                 ev_swatch (Some 0.5); ev_frame 16] /\
  (1 < 2)%nat /\
  exists s,
    run evenDraws 2 plainHSL 8 exactRounding
      [ev_modeButton 3; ev_frame 16; ev_mousedown false;
       ev_swatch (Some 0.5); ev_frame 16]
      (initial evenDraws 2 plainHSL) = Ok s /\
    -40 <= px (particle s 1) <= 40 /\
    -40 <= py (particle s 1) <= 40 /\
    -40 <= pz (particle s 1) <= 40.
Proof.
  assert (1 < 2)%nat as Hi by lia.
  split; [exact evenDraws_unit|]. split; [exact sampleEvents_timely|].
  split; [exact Hi|].
  exact (positions_stay_in_box evenDraws 2 plainHSL 8 exactRounding evenDraws_unit _ 1%nat
           sampleEvents_timely Hi).
Defined.

Lemma initial_particles_witness :
  (forall k, 0 <= evenDraws k < 1) /\ (1 < 2)%nat /\
  Rabs (vx (particle (initial evenDraws 2 plainHSL) 1)) <= 0.15 /\
  0.25 <= alphas (initial evenDraws 2 plainHSL) !!! 1%nat < 1.
Proof.
  assert (1 < 2)%nat as Hi by lia.
  split; [exact evenDraws_unit|]. split; [exact Hi|].
  destruct (initial_particles evenDraws 2 plainHSL evenDraws_unit 1%nat Hi)
    as (Hx & _ & _ & _ & Ha & _).
  split; [exact Hx|exact Ha].
Defined.

Lemma alphas_are_static_witness :
  exists s',
    run evenDraws 2 plainHSL 8 exactRounding
      [ev_modeButton 3; ev_frame 16; ev_mousedown false;
       ev_swatch (Some 0.5); ev_frame 16] pairState = Ok s' /\
    alphas s' = alphas pairState.
Proof.
  destruct (run_ok evenDraws 2 plainHSL 8 exactRounding _ pairState sampleEvents_timely
              wf_pairState) as (s' & Hs' & _).
  exists s'. split; [exact Hs'|].
  exact (alphas_are_static evenDraws 2 plainHSL 8 exactRounding _ pairState s' Hs').
Defined.

Lemma only_frames_move_particles_witness :
  exists s',
    handle evenDraws 2 plainHSL 8 exactRounding (ev_swatch (Some 0.5)) pairState = Ok s' /\
    isFrame (ev_swatch (Some 0.5)) = false /\
    positions s' = positions pairState /\
    colors s' = colors pairState /\
    sizes s' = sizes pairState /\
    (isPress (ev_swatch (Some 0.5)) = false ->
     velocities s' = velocities pairState).
Proof.
  destruct (handle_ok evenDraws 2 plainHSL 8 exactRounding (ev_swatch (Some 0.5)) pairState
              I wf_pairState) as (s' & Hs' & _).
  exists s'. split; [exact Hs'|]. split; [reflexivity|].
  exact (only_frames_move_particles evenDraws 2 plainHSL 8 exactRounding _ pairState s' Hs'
           eq_refl).
Defined.

Lemma active_mode_ranges_witness :
  Forall timely [ev_modeButton 3; ev_frame 16; ev_mousedown false;
                 ev_swatch (Some 0.5); ev_frame 16] /\
  exists s m,
    run evenDraws 2 plainHSL 8 exactRounding
      [ev_modeButton 3; ev_frame 16; ev_mousedown false;
       ev_swatch (Some 0.5); ev_frame 16]
      (initial evenDraws 2 plainHSL) = Ok s /\
    getActiveMode s = Ok m /\
    0.982 <= damping m <= 0.996 /\
    12 <= depthRange m <= 40.
Proof.
  split; [exact sampleEvents_timely|].
  destruct (active_mode_ranges evenDraws 2 plainHSL 8 exactRounding _ sampleEvents_timely)
    as (s & m & Hs & Hm & Hd & _ & _ & _ & _ & _ & _ & Hz).
  exists s, m. split; [exact Hs|]. split; [exact Hm|].
  split; [exact Hd|exact Hz].
Defined.

Lemma frame_velocity_bound_witness :
  (forall k, 0 <= evenDraws k < 1) /\
  Forall timely [ev_modeButton 3; ev_frame 16; ev_mousedown false;
                 ev_swatch (Some 0.5); ev_frame 16] /\
  0 <= 16 /\ (1 < 2)%nat /\
  exists s s',
    run evenDraws 2 plainHSL 8 exactRounding
      [ev_modeButton 3; ev_frame 16; ev_mousedown false;
       ev_swatch (Some 0.5); ev_frame 16]
      (initial evenDraws 2 plainHSL) = Ok s /\
    handle evenDraws 2 plainHSL 8 exactRounding (ev_frame 16) s = Ok s' /\
    Rabs (vx (particle s' 1)) <= 0.996 * (Rabs (vx (particle s 1)) + 0.7) /\
    Rabs (vy (particle s' 1)) <= 0.996 * (Rabs (vy (particle s 1)) + 0.7) /\
    Rabs (vz (particle s' 1)) <= 0.996 * (Rabs (vz (particle s 1)) + 0.7).
Proof.
  assert (0 <= 16) as Hel by lra.
  assert (1 < 2)%nat as Hi by lia.
  split; [exact evenDraws_unit|]. split; [exact sampleEvents_timely|].
  split; [exact Hel|]. split; [exact Hi|].
  exact (frame_velocity_bound evenDraws 2 plainHSL 8 exactRounding evenDraws_unit _ 16 1%nat
           sampleEvents_timely Hel Hi).
Defined.

Lemma request_restarts_from_settled_witness :
  valid_mode 2 /\ wf_State 2 pairState /\
  ~ (2%Z = currentMode pairState /\ modeBlend pairState >= 1) /\
  exists s' m,
    setMode evenDraws 2 plainHSL 2 pairState = Ok s' /\
    getActiveMode s' = Ok m /\
    damping m = damping void /\
    name m = name aurora.
Proof.
  assert (valid_mode 2) as Hv by (unfold valid_mode; simpl; lia).
  assert (~ (2%Z = currentMode pairState /\ modeBlend pairState >= 1)) as Hn.
  { simpl. intros [E _]. discriminate E. }
  split; [exact Hv|]. split; [exact wf_pairState|]. split; [exact Hn|].
  destruct (request_restarts_from_settled evenDraws 2 plainHSL 2 pairState Hv
              wf_pairState Hn)
    as (a & b & s' & m & Ha & Hb & Hs' & Hm & Hd & _ & _ & _ & _ & _ & _ & _
        & Hname & _).
  exists s', m. split; [exact Hs'|]. split; [exact Hm|].
  injection Ha as <-. injection Hb as <-.
  split; [exact Hd|exact Hname].
Defined.

Lemma particles_do_not_interact_witness :
  wf_State 2 pairState /\ (0 < 2)%nat /\
  length [3; 4; 30; 9; 9; 9] = (2 * 3)%nat /\
  length [0; 0; 0; 1; 1; 1] = (2 * 3)%nat /\
  readParticle [3; 4; 30; 9; 9; 9] [0; 0; 0; 1; 1; 1] 0 = particle pairState 0 /\
  exists s' s2',
    updateParticles evenDraws 2 exactRounding (1 / 60) pairState = Ok s' /\
    updateParticles evenDraws 2 exactRounding (1 / 60)
      (set_motion [3; 4; 30; 9; 9; 9] [0; 0; 0; 1; 1; 1] (rng pairState)
         pairState) = Ok s2' /\
    particle s2' 0 = particle s' 0.
Proof.
  assert (0 < 2)%nat as Hi by lia.
  assert (length [3; 4; 30; 9; 9; 9] = (2 * 3)%nat) as Hp by reflexivity.
  assert (length [0; 0; 0; 1; 1; 1] = (2 * 3)%nat) as Hv by reflexivity.
  assert (readParticle [3; 4; 30; 9; 9; 9] [0; 0; 0; 1; 1; 1] 0
          = particle pairState 0) as Hr by reflexivity.
  split; [exact wf_pairState|]. split; [exact Hi|]. split; [exact Hp|].
  split; [exact Hv|]. split; [exact Hr|].
  exact (particles_do_not_interact evenDraws 2 exactRounding (1 / 60) pairState _ _ 0%nat
           wf_pairState Hi Hp Hv Hr).
Defined.


Lemma burst_is_bounded_witness :
  (forall k, 0 <= evenDraws k < 1) /\ wf_State 2 pairState /\
  exists s',
    burstAt evenDraws 2 0 0 true pairState = Ok s' /\
    forall i, (i < 2)%nat ->
      Rabs (vx (particle s' i) - vx (particle pairState i)) <= 3 /\
      Rabs (vy (particle s' i) - vy (particle pairState i)) <= 3 /\
      Rabs (vz (particle s' i) - vz (particle pairState i)) <= 0.45 /\
      0 <= (if true then -1 else 1)
           * ((vx (particle s' i) - vx (particle pairState i))
              * (px (particle pairState i) - 0)) /\
      0 <= (if true then -1 else 1)
           * ((vy (particle s' i) - vy (particle pairState i))
              * (py (particle pairState i) - 0)).
Proof.
  split; [exact evenDraws_unit|]. split; [exact wf_pairState|].
  exact (burst_is_bounded evenDraws 2 evenDraws_unit 0 0 true pairState
           wf_pairState).
Defined.

Lemma frame_converges_appearance_witness :
  wf_State 2 pairState /\ 0 <= 16 /\
  exists s',
    handle evenDraws 2 plainHSL 8 exactRounding (ev_frame 16) pairState = Ok s' /\
    targetColors s' = targetColors pairState /\
    targetSizes s' = targetSizes pairState.
Proof.
  assert (0 <= 16) as Hel by lra.
  split; [exact wf_pairState|]. split; [exact Hel|].
  destruct (frame_converges_appearance evenDraws 2 plainHSL 8 exactRounding 16 pairState
              wf_pairState Hel) as (s' & Hs' & Hc & Hz & _).
  exists s'. split; [exact Hs'|]. split; [exact Hc|exact Hz].
Defined.

Lemma recolor_keeps_the_mode_witness :
  0 < 1 / 60 /\ wf_State 2 pairState /\
  exists s1,
    triggerColorTransition evenDraws 2 plainHSL pairState = Ok s1 /\
    currentMode s1 = currentMode pairState.
Proof.
  assert (0 < 1 / 60) as Hdt by lra.
  split; [exact Hdt|]. split; [exact wf_pairState|].
  destruct (recolor_keeps_the_mode evenDraws 2 plainHSL exactRounding (1 / 60) pairState
              Hdt wf_pairState) as (s1 & Hs1 & Hc & _).
  exists s1. split; [exact Hs1|exact Hc].
Defined.

Lemma targets_within_mode_ranges_witness :
  (forall k, 0 <= evenDraws k < 1) /\ valid_mode 2 /\
  wf_State 2 pairState /\
  ~ (2%Z = currentMode pairState /\ modeBlend pairState >= 1) /\
  exists s',
    setMode evenDraws 2 plainHSL 2 pairState = Ok s' /\
    forall i, (i < 2)%nat ->
      within (sizeRange aurora) (targetSizes s' !!! i).
Proof.
  assert (valid_mode 2) as Hv by (unfold valid_mode; simpl; lia).
  assert (~ (2%Z = currentMode pairState /\ modeBlend pairState >= 1)) as Hn.
  { simpl. intros [E _]. discriminate E. }
  split; [exact evenDraws_unit|]. split; [exact Hv|].
  split; [exact wf_pairState|]. split; [exact Hn|].
  destruct (targets_within_mode_ranges evenDraws 2 plainHSL evenDraws_unit 2
              pairState Hv wf_pairState Hn) as (b & s' & Hb & Hs' & Hall).
  injection Hb as <-.
  exists s'. split; [exact Hs'|].
  intros i Hi. exact (proj1 (Hall i Hi)).
Defined.

Lemma first_toggle_builds_the_graph_witness :
  wf_audio AmbientSound.new /\
  AmbientSound.ctx AmbientSound.new = None /\
  exists a' c bed lfos,
    AmbientSound.toggle evenDraws 8 AmbientSound.new 0
    = Ok (true, a', (0 + 8 * 4)%nat) /\
    AmbientSound._enabled a' = true /\
    map voiceFrequency (AmbientSound.drones a')
    = [[AmbientSound.SetValue 55.0]; [AmbientSound.SetValue 82.4];
       [AmbientSound.SetValue 123.5]] /\
    AmbientSound.ctx a' = Some c /\
    AmbientSound.started c = bed :: lfos /\
    map AmbientSound.v_out lfos
    = [AmbientSound.to_gain 2; AmbientSound.to_frequency 2;
       AmbientSound.to_gain 1; AmbientSound.to_frequency 1;
       AmbientSound.to_gain 0; AmbientSound.to_frequency 0].
Proof.
  assert (wf_audio AmbientSound.new) as W.
  { split; [unfold valid_mode; simpl; lia|split; reflexivity]. }
  assert (AmbientSound.ctx AmbientSound.new = None) as Hc by reflexivity.
  split; [exact W|]. split; [exact Hc|].
  destruct (first_toggle_builds_the_graph evenDraws 8 AmbientSound.new 0 W Hc)
    as (f0 & f1 & f2 & fs & a' & c & bed & lfos & Efs & Hfs & Ht & He & _ & _
        & _ & Hd & _ & Hctx & Hst & _ & _ & Hout & _).
  subst fs. injection Hfs as <- <- <-.
  exists a', c, bed, lfos. split; [exact Ht|]. split; [exact He|].
  split; [exact Hd|]. split; [exact Hctx|]. split; [exact Hst|exact Hout].
Defined.

Lemma toggle_mutes_without_rebuilding_witness :
  wf_audio playing /\ AmbientSound.ctx playing = Some sampleContext /\
  exists a1 a2,
    AmbientSound.toggle evenDraws 8 playing 0 = Ok (false, a1, 0%nat) /\
    AmbientSound.drones a1 = AmbientSound.drones playing /\
    AmbientSound.toggle evenDraws 8 a1 0 = Ok (true, a2, 0%nat) /\
    AmbientSound.drones a2 = AmbientSound.drones playing.
Proof.
  assert (AmbientSound.ctx playing = Some sampleContext) as Hc by reflexivity.
  split; [exact wf_playing|]. split; [exact Hc|].
  destruct (toggle_mutes_without_rebuilding evenDraws 8 playing sampleContext
              0 wf_playing Hc)
    as (m & g & a1 & c1 & a2 & _ & _ & H1 & _ & _ & _ & Hd1 & _ & _ & _ & H2
        & Hd2).
  exists a1, a2. split; [exact H1|]. split; [exact Hd1|].
  split; [exact H2|exact Hd2].
Defined.

Lemma mode_change_retunes_the_drones_witness :
  valid_mode 1 /\ wf_audio playing /\
  AmbientSound.ctx playing = Some sampleContext /\
  AmbientSound._enabled playing = true /\
  exists a',
    AmbientSound.setMode evenDraws 1 playing 0
    = Ok (a', (0 + AmbientSound.sampleRate sampleContext)%nat) /\
    AmbientSound.currentMode a' = 1%Z /\
    length (AmbientSound.drones a') = 3%nat.
Proof.
  assert (valid_mode 1) as Hv by (unfold valid_mode; simpl; lia).
  assert (AmbientSound.ctx playing = Some sampleContext) as Hc by reflexivity.
  assert (AmbientSound._enabled playing = true) as He by reflexivity.
  split; [exact Hv|]. split; [exact wf_playing|]. split; [exact Hc|].
  split; [exact He|].
  destruct (mode_change_retunes_the_drones evenDraws 1 playing sampleContext 0
              Hv wf_playing Hc He)
    as (fs & a' & c' & sweep & _ & Hs & Hm & Hl & _).
  exists a'. split; [exact Hs|]. split; [exact Hm|exact Hl].
Defined.

Lemma mode_chosen_while_silent_tunes_the_start_witness :
  valid_mode 1 /\ wf_audio AmbientSound.new /\
  AmbientSound.ctx AmbientSound.new = None /\
  exists a1 a2,
    AmbientSound.setMode evenDraws 1 AmbientSound.new 0 = Ok (a1, 0%nat) /\
    AmbientSound.toggle evenDraws 8 a1 0 = Ok (true, a2, (0 + 8 * 4)%nat) /\
    AmbientSound.currentMode a2 = 1%Z /\
    map voiceFrequency (AmbientSound.drones a2)
    = [[AmbientSound.SetValue 73.4]; [AmbientSound.SetValue 110.0];
       [AmbientSound.SetValue 185.0]].
Proof.
  assert (valid_mode 1) as Hv by (unfold valid_mode; simpl; lia).
  assert (wf_audio AmbientSound.new) as W.
  { split; [unfold valid_mode; simpl; lia|split; reflexivity]. }
  assert (AmbientSound.ctx AmbientSound.new = None) as Hc by reflexivity.
  split; [exact Hv|]. split; [exact W|]. split; [exact Hc|].
  destruct (mode_chosen_while_silent_tunes_the_start evenDraws 1 8
              AmbientSound.new 0 Hv W Hc)
    as (fs & a1 & a2 & Hfs & H1 & _ & H2 & Hm & Hd).
  injection Hfs as <-.
  exists a1, a2. split; [exact H1|]. split; [exact H2|].
  split; [exact Hm|exact Hd].
Defined.

Lemma burst_cue_witness :
  (forall k, 0 <= evenDraws k < 1) /\ wf_audio playing /\
  AmbientSound.ctx playing = Some sampleContext /\
  AmbientSound._enabled playing = true /\
  exists a' c' thump noise,
    AmbientSound.triggerBurst evenDraws playing 0
    = Ok (a', (1 + AmbientSound.burstBufLen
                       (AmbientSound.sampleRate sampleContext))%nat) /\
    AmbientSound.ctx a' = Some c' /\
    AmbientSound.started c'
    = noise :: thump :: AmbientSound.started sampleContext /\
    oneShot (AmbientSound.currentTime sampleContext) thump /\
    oneShot (AmbientSound.currentTime sampleContext) noise /\
    AmbientSound.burstBufLen (AmbientSound.sampleRate sampleContext)
    = 62%nat /\
    Math_floor (PrimFloat.mul (double_of_Z 44100) 0x1.6666666666666p-2)
    = 15434%Z.
Proof.
  assert (AmbientSound.ctx playing = Some sampleContext) as Hc by reflexivity.
  assert (AmbientSound._enabled playing = true) as He by reflexivity.
  split; [exact evenDraws_unit|]. split; [exact wf_playing|].
  split; [exact Hc|]. split; [exact He|].
  pose proof (burst_cue evenDraws evenDraws_unit playing sampleContext 0
                wf_playing Hc He) as H. cbv zeta in H.
  destruct H as (a' & c' & thump & noise & f & len & Hlen & Hb & Hc' & Hs
                 & H1 & H2 & _).
  exists a', c', thump, noise. split; [rewrite Hlen in Hb; exact Hb|].
  split; [exact Hc'|].
  split; [exact Hs|]. split; [exact H1|]. split; [exact H2|].
  split; vm_compute; reflexivity.
Defined.

Lemma recolor_cue_witness :
  (forall k, 0 <= evenDraws k < 1) /\ wf_audio playing /\
  AmbientSound.ctx playing = Some sampleContext /\
  AmbientSound._enabled playing = true /\
  exists a' c' first second,
    AmbientSound.triggerColorChange evenDraws playing 0 = Ok (a', 1%nat) /\
    AmbientSound.ctx a' = Some c' /\
    AmbientSound.started c'
    = second :: first :: AmbientSound.started sampleContext /\
    oneShot (AmbientSound.currentTime sampleContext) first /\
    oneShot (AmbientSound.currentTime sampleContext) second.
Proof.
  assert (AmbientSound.ctx playing = Some sampleContext) as Hc by reflexivity.
  assert (AmbientSound._enabled playing = true) as He by reflexivity.
  split; [exact evenDraws_unit|]. split; [exact wf_playing|].
  split; [exact Hc|]. split; [exact He|].
  pose proof (recolor_cue evenDraws evenDraws_unit playing sampleContext 0
                wf_playing Hc He) as H. cbv zeta in H.
  destruct H as (a' & c' & first & second & base & Hb & Hc' & Hs & H1 & H2
                 & _).
  exists a', c', first, second. split; [exact Hb|]. split; [exact Hc'|].
  split; [exact Hs|]. split; [exact H1|exact H2].
Defined.

Lemma sound_switched_off_stays_off_witness :
  Forall (fun e => isSoundToggle e = false)
    [ev_modeButton 3; ev_frame 16; ev_mousedown false;
     ev_swatch (Some 0.5); ev_frame 16] /\
  soundDesired (set_soundDesired false pairState) = false /\
  AmbientSound.ctx (audio (set_soundDesired false pairState)) = None /\
  exists s',
    run evenDraws 2 plainHSL 8 exactRounding
      [ev_modeButton 3; ev_frame 16; ev_mousedown false;
       ev_swatch (Some 0.5); ev_frame 16]
      (set_soundDesired false pairState) = Ok s' /\
    soundDesired s' = false /\ AmbientSound.ctx (audio s') = None.
Proof.
  assert (Forall (fun e => isSoundToggle e = false)
            [ev_modeButton 3; ev_frame 16; ev_mousedown false;
             ev_swatch (Some 0.5); ev_frame 16]) as Hes
    by (repeat constructor).
  assert (soundDesired (set_soundDesired false pairState) = false) as Hd
    by reflexivity.
  assert (AmbientSound.ctx (audio (set_soundDesired false pairState)) = None)
    as Hc by reflexivity.
  split; [exact Hes|]. split; [exact Hd|]. split; [exact Hc|].
  destruct (run_ok evenDraws 2 plainHSL 8 exactRounding _ (set_soundDesired false pairState)
              sampleEvents_timely
              (wf_set_soundDesired 2 false pairState wf_pairState))
    as (s' & Hs' & _).
  exists s'. split; [exact Hs'|].
  exact (sound_switched_off_stays_off evenDraws 2 plainHSL 8 exactRounding _ _ s' Hes Hd Hc
           Hs').
Defined.

Lemma first_press_starts_the_sound_witness :
  wf_State 2 pairState /\ soundDesired pairState = true /\
  AmbientSound.ctx (audio pairState) = None /\
  exists s',
    handle evenDraws 2 plainHSL 8 exactRounding (ev_mousedown false) pairState = Ok s' /\
    AmbientSound._enabled (audio s') = true /\
    is_Some (AmbientSound.ctx (audio s')) /\
    length (AmbientSound.drones (audio s')) = 3%nat /\
    audioCalls s'
    = (if mouseActive pairState then [call_triggerBurst; call_toggle]
       else [call_toggle]) ++ audioCalls pairState.
Proof.
  assert (soundDesired pairState = true) as Hd by reflexivity.
  assert (AmbientSound.ctx (audio pairState) = None) as Hc by reflexivity.
  split; [exact wf_pairState|]. split; [exact Hd|]. split; [exact Hc|].
  exact (first_press_starts_the_sound evenDraws 2 plainHSL 8 exactRounding false pairState
           wf_pairState Hd Hc).
Defined.

Lemma sound_button_agrees_with_engine_witness :
  Forall timely [ev_soundToggle; ev_mousedown false; ev_soundToggle;
                 ev_modeButton 1; ev_soundToggle; ev_frame 16] /\
  exists s,
    run evenDraws 2 plainHSL 8 exactRounding
      [ev_soundToggle; ev_mousedown false; ev_soundToggle;
       ev_modeButton 1; ev_soundToggle; ev_frame 16]
      (initial evenDraws 2 plainHSL) = Ok s /\
    soundAgrees s.
Proof.
  assert (Forall timely [ev_soundToggle; ev_mousedown false; ev_soundToggle;
                         ev_modeButton 1; ev_soundToggle; ev_frame 16])
    as Hes by (repeat constructor; simpl; lra).
  split; [exact Hes|].
  exact (sound_button_agrees_with_engine evenDraws 2 plainHSL 8 exactRounding _ Hes).
Defined.

